(** * Lyric alignment and clip chopping: a shallow embedding

    This development embeds the alignment-and-segmentation engine of
    [phase-3-performance/realign_lyrics.py] and
    [phase-3-performance/build_rap_db.py] and proves properties of it.

    Modelling conventions.
    - Python [float] values are modelled as exact rationals ([Q]); every
      arithmetic operation is the exact one, so binary rounding error of
      IEEE doubles is outside the model.  [round(x, n)] is the exact
      round-half-to-even to [n] decimal places.
    - A Python [str] is a Rocq [string] whose characters are the code
      points U+0000..U+00FF.
    - A [dict] with fixed keys is a record; a [set] of words is a
      [gset string]; a [for] loop is a left fold over the iterated list; a
      [while] loop is an iteration with an explicit bound on the number of
      rounds.
    - Library calls whose result the program only consumes
      ([difflib.SequenceMatcher(None, a, b).ratio()], numpy's
      root-mean-square of a slice, librosa's onset detector) are
      parameters of the functions that use them; [Difflib] below gives an
      executable model of the first one.
    - What the network returns (the reply of the line selection once
      parsed, the text of a transcription window) and the samples of a
      loaded song are arguments of the functions that read them; an
      exception a function lets through is the result [None]. *)

From Stdlib Require Import QArith Qround Qminmax Qabs Lqa ZArith String Ascii List Lia Bool.
From Stdlib Require Import Decimal DecimalString DecimalNat DecimalFacts Sorted.
From stdpp Require Import base gmap sets list strings.
Import ListNotations.

Local Open Scope Q_scope.

(** ** Python built-ins used by the program *)
Module Py.

(** [a < b] on floats. *)
Definition ltb (a b : Q) : bool :=
  match a ?= b with Lt => true | _ => false end.

(** [a >= b] on floats. *)
Definition geb (a b : Q) : bool := Qle_bool b a.

(** [max(a, b)] and [min(a, b)]: the first argument wins a tie. *)
Definition max (a b : Q) : Q := Qmax a b.
Definition min (a b : Q) : Q := Qmin a b.

(** [max(a, b, c)]. *)
Definition max3 (a b c : Q) : Q := Qmax (Qmax a b) c.

(** [float(n)] for an [int], and [len(l)] as a float operand. *)
Definition of_int (n : Z) : Q := inject_Z n.
Definition len {A} (l : list A) : Z := Z.of_nat (length l).

(** Nearest integer, ties to the even one. *)
Definition round_half_even (x : Q) : Z :=
  let f := Qfloor x in
  match ((x - inject_Z f) ?= (1 # 2))%Q with
  | Lt => f
  | Gt => (f + 1)%Z
  | Eq => if Z.even f then f else (f + 1)%Z
  end.

(** [round(x, 3)] and [round(x, 4)]. *)
Definition round3 (x : Q) : Q := inject_Z (round_half_even (x * 1000)) / 1000.
Definition round4 (x : Q) : Q := inject_Z (round_half_even (x * 10000)) / 10000.

(** [int(x)]: truncation towards zero. *)
Definition int (x : Q) : Z :=
  if ltb x 0%Q then Qceiling x else Qfloor x.

(** [range(n)] for an [int] [n]. *)
Definition range (n : Z) : list nat := seq 0 (Z.to_nat n).

(** [l[i:j]] for non-negative [i] and [j]. *)
Definition slice {A} (l : list A) (i j : nat) : list A :=
  take (j - i) (drop i l).

(** [enumerate(l)]. *)
Definition enumerate {A} (l : list A) : list (nat * A) :=
  zip (seq 0 (length l)) l.

(** *** Strings *)

Definition code (c : ascii) : N := N_of_ascii c.

Definition between (lo hi : N) (c : ascii) : bool :=
  ((lo <=? code c) && (code c <=? hi))%N.

(** [c.isspace()], which is also the class [\s] of [re] on [str]
    patterns: TAB..CR, FS..US, SPACE, NEL and NBSP. *)
Definition isspace (c : ascii) : bool :=
  between 9 13 c || between 28 32 c
  || (code c =? 133)%N || (code c =? 160)%N.

(** [c.lower()]: A-Z, and the Latin-1 capitals except the sign U+00D7. *)
Definition lower_char (c : ascii) : ascii :=
  if between 65 90 c || (between 192 222 c && negb (code c =? 215)%N)
  then ascii_of_N (code c + 32) else c.

(** [c.upper()].  U+00DF becomes the two letters SS.  U+00B5 and U+00FF
    become code points above U+00FF, which occur in no string literal of
    the program; they are left in place. *)
Definition upper_char (c : ascii) : string :=
  if between 97 122 c || (between 224 254 c && negb (code c =? 247)%N)
  then String (ascii_of_N (code c - 32)) EmptyString
  else if (code c =? 223)%N then "SS"%string
  else String c EmptyString.

Fixpoint lower (s : string) : string :=
  match s with
  | EmptyString => EmptyString
  | String c s' => String (lower_char c) (lower s')
  end.

Fixpoint upper (s : string) : string :=
  match s with
  | EmptyString => EmptyString
  | String c s' => String.append (upper_char c) (upper s')
  end.

(** [re.sub("[^...]", "", s)] for a character class given by [keep]. *)
Fixpoint re_sub_not (keep : ascii -> bool) (s : string) : string :=
  match s with
  | EmptyString => EmptyString
  | String c s' =>
      if keep c then String c (re_sub_not keep s') else re_sub_not keep s'
  end.

Fixpoint lstrip (s : string) : string :=
  match s with
  | EmptyString => EmptyString
  | String c s' => if isspace c then lstrip s' else s
  end.

(** [s.rstrip()]: a character stays when it, or a later one, is not
    white space. *)
Fixpoint rstrip (s : string) : string :=
  match s with
  | EmptyString => EmptyString
  | String c s' =>
      match rstrip s' with
      | EmptyString => if isspace c then EmptyString else String c EmptyString
      | r => String c r
      end
  end.

(** [s.strip()]. *)
Definition strip (s : string) : string := rstrip (lstrip s).

(** [s.split()]: the maximal runs of non-space characters.  [w] is the
    run being read. *)
Fixpoint split_from (w : string) (s : string) : list string :=
  match s with
  | EmptyString => match w with EmptyString => [] | _ => [w] end
  | String c s' =>
      if isspace c then
        match w with
        | EmptyString => split_from EmptyString s'
        | _ => w :: split_from EmptyString s'
        end
      else split_from (String.append w (String c EmptyString)) s'
  end.

Definition split (s : string) : list string := split_from EmptyString s.

(** [needle in hay]. *)
Fixpoint contains (needle hay : string) : bool :=
  String.prefix needle hay
  || match hay with
     | EmptyString => false
     | String _ hay' => contains needle hay'
     end.

(** [not s] for a string. *)
Definition is_empty (s : string) : bool :=
  match s with EmptyString => true | _ => false end.

(** *** More string methods *)

(** [c.isalnum()]: the letters, the decimal digits, and the characters
    U+00B2, U+00B3, U+00B9 and U+00BC..U+00BE that count as numbers. *)
Definition isalnum (c : ascii) : bool :=
  between 48 57 c || between 65 90 c || between 97 122 c
  || (code c =? 170)%N || (code c =? 178)%N || (code c =? 179)%N
  || (code c =? 181)%N || (code c =? 185)%N || (code c =? 186)%N
  || between 188 190 c
  || (between 192 255 c && negb (code c =? 215)%N && negb (code c =? 247)%N).

(** ["".join(c for c in s if keep(c))]. *)
Definition keep_chars (keep : ascii -> bool) (s : string) : string :=
  re_sub_not keep s.

(** [s.replace(a, b)] for single characters [a] and [b]. *)
Fixpoint replace_char (a b : ascii) (s : string) : string :=
  match s with
  | EmptyString => EmptyString
  | String c s' => String (if Ascii.eqb c a then b else c) (replace_char a b s')
  end.

(** [f"{n:03d}"] for [n >= 0]: the decimal digits, with zeros in front up
    to three characters. *)
Definition format_03d (n : nat) : string :=
  let d := Nat.to_uint n in
  NilEmpty.string_of_uint (Nat.iter (3 - Decimal.nb_digits d) Decimal.D0 d).

(** [f"{z:03d}"] for any [int]: the sign counts for the width. *)
Definition format_03d_int (z : Z) : string :=
  if (z <? 0)%Z then
    let d := Nat.to_uint (Z.abs_nat z) in
    String "-" (NilEmpty.string_of_uint
                  (Nat.iter (2 - Decimal.nb_digits d) Decimal.D0 d))
  else format_03d (Z.to_nat z).

(** [s[:n]]. *)
Definition str_take (n : nat) (s : string) : string := String.substring 0 n s.

(** [s.split(sep)] for a single character [sep]; [w] is the piece being
    read. *)
Fixpoint split_on_from (sep : ascii) (w : string) (s : string) : list string :=
  match s with
  | EmptyString => [w]
  | String c s' =>
      if Ascii.eqb c sep then w :: split_on_from sep EmptyString s'
      else split_on_from sep (String.append w (String c EmptyString)) s'
  end.

Definition split_on (sep : ascii) (s : string) : list string :=
  split_on_from sep EmptyString s.

(** The value of a string of decimal digits in which single underscores
    may separate digits, as [int] reads it; [prev] tells whether the
    character before was a digit. *)
Fixpoint digits_value (acc : nat) (prev : bool) (s : string) : option nat :=
  match s with
  | EmptyString => if prev then Some acc else None
  | String c s' =>
      if between 48 57 c
      then digits_value (10 * acc + N.to_nat (code c - 48)) true s'
      else if (code c =? 95)%N && prev then digits_value acc false s'
      else None
  end.

(** [int(s)] for a string: white space around the number is dropped, a
    sign may come first; [None] stands for [ValueError]. *)
Definition int_of_str (s : string) : option Z :=
  match strip s with
  | String "-" r => option_map (fun n => (- Z.of_nat n)%Z) (digits_value 0 false r)
  | String "+" r => option_map Z.of_nat (digits_value 0 false r)
  | r => option_map Z.of_nat (digits_value 0 false r)
  end.

(** [s.replace(old, "")] for a non-empty [old]: the occurrences are
    found from the left and do not overlap; [skip] characters of the
    occurrence being deleted are still to be dropped. *)
Fixpoint remove_sub_from (old : string) (skip : nat) (s : string) : string :=
  match s with
  | EmptyString => EmptyString
  | String c s' =>
      match skip with
      | S k => remove_sub_from old k s'
      | O =>
          if String.prefix old s
          then remove_sub_from old (String.length old - 1) s'
          else String c (remove_sub_from old 0 s')
      end
  end.

Definition remove_sub (old : string) (s : string) : string :=
  remove_sub_from old 0 s.

(** [range(0, stop, step)] for [step > 0]. *)
Definition range_step (stop step : nat) : list nat :=
  List.map (fun k => k * step)%nat (seq 0 ((stop + (step - 1)) / step)).

End Py.

(** ** [difflib.SequenceMatcher(None, a, b).ratio()]

    An executable model of the standard library's matcher for two strings,
    with no junk predicate and with the automatic junk heuristic on (the
    defaults the program uses). *)
Module Difflib.

Section Matcher.
Variables a b : list ascii.

Definition same_at (i j : nat) : bool :=
  match a !! i, b !! j with
  | Some x, Some y => Ascii.eqb x y
  | _, _ => false
  end.

(** The indices of [c] in [b], in increasing order. *)
Definition indices (c : ascii) : list nat :=
  List.map fst (List.filter (fun jx => Ascii.eqb (snd jx) c) (Py.enumerate b)).

(** [__chain_b]: when [b] has 200 elements or more, an element that
    occurs more than [len(b) // 100 + 1] times is dropped from [b2j]. *)
Definition popular (c : ascii) : bool :=
  (200 <=? length b)%nat
  && (length b / 100 + 1 <? length (indices c))%nat.

Definition b2j (c : ascii) : list nat :=
  if popular c then [] else indices c.

(** One round of the outer loop of [find_longest_match], for the index
    [i] of [a].  The indices [j] come in increasing order, so leaving
    the inner loop at the first [j >= bhi] skips exactly the [j] that
    are not below [bhi]. *)
Definition row (blo bhi i : nat) (j2len : gmap nat nat) (best : nat * nat * nat)
    : gmap nat nat * (nat * nat * nat) :=
  match a !! i with
  | None => (∅, best)
  | Some c =>
      fold_left
        (fun (st : gmap nat nat * (nat * nat * nat)) (j : nat) =>
           let '(newj2len, (besti, bestj, bestsize)) := st in
           if (j <? blo)%nat then st
           else if (bhi <=? j)%nat then st
           else
             let k := (match j with
                       | O => 0
                       | S j' => default 0 (j2len !! j')
                       end + 1)%nat in
             (<[j := k]> newj2len,
              if (bestsize <? k)%nat
              then ((i + 1 - k)%nat, (j + 1 - k)%nat, k)
              else (besti, bestj, bestsize)))
        (b2j c) (∅, best)
  end.

(** [while besti > alo and bestj > blo and a[besti-1] == b[bestj-1]]. *)
Fixpoint extend_left (alo blo besti bestj bestsize : nat) : nat * nat * nat :=
  match besti, bestj with
  | S i', S j' =>
      if (alo <=? i')%nat && (blo <=? j')%nat && same_at i' j'
      then extend_left alo blo i' j' (S bestsize)
      else (besti, bestj, bestsize)
  | _, _ => (besti, bestj, bestsize)
  end.

(** [while besti+bestsize < ahi and bestj+bestsize < bhi and
    a[besti+bestsize] == b[bestj+bestsize]], at most [rounds] times. *)
Fixpoint extend_right (rounds ahi bhi besti bestj bestsize : nat) : nat * nat * nat :=
  match rounds with
  | O => (besti, bestj, bestsize)
  | S rounds' =>
      if (besti + bestsize <? ahi)%nat && (bestj + bestsize <? bhi)%nat
         && same_at (besti + bestsize) (bestj + bestsize)
      then extend_right rounds' ahi bhi besti bestj (S bestsize)
      else (besti, bestj, bestsize)
  end.

(** [find_longest_match(alo, ahi, blo, bhi)].  The junk set is empty,
    so the two loops that extend a match by junk do nothing. *)
Definition find_longest_match (alo ahi blo bhi : nat) : nat * nat * nat :=
  let '(_, (besti, bestj, bestsize)) :=
    fold_left
      (fun (st : gmap nat nat * (nat * nat * nat)) (i : nat) =>
         row blo bhi i (fst st) (snd st))
      (seq alo (ahi - alo)) (∅, (alo, blo, 0%nat)) in
  let '(besti, bestj, bestsize) := extend_left alo blo besti bestj bestsize in
  extend_right ahi ahi bhi besti bestj bestsize.

(** The loop of [get_matching_blocks]: [queue] is a stack whose top is
    the head; the result is the list of blocks found, or [None] when
    [rounds] iterations did not empty the queue. *)
Fixpoint matching_blocks (rounds : nat) (queue : list (nat * nat * nat * nat))
    (blocks : list (nat * nat * nat)) : option (list (nat * nat * nat)) :=
  match queue with
  | [] => Some blocks
  | (alo, ahi, blo, bhi) :: queue' =>
      match rounds with
      | O => None
      | S rounds' =>
          let '(i, j, k) := find_longest_match alo ahi blo bhi in
          if (k =? 0)%nat then matching_blocks rounds' queue' blocks
          else
            let q1 := if (alo <? i)%nat && (blo <? j)%nat
                      then (alo, i, blo, j) :: queue' else queue' in
            let q2 := if (i + k <? ahi)%nat && (j + k <? bhi)%nat
                      then ((i + k)%nat, ahi, (j + k)%nat, bhi) :: q1 else q1 in
            matching_blocks rounds' q2 (blocks ++ [(i, j, k)])
      end
  end.

Definition get_matching_blocks : option (list (nat * nat * nat)) :=
  matching_blocks (2 * length a + 1)
                  [(0%nat, length a, 0%nat, length b)] [].

(** [_calculate_ratio(matches, len(a) + len(b))]. *)
Definition calculate_ratio (matches : nat) (length : nat) : Q :=
  if (length =? 0)%nat then 1
  else 2 * Py.of_int (Z.of_nat matches) / Py.of_int (Z.of_nat length).

Definition ratio_of_blocks (blocks : list (nat * nat * nat)) : Q :=
  calculate_ratio (fold_left (fun n x => (n + snd x)%nat) blocks 0%nat)
                  (length a + length b).

End Matcher.

(** [SequenceMatcher(None, a, b).ratio()]. *)
Definition ratio (a b : string) : Q :=
  let la := list_ascii_of_string a in
  let lb := list_ascii_of_string b in
  match get_matching_blocks la lb with
  | Some blocks => ratio_of_blocks la lb blocks
  | None => 0
  end.

End Difflib.

(** ** Data model: the dictionaries the two scripts exchange *)

(** A transcribed window: [{"start": .., "end": .., "text": ..}]; a window
    without a ["text"] key reads as the empty text. *)
Record segment := {
  seg_start : Q;
  seg_end : Q;
  seg_text : string
}.

(** A phrase: [{"lyric", "start", "end", "line_index", "confidence"}]. *)
Record phrase := {
  ph_lyric : string;
  ph_start : Q;
  ph_end : Q;
  ph_line_index : Z;
  ph_confidence : Q
}.

(** The metadata record of an emitted clip.  The file name and the write
    of the audio file are not part of the model;
    ["alignment_confidence"] is only written by [rechop_song]. *)
Record clip := {
  clip_artist : string;
  clip_title : string;
  clip_lyric : string;
  clip_start_time : Q;
  clip_end_time : Q;
  clip_duration : Q;
  clip_rms : Q;
  clip_song_index : Z;
  clip_index : nat;
  clip_alignment_confidence : option Q
}.

(** ** [realign_lyrics.py] *)
Module RealignLyrics.

Definition SAMPLE_RATE : Z := 44100.
Definition MIN_PHRASE_DURATION : Q := 0.6.
Definition MAX_PHRASE_DURATION : Q := 4.0.
Definition MAX_CLIPS_PER_SONG : nat := 50.
Definition MIN_CONFIDENCE : Q := 0.30.

(** The class [a-z0-9\s'] whose complement [_clean] deletes. *)
Definition clean_keeps (c : ascii) : bool :=
  Py.between 97 122 c || Py.between 48 57 c || Py.isspace c
  || (Py.code c =? 39)%N.

(** [re.sub(r"[^a-z0-9\s']", "", s.lower()).strip()]. *)
Definition _clean (s : string) : string :=
  Py.strip (Py.re_sub_not clean_keeps (Py.lower s)).

Definition _words (s : string) : list string := Py.split (_clean s).

(** [not text or "[INSTRUMENTAL]" in text.upper()]. *)
Definition no_vocals (text : string) : bool :=
  Py.is_empty text || Py.contains "[INSTRUMENTAL]" (Py.upper text).

Section Matching.
(** [ratio a b] stands for [SequenceMatcher(None, a, b).ratio()]. *)
Variable ratio : string -> string -> Q.

(** [sum(1 for a, b in zip(lw, window) if a == b or ratio(a, b) > thr)]
    for [window = tw[i : i + len(lw)]]. *)
Definition matches_at (thr : Q) (lw tw : list string) (i : nat) : Z :=
  let window := Py.slice tw i (i + length lw) in
  Py.len (List.filter
            (fun ab : string * string =>
               String.eqb (fst ab) (snd ab)
               || Py.ltb thr (ratio (fst ab) (snd ab)))
            (zip lw window)).

(** The offsets [range(max(1, len(tw) - len(lw) + 1))]. *)
Definition offsets (lw tw : list string) : list nat :=
  Py.range (Z.max 1 (Py.len tw - Py.len lw + 1)).

(** Strategy 1: [len(lset & tset) / len(lset) if lset else 0]. *)
Definition overlap (lw tw : list string) : Q :=
  let lset : gset string := list_to_set lw in
  let tset : gset string := list_to_set tw in
  if (size lset =? 0)%nat then 0
  else Py.of_int (Z.of_nat (size (lset ∩ tset)))
       / Py.of_int (Z.of_nat (size lset)).

(** Strategy 2: the consecutive-word sliding window. *)
Definition consec (lw tw : list string) : Q :=
  if (2 <=? Py.len lw)%Z then
    fold_left
      (fun (consec : Q) (i : nat) =>
         Py.max consec (Py.of_int (matches_at 0.75 lw tw i)
                        / Py.of_int (Py.len lw)))
      (offsets lw tw) 0.0
  else 0.0.

(** Strategy 3: [SequenceMatcher] on the cleaned strings. *)
Definition seq_ratio (lyric text : string) : Q :=
  ratio (_clean lyric) (_clean text).

(** [max(overlap * 0.85, consec * 0.95, seq)]. *)
Definition score (lyric : string) (lw : list string) (text : string)
    (tw : list string) : Q :=
  Py.max3 (overlap lw tw * 0.85) (consec lw tw * 0.95) (seq_ratio lyric text).

(** The body of [for seg in segments], on the loop state
    [(best_seg, best_score)]. *)
Definition scan (lyric : string) (lw : list string)
    (st : option segment * Q) (seg : segment) : option segment * Q :=
  let text := seg_text seg in
  if no_vocals text then st
  else
    let tw := _words text in
    match tw with
    | [] => st
    | _ =>
        let sc := score lyric lw text tw in
        if Py.ltb (snd st) sc then (Some seg, sc) else st
    end.

Definition match_lyric_to_segments (lyric : string) (segments : list segment)
    : option segment * Q :=
  let lw := _words lyric in
  match lw with
  | [] => (None, 0.0)
  | _ => fold_left (scan lyric lw) segments (None, 0.0)
  end.

(** The first offset with the highest fraction of matching words:
    the loop state is [(best_pos, best_r)]. *)
Definition best_position (lw tw : list string) : nat * Q :=
  fold_left
    (fun (st : nat * Q) (i : nat) =>
       let r := Py.of_int (matches_at 0.7 lw tw i) / Py.of_int (Py.len lw) in
       if Py.ltb (snd st) r then (i, r) else st)
    (offsets lw tw) (0%nat, 0.0).

(** [len(tw) / seg_dur if seg_dur > 0 else 5.0]. *)
Definition words_per_sec (tw : list string) (seg_dur : Q) : Q :=
  if Py.ltb 0 seg_dur then Py.of_int (Py.len tw) / seg_dur else 5.0.

(** [max(MIN_PHRASE_DURATION, min(len(lw) / words_per_sec,
    MAX_PHRASE_DURATION))]. *)
Definition est_dur (lw : list string) (wps : Q) : Q :=
  Py.max MIN_PHRASE_DURATION
         (Py.min (Py.of_int (Py.len lw) / wps) MAX_PHRASE_DURATION).

(** The two assignments under [# Clamp to song bounds]. *)
Definition clamp_to_song (est_start est_end song_duration : Q) : Q * Q :=
  let est_start :=
    Py.max 0.0 (Py.min est_start (song_duration - MIN_PHRASE_DURATION)) in
  let est_end :=
    Py.min song_duration (Py.max est_end (est_start + MIN_PHRASE_DURATION)) in
  (est_start, est_end).

Definition refine_timestamp (lyric : string) (seg : segment)
    (song_duration : Q) : Q * Q :=
  let text := seg_text seg in
  let seg_dur := seg_end seg - seg_start seg in
  let lw := _words lyric in
  let tw := _words text in
  match tw, lw with
  | [], _ | _, [] =>
      (seg_start seg,
       Py.min (seg_end seg) (seg_start seg + MAX_PHRASE_DURATION))
  | _, _ =>
      let best_pos := fst (best_position lw tw) in
      let wps := words_per_sec tw seg_dur in
      let est_start := seg_start seg + Py.of_int (Z.of_nat best_pos) / wps in
      let est_end := est_start + est_dur lw wps in
      let '(est_start, est_end) :=
        clamp_to_song est_start est_end song_duration in
      (Py.round3 est_start, Py.round3 est_end)
  end.

(** The body of [for ph in song["phrases"]] in [main]: the corrected
    phrase, and whether the match was accepted. *)
Definition realign_phrase (min_confidence : Q) (segments : list segment)
    (song_dur : Q) (ph : phrase) : phrase * bool :=
  let '(best_seg, confidence) :=
    match_lyric_to_segments (ph_lyric ph) segments in
  let kept_old :=
    {| ph_lyric := ph_lyric ph; ph_start := ph_start ph;
       ph_end := ph_end ph; ph_line_index := ph_line_index ph;
       ph_confidence := Py.round3 confidence |} in
  match best_seg with
  | Some seg =>
      if Py.geb confidence min_confidence then
        let '(new_start, new_end) :=
          refine_timestamp (ph_lyric ph) seg song_dur in
        ({| ph_lyric := ph_lyric ph; ph_start := new_start;
            ph_end := new_end; ph_line_index := ph_line_index ph;
            ph_confidence := Py.round3 confidence |}, true)
      else (kept_old, false)
  | None => (kept_old, false)
  end.

End Matching.

Section Chopping.
(** [rms clip] stands for [float(np.sqrt(np.mean(clip ** 2)))]. *)
Variable rms : list Q -> Q.
(** The samples [librosa.load] returned, at [SAMPLE_RATE]. *)
Variable y : list Q.

Definition sr : Q := Py.of_int SAMPLE_RATE.
Definition dur : Q := Py.of_int (Py.len y) / sr.

(** The body of [for ci, ph in enumerate(phrases[:MAX_CLIPS_PER_SONG])]
    on the list [clips]. *)
Definition rechop_phrase (artist title : string) (song_idx : Z)
    (clips : list clip) (cp : nat * phrase) : list clip :=
  let '(ci, ph) := cp in
  let s := Py.max 0 (ph_start ph - 0.05) in
  let e := Py.min dur (ph_end ph + 0.05) in
  let pdur := e - s in
  if Py.ltb pdur MIN_PHRASE_DURATION
     || Py.ltb (MAX_PHRASE_DURATION + 1.0) pdur then clips
  else
    let clip := Py.slice y (Z.to_nat (Py.int (s * sr)))
                           (Z.to_nat (Py.int (e * sr))) in
    let rms := rms clip in
    if Py.ltb rms 0.005 then clips
    else
      clips ++ [ {| clip_artist := artist; clip_title := title;
                    clip_lyric := ph_lyric ph;
                    clip_start_time := Py.round3 (ph_start ph);
                    clip_end_time := Py.round3 (ph_end ph);
                    clip_duration := Py.round3 pdur;
                    clip_rms := Py.round4 rms;
                    clip_song_index := song_idx;
                    clip_index := ci;
                    clip_alignment_confidence := Some (ph_confidence ph) |} ].

Definition rechop_song (phrases : list phrase) (artist title : string)
    (song_idx : Z) : list clip :=
  fold_left (rechop_phrase artist title song_idx)
            (Py.enumerate (take MAX_CLIPS_PER_SONG phrases)) [].

End Chopping.

(** *** The windows of [transcribe_song] *)

Definition SEG_DURATION : Q := 10.0.
Definition SEG_STEP : Q := 5.0.
Definition PARALLEL_WORKERS : nat := 5.

Record window := {
  w_start : Q;
  w_end : Q;
  w_audio : list Q;
  w_seg_id : string;
  w_idx : nat
}.

(** The loop [while t < dur] on [(t, seg_num)], run for at most [rounds]
    iterations: the windows it appends. *)
Fixpoint windows_from (rounds : nat) (song_name : string) (y : list Q)
    (t : Q) (seg_num : nat) : list window :=
  match rounds with
  | O => []
  | S rounds' =>
      let sr := Py.of_int SAMPLE_RATE in
      let dur := Py.of_int (Py.len y) / sr in
      if Py.ltb t dur then
        let e := Py.min (t + SEG_DURATION) dur in
        let s_samp := Py.int (t * sr) in
        let e_samp := Py.int (e * sr) in
        let seg_audio := Py.slice y (Z.to_nat s_samp) (Z.to_nat e_samp) in
        let seg_id :=
          String.append song_name (String.append "_s" (Py.format_03d seg_num)) in
        {| w_start := Py.round3 t; w_end := Py.round3 e;
           w_audio := seg_audio; w_seg_id := seg_id; w_idx := seg_num |}
          :: windows_from rounds' song_name y (t + SEG_STEP) (seg_num + 1)
      else []
  end.

(** As many rounds as there are samples are enough: a round advances [t]
    by 5 s of audio. *)
Definition windows (song_name : string) (y : list Q) : list window :=
  windows_from (length y) song_name y 0.0 0.

(** The loop [for w, result in zip(batch, results)]: a result that is not
    a string is [None].  An index out of range would raise where the
    list update does nothing. *)
Definition fill_batch (segments : list (option segment))
    (batch : list window) (results : list (option string))
  : list (option segment) :=
  fold_left
    (fun (segments : list (option segment)) (wr : window * option string) =>
       let text := match snd wr with Some result => result | None => EmptyString end in
       <[ w_idx (fst wr) :=
            Some {| seg_start := w_start (fst wr); seg_end := w_end (fst wr);
                    seg_text := text |} ]> segments)
    (zip batch results) segments.

(** [transcribe_song] without its cache; [run_batch batch] stands for
    [asyncio.run(_run_batch(batch))]. *)
Definition transcribe_song (run_batch : list window -> list (option string))
    (song_name : string) (y : list Q) : list (option segment) :=
  let windows := windows song_name y in
  let total := length windows in
  fold_left
    (fun (segments : list (option segment)) (batch_start : nat) =>
       let batch := Py.slice windows batch_start (batch_start + PARALLEL_WORKERS) in
       fill_batch segments batch (run_batch batch))
    (Py.range_step total PARALLEL_WORKERS)
    (replicate total None).

(** *** File names *)

(** [c.isalnum() or c in "_-"]. *)
Definition name_char (c : ascii) : bool :=
  Py.isalnum c || (Py.code c =? 95)%N || (Py.code c =? 45)%N.

(** The name [rechop_song] gives the clip of phrase number [ci]:
    [f"{song_idx:03d}_{safe_a}_{safe_t}_p{ci:03d}.wav"]. *)
Definition clip_name (song_idx : Z) (artist title : string) (ci : nat) : string :=
  let safe_a := Py.keep_chars name_char artist in
  let safe_t := Py.keep_chars name_char (Py.replace_char " " "_" title) in
  String.append (Py.format_03d_int song_idx)
    (String "_" (String.append safe_a
       (String "_" (String.append safe_t
          (String.append "_p" (String.append (Py.format_03d ci) ".wav")))))).

(** [name = pf.stem.replace("_phrases", "")] and [int(name[:3])] of
    [main]; [None] stands for the [ValueError] that skips the song. *)
Definition song_name (stem : string) : string := Py.remove_sub "_phrases" stem.

Definition song_idx (name : string) : option Z :=
  Py.int_of_str (Py.str_take 3 name).

(** *** One song of [main] *)

(** [[s for s in segments if s.get("text") and "[INSTRUMENTAL]" not in
    s["text"].upper()]]. *)
Definition vocal_segs (segments : list segment) : list segment :=
  List.filter (fun s => negb (no_vocals (seg_text s))) segments.

Record stats := {
  matched : nat;
  unmatched : nat;
  kept_old : nat
}.

(** The loop [for ph in song["phrases"]] on [(corrected_phrases, stats)]. *)
Definition realign_step (ratio : string -> string -> Q) (min_confidence : Q)
    (segments : list segment) (song_dur : Q)
    (st : list phrase * stats) (ph : phrase) : list phrase * stats :=
  let '(corrected_phrases, counts) := st in
  let '(corrected, accepted) :=
    realign_phrase ratio min_confidence segments song_dur ph in
  (corrected_phrases ++ [corrected],
   if accepted
   then {| matched := matched counts + 1; unmatched := unmatched counts;
           kept_old := kept_old counts |}
   else {| matched := matched counts; unmatched := unmatched counts + 1;
           kept_old := kept_old counts |}).

(** The body of [for si, song in enumerate(songs)]: the phrases handed to
    [rechop_song] and the counters. *)
Definition realign_song (ratio : string -> string -> Q) (min_confidence : Q)
    (segments : list segment) (song_dur : Q) (phrases : list phrase)
    (st : stats) : list phrase * stats :=
  match vocal_segs segments with
  | [] =>
      (phrases,
       {| matched := matched st; unmatched := unmatched st;
          kept_old := kept_old st + length phrases |})
  | _ =>
      fold_left (realign_step ratio min_confidence segments song_dur)
                phrases ([], st)
  end.

(** [sum(1 for p in corrected_phrases if p['confidence'] >=
    args.min_confidence)], the count printed as "Aligned". *)
Definition aligned_count (min_confidence : Q) (corrected_phrases : list phrase)
  : nat :=
  length (List.filter (fun p => Py.geb (ph_confidence p) min_confidence)
                      corrected_phrases).

(** *** Explicit lyrics *)

Definition EXPLICIT_WORDS : gset string :=
  list_to_set
    [ "nigga"; "niggas"; "nigger"; "niggers"; "niggaz";
      "fuck"; "fuckin"; "fuckin'"; "fucking"; "fucked"; "fucker";
      "motherfucker"; "motherfuckin"; "motherfuckin'"; "motherfucking";
      "muthafucka";
      "shit"; "shitty"; "bullshit";
      "bitch"; "bitches"; "bitchin";
      "ass"; "asses"; "asshole";
      "dick"; "dicks";
      "pussy"; "pussies";
      "hoe"; "hoes";
      "whore"; "whores";
      "cocaine"; "crack"; "molly"; "ecstasy"; "heroin";
      "kill"; "murder"; "murdered"; "shooting"; "shoot" ]%string.

(** The class [a-zA-Z\s'] whose complement [is_explicit] deletes. *)
Definition explicit_keeps (c : ascii) : bool :=
  Py.between 97 122 c || Py.between 65 90 c || Py.isspace c
  || (Py.code c =? 39)%N.

(** The words [is_explicit] looks up. *)
Definition explicit_words_of (lyric : string) : list string :=
  Py.split (Py.re_sub_not explicit_keeps (Py.lower lyric)).

(** [bool(words & EXPLICIT_WORDS)]. *)
Definition is_explicit (lyric : string) : bool :=
  let words : gset string := list_to_set (explicit_words_of lyric) in
  negb (size (words ∩ EXPLICIT_WORDS) =? 0)%nat.

(** [generate_outputs]: the lines of [rap-clips.txt],
    [rap-clips-clean.txt], [clip_lyrics.txt] and [clip_lyrics_clean.txt],
    for clips given with their ["clip_file"] entry. *)
Definition list_line (fc : string * clip) : string :=
  String.append "rap_clips/" (fst fc).

Definition lyric_line (fc : string * clip) : string :=
  String.append (clip_artist (snd fc))
                (String.append ": " (clip_lyric (snd fc))).

Definition clean (all_clips : list (string * clip)) : list (string * clip) :=
  List.filter (fun fc => negb (is_explicit (clip_lyric (snd fc)))) all_clips.

Definition generate_outputs (all_clips : list (string * clip))
  : list string * list string * list string * list string :=
  (List.map list_line all_clips, List.map list_line (clean all_clips),
   List.map lyric_line all_clips, List.map lyric_line (clean all_clips)).

End RealignLyrics.

(** ** [build_rap_db.py] *)
Module BuildRapDb.

Definition SAMPLE_RATE : Z := 44100.
Definition MIN_PHRASE_DURATION : Q := 0.6.
Definition MAX_PHRASE_DURATION : Q := 4.0.
Definition MAX_CLIPS_PER_SONG : nat := 50.

Definition clean_keeps (c : ascii) : bool :=
  Py.between 97 122 c || Py.between 48 57 c || Py.isspace c
  || (Py.code c =? 39)%N.

(** [re.sub(r"[^a-z0-9\s']", "", s.lower()).strip()]. *)
Definition _clean_text (s : string) : string :=
  Py.strip (Py.re_sub_not clean_keeps (Py.lower s)).

Definition _words (s : string) : list string := Py.split (_clean_text s).

Definition no_vocals (text : string) : bool :=
  Py.is_empty text || Py.contains "[INSTRUMENTAL]" (Py.upper text).

Section Aligning.
(** [ratio a b] stands for [SequenceMatcher(None, a, b).ratio()]. *)
Variable ratio : string -> string -> Q.

(** [sum(1 for a, b in zip(lw, window) if a == b or ratio(a, b) > thr)]
    for [window = tw[i:i + len(lw)]]. *)
Definition matches_at (thr : Q) (lw tw : list string) (i : nat) : Z :=
  let window := Py.slice tw i (i + length lw) in
  Py.len (List.filter
            (fun ab : string * string =>
               String.eqb (fst ab) (snd ab)
               || Py.ltb thr (ratio (fst ab) (snd ab)))
            (zip lw window)).

Definition offsets (lw tw : list string) : list nat :=
  Py.range (Z.max 1 (Py.len tw - Py.len lw + 1)).

Definition overlap (lw tw : list string) : Q :=
  let lset : gset string := list_to_set lw in
  let tset : gset string := list_to_set tw in
  if (size lset =? 0)%nat then 0
  else Py.of_int (Z.of_nat (size (lset ∩ tset)))
       / Py.of_int (Z.of_nat (size lset)).

Definition consec (lw tw : list string) : Q :=
  if (2 <=? Py.len lw)%Z then
    fold_left
      (fun (consec : Q) (i : nat) =>
         Py.max consec (Py.of_int (matches_at 0.75 lw tw i)
                        / Py.of_int (Py.len lw)))
      (offsets lw tw) 0.0
  else 0.0.

Definition score (lyric : string) (lw : list string) (text : string)
    (tw : list string) : Q :=
  Py.max3 (overlap lw tw * 0.85) (consec lw tw * 0.95)
          (ratio (_clean_text lyric) (_clean_text text)).

(** The body of the first loop of [grok_align_line], on
    [(best_seg, best_score)]. *)
Definition scan (lyric : string) (lw : list string)
    (st : option segment * Q) (seg : segment) : option segment * Q :=
  let text := seg_text seg in
  if no_vocals text then st
  else
    let tw := _words text in
    match tw with
    | [] => st
    | _ =>
        let sc := score lyric lw text tw in
        if Py.ltb (snd st) sc then (Some seg, sc) else st
    end.

(** The second loop of [grok_align_line], on [(best_pos, best_r)]. *)
Definition best_position (lw tw : list string) : nat * Q :=
  fold_left
    (fun (st : nat * Q) (i : nat) =>
       let r := Py.of_int (matches_at 0.7 lw tw i) / Py.of_int (Py.len lw) in
       if Py.ltb (snd st) r then (i, r) else st)
    (offsets lw tw) (0%nat, 0.0).

(** [(start, end, confidence)]. *)
Definition grok_align_line (lyric : string) (segments : list segment)
    (duration : Q) : Q * Q * Q :=
  let lw := _words lyric in
  match lw with
  | [] => (0.0, MIN_PHRASE_DURATION, 0.0)
  | _ =>
      let '(best_seg, best_score) :=
        fold_left (scan lyric lw) segments (None, 0.0) in
      match best_seg with
      | None => (0.0, MIN_PHRASE_DURATION, 0.0)
      | Some best_seg =>
          if Py.ltb best_score 0.15 then (0.0, MIN_PHRASE_DURATION, 0.0)
          else
            let tw := _words (seg_text best_seg) in
            let seg_start := seg_start best_seg in
            let seg_dur := seg_end best_seg - seg_start in
            let best_pos := fst (best_position lw tw) in
            let wps := if Py.ltb 0 seg_dur
                       then Py.of_int (Py.len tw) / seg_dur else 5.0 in
            let est_start := seg_start + Py.of_int (Z.of_nat best_pos) / wps in
            let est_dur :=
              Py.max MIN_PHRASE_DURATION
                     (Py.min (Py.of_int (Py.len lw) / wps) MAX_PHRASE_DURATION) in
            let est_end := est_start + est_dur in
            let est_start :=
              Py.max 0.0 (Py.min est_start (duration - MIN_PHRASE_DURATION)) in
            let est_end :=
              Py.min duration (Py.max est_end (est_start + MIN_PHRASE_DURATION)) in
            (Py.round3 est_start, Py.round3 est_end, Py.round3 best_score)
      end
  end.

End Aligning.

(** *** [estimate_line_timestamps]

    [duration] and [onset_times] stand for what [librosa] computes from
    the file: the length of the song in seconds and the detected onset
    times. *)

(** The raw segments: onsets closer than 0.3 s are merged.  The loop
    state is [(segments, seg_start, seg_end)]. *)
Definition raw_segments (onset_times : list Q) : list (Q * Q) :=
  match onset_times with
  | [] => []
  | t0 :: rest =>
      let '(segments, seg_start, seg_end) :=
        fold_left
          (fun (st : list (Q * Q) * Q * Q) (t : Q) =>
             let '(segments, seg_start, seg_end) := st in
             if Py.ltb (t - seg_end) 0.3 then (segments, seg_start, t)
             else (segments ++ [(seg_start, seg_end)], t, t))
          rest ([], t0, t0) in
      segments ++ [(seg_start, seg_end)]
  end.

(** [max(range(n), key=key)]: the first index with the largest key. *)
Definition argmax (key : nat -> Q) (n : nat) : nat :=
  fold_left (fun best i => if Py.ltb (key best) (key i) then i else best)
            (seq 1 (n - 1)) 0%nat.

(** [min(range(n), key=key)]: the first index with the smallest key. *)
Definition argmin (key : nat -> Q) (n : nat) : nat :=
  fold_left (fun best i => if Py.ltb (key i) (key best) then i else best)
            (seq 1 (n - 1)) 0%nat.

Definition seg_at (segments : list (Q * Q)) (i : nat) : Q * Q :=
  nth i segments (0, 0).

(** The body of [while len(segments) < num_lines]. *)
Definition bisect_longest (segments : list (Q * Q)) : list (Q * Q) :=
  let longest_idx :=
    argmax (fun i => snd (seg_at segments i) - fst (seg_at segments i))
           (length segments) in
  let '(s, e) := seg_at segments longest_idx in
  let mid := (s + e) / 2 in
  take longest_idx segments ++ [(s, mid); (mid, e)]
    ++ drop (longest_idx + 1) segments.

(** The body of [while len(segments) > num_lines and len(segments) > 1]. *)
Definition merge_closest (segments : list (Q * Q)) : list (Q * Q) :=
  let min_gap_idx :=
    argmin (fun i => fst (seg_at segments (i + 1)) - snd (seg_at segments i))
           (length segments - 1) in
  let merged := (fst (seg_at segments min_gap_idx),
                 snd (seg_at segments (min_gap_idx + 1))) in
  take min_gap_idx segments ++ [merged] ++ drop (min_gap_idx + 2) segments.

(** The two [while] loops, run for at most [rounds] iterations. *)
Fixpoint split_loop (rounds num_lines : nat) (segments : list (Q * Q))
  : list (Q * Q) :=
  match rounds with
  | O => segments
  | S rounds' =>
      if (length segments <? num_lines)%nat
      then split_loop rounds' num_lines (bisect_longest segments)
      else segments
  end.

Fixpoint merge_loop (rounds num_lines : nat) (segments : list (Q * Q))
  : list (Q * Q) :=
  match rounds with
  | O => segments
  | S rounds' =>
      if (num_lines <? length segments)%nat && (1 <? length segments)%nat
      then merge_loop rounds' num_lines (merge_closest segments)
      else segments
  end.

(** The body of [for i, (s, e) in enumerate(segments[:num_lines])]. *)
Definition timestamp_of (duration : Q) (segments : list (Q * Q))
    (ise : nat * (Q * Q)) : Q * Q :=
  let '(i, (s, e)) := ise in
  let end_ :=
    if (i + 1 <? length segments)%nat
    then Py.min (fst (seg_at segments (i + 1))) (s + MAX_PHRASE_DURATION + 1.0)
    else Py.min duration (s + MAX_PHRASE_DURATION + 1.0) in
  let end_ := Py.max end_ (s + MIN_PHRASE_DURATION) in
  (Py.round3 s, Py.round3 end_).

(** [None] stands for the [ZeroDivisionError] of [duration / num_lines]. *)
Definition estimate_line_timestamps (duration : Q) (onset_times : list Q)
    (num_lines : nat) : option (list (Q * Q)) :=
  if (length onset_times <? 2)%nat then
    if (num_lines =? 0)%nat then None
    else
      let line_dur := duration / Py.of_int (Z.of_nat num_lines) in
      Some (List.map
              (fun i : nat =>
                 (Py.of_int (Z.of_nat i) * line_dur,
                  (Py.of_int (Z.of_nat i) + 1) * line_dur))
              (Py.range (Z.of_nat num_lines)))
  else
    let segments := raw_segments onset_times in
    let segments := split_loop num_lines num_lines segments in
    let segments := merge_loop (length segments) num_lines segments in
    Some (List.map (timestamp_of duration segments)
                   (Py.enumerate (take num_lines segments))).

(** The body of [for idx in selected_indices] of [grok_select_phrases] for
    a transcribed song: the phrase appended for the line [lyric] of index
    [idx], if any.  [onset_timestamps] stands for
    [estimate_line_timestamps(wav_path, len(lines))]. *)
Definition align_selected_line (ratio : string -> string -> Q)
    (grok_segments : list segment) (duration : Q)
    (onset_timestamps : list (Q * Q)) (idx : nat) (lyric : string)
  : option phrase :=
  let '(start, end_, confidence) :=
    grok_align_line ratio lyric grok_segments duration in
  if Py.geb confidence 0.25 then
    Some {| ph_lyric := lyric; ph_start := start; ph_end := end_;
            ph_line_index := Z.of_nat idx; ph_confidence := confidence |}
  else
    match onset_timestamps !! idx with
    | Some (s, e) =>
        Some {| ph_lyric := lyric; ph_start := s; ph_end := e;
                ph_line_index := Z.of_nat idx; ph_confidence := 0.0 |}
    | None => None
    end.

Section Chopping.
(** [rms clip] stands for [float(np.sqrt(np.mean(clip_audio ** 2)))]. *)
Variable rms : list Q -> Q.
(** The samples [librosa.load] returned, at [SAMPLE_RATE]. *)
Variable y : list Q.

Definition sr : Q := Py.of_int SAMPLE_RATE.
Definition duration : Q := Py.of_int (Py.len y) / sr.

(** The body of
    [for ci, phrase in enumerate(phrases[:MAX_CLIPS_PER_SONG])] on
    [clips_meta]. *)
Definition chop_phrase (artist title : string) (song_idx : Z)
    (clips_meta : list clip) (cp : nat * phrase) : list clip :=
  let '(ci, phrase) := cp in
  let start := ph_start phrase in
  let end_ := ph_end phrase in
  let start_padded := Py.max 0 (start - 0.05) in
  let end_padded := Py.min duration (end_ + 0.05) in
  let phrase_dur := end_padded - start_padded in
  if Py.ltb phrase_dur MIN_PHRASE_DURATION
     || Py.ltb (MAX_PHRASE_DURATION + 0.5) phrase_dur then clips_meta
  else
    let start_sample := Py.int (start_padded * sr) in
    let end_sample := Py.int (end_padded * sr) in
    let clip_audio := Py.slice y (Z.to_nat start_sample) (Z.to_nat end_sample) in
    let rms_val := rms clip_audio in
    if Py.ltb rms_val 0.005 then clips_meta
    else
      clips_meta ++ [ {| clip_artist := artist; clip_title := title;
                         clip_lyric := ph_lyric phrase;
                         clip_start_time := Py.round3 start;
                         clip_end_time := Py.round3 end_;
                         clip_duration := Py.round3 phrase_dur;
                         clip_rms := Py.round4 rms_val;
                         clip_song_index := song_idx;
                         clip_index := ci;
                         clip_alignment_confidence := None |} ].

(** [chop_song_by_phrases] once the file is loaded (a failed load
    returns the empty list before the loop). *)
Definition chop_song_by_phrases (phrases : list phrase)
    (artist title : string) (song_idx : Z) : list clip :=
  fold_left (chop_phrase artist title song_idx)
            (Py.enumerate (take MAX_CLIPS_PER_SONG phrases)) [].

End Chopping.

(** *** File names *)

(** [c.isalnum() or c in "_-"]. *)
Definition name_char (c : ascii) : bool :=
  Py.isalnum c || (Py.code c =? 95)%N || (Py.code c =? 45)%N.

Definition safe_name (index : nat) (artist title : string) : string :=
  let s := String.append (Py.format_03d index)
             (String "_" (String.append (Py.replace_char " " "_" artist)
                (String "_" (Py.replace_char " " "_" title)))) in
  Py.keep_chars name_char s.

(** The name [chop_song_by_phrases] gives the clip of phrase number [ci]:
    [f"{song_idx:03d}_{safe_artist}_{safe_title}_p{ci:03d}.wav"]. *)
Definition clip_name (song_idx : Z) (artist title : string) (ci : nat) : string :=
  let safe_artist := Py.keep_chars name_char artist in
  let safe_title := Py.keep_chars name_char (Py.replace_char " " "_" title) in
  String.append (Py.format_03d_int song_idx)
    (String "_" (String.append safe_artist
       (String "_" (String.append safe_title
          (String.append "_p" (String.append (Py.format_03d ci) ".wav")))))).

(** *** Lyrics *)

(** [[l.strip() for l in lyrics_text.split("\n") if l.strip()]] of
    [fetch_lyrics]. *)
Definition lyric_lines (lyrics_text : string) : list string :=
  List.map Py.strip
    (List.filter (fun l => negb (Py.is_empty (Py.strip l)))
                 (Py.split_on (ascii_of_N 10) lyrics_text)).

(** The body of [for i, line in enumerate(lines)] of [_lines_to_phrases].
    A phrase without a ["confidence"] key has confidence 0, the default
    its reader [rechop_song] uses. *)
Definition line_to_phrase (timestamps : list (Q * Q)) (phrases : list phrase)
    (il : nat * string) : list phrase :=
  let '(i, line) := il in
  if (Py.len (Py.split line) <? 3)%Z then phrases
  else
    match timestamps !! i with
    | Some (start, end_) =>
        phrases ++ [ {| ph_lyric := line; ph_start := start; ph_end := end_;
                        ph_line_index := Z.of_nat i; ph_confidence := 0 |} ]
    | None => phrases
    end.

Definition _lines_to_phrases (lines : list string) (timestamps : list (Q * Q))
  : list phrase :=
  take MAX_CLIPS_PER_SONG
       (fold_left (line_to_phrase timestamps) (Py.enumerate lines) []).

(** The phrases of [_process_song_task] without the Grok API:
    [_lines_to_phrases(lines, estimate_line_timestamps(wav, len(lines)))];
    [None] stands for the exception of [estimate_line_timestamps]. *)
Definition heuristic_phrases (duration : Q) (onset_times : list Q)
    (lines : list string) : option (list phrase) :=
  match estimate_line_timestamps duration onset_times (length lines) with
  | Some timestamps => Some (_lines_to_phrases lines timestamps)
  | None => None
  end.

(** *** The line selection of [grok_select_phrases] *)

(** A value [json.loads] returns. *)
#[warnings="-register-all"]
Inductive json :=
| JNull
| JBool (b : bool)
| JInt (z : Z)
| JFloat (q : Q)
| JStr (s : string)
| JList (l : list json)
| JDict (d : list (string * json)).

(** [isinstance(i, int) and 0 <= i < len(lines)]: the index an element of
    the reply stands for, if it is kept.  A [bool] is an [int]. *)
Definition kept_index (num_lines : nat) (i : json) : option nat :=
  let in_range (z : Z) :=
    if (0 <=? z)%Z && (z <? Z.of_nat num_lines)%Z then Some (Z.to_nat z) else None in
  match i with
  | JInt z => in_range z
  | JBool b => in_range (Z.b2z b)
  | _ => None
  end.

(** [selected_indices] after the [try] block.  [reply] is what
    [json.loads(content)] returned, or [None] when the request, the
    access to the reply or the parse raised before the assignment.  A
    string is iterated by characters and a dictionary by keys, none of
    which is an [int].  A value that cannot be iterated raises in the
    comprehension, the handler keeps it, and the loop over it raises:
    this is the result [None]. *)
Definition selected_indices (num_lines : nat) (reply : option json)
  : option (list nat) :=
  match reply with
  | None => Some (seq 0 num_lines)
  | Some (JList l) => Some (omap (kept_index num_lines) l)
  | Some (JStr _) => Some []
  | Some (JDict _) => Some []
  | Some _ => None
  end.

(** The body of [for idx in selected_indices] when the song has no
    transcription: the phrase of the line, with its onset timestamps. *)
Definition fallback_line (lines : list string) (timestamps : list (Q * Q))
    (idx : nat) : option phrase :=
  match timestamps !! idx with
  | Some (start, end_) =>
      Some {| ph_lyric := nth idx lines EmptyString; ph_start := start;
              ph_end := end_; ph_line_index := Z.of_nat idx;
              ph_confidence := 0 |}
  | None => None
  end.

(** Steps 1 and 3 of [grok_select_phrases] with an API key.
    [grok_segments] is the transcription, empty when it failed;
    [info_duration] is [sf.info(wav_path).duration], while [duration] and
    [onset_times] are what [estimate_line_timestamps] reads from the same
    file; [None] stands for an exception. *)
Definition grok_select_phrases (ratio : string -> string -> Q)
    (reply : option json) (grok_segments : list segment)
    (info_duration : Q) (duration : Q) (onset_times : list Q)
    (lines : list string) : option (list phrase) :=
  match lines with
  | [] => Some []
  | _ =>
      match selected_indices (length lines) reply,
            estimate_line_timestamps duration onset_times (length lines) with
      | Some selected, Some timestamps =>
          Some (match grok_segments with
                | [] => omap (fallback_line lines timestamps) selected
                | _ =>
                    omap (fun idx =>
                            align_selected_line ratio grok_segments
                              info_duration timestamps idx
                              (nth idx lines EmptyString))
                         selected
                end)
      | _, _ => None
      end
  end.

(** *** The windows of [grok_transcribe_song] *)

Definition SEG_DURATION : Q := 10.0.
Definition SEG_STEP : Q := 5.0.

(** The loop [while t < dur], run for at most [rounds] iterations: the
    [(start, end)] of the windows, and the samples [y[int(t * sr):int(e *
    sr)]] sent for each. *)
Fixpoint windows_from (rounds : nat) (y : list Q) (t : Q)
  : list (Q * Q * list Q) :=
  match rounds with
  | O => []
  | S rounds' =>
      let dur := Py.of_int (Py.len y) / Py.of_int SAMPLE_RATE in
      if Py.ltb t dur then
        let e := Py.min (t + SEG_DURATION) dur in
        let seg_audio :=
          Py.slice y (Z.to_nat (Py.int (t * Py.of_int SAMPLE_RATE)))
                     (Z.to_nat (Py.int (e * Py.of_int SAMPLE_RATE))) in
        (Py.round3 t, Py.round3 e, seg_audio)
          :: windows_from rounds' y (t + SEG_STEP)
      else []
  end.

(** One window every 5 s of audio is enough rounds. *)
Definition windows (y : list Q) : list (Q * Q * list Q) :=
  windows_from (length y) y 0.0.

(** *** Explicit lyrics *)

Definition EXPLICIT_WORDS : gset string :=
  list_to_set
    [ "nigga"; "niggas"; "nigger"; "niggers"; "niggaz";
      "fuck"; "fuckin"; "fuckin'"; "fucking"; "fucked"; "fucker";
      "motherfucker"; "motherfuckin"; "motherfuckin'"; "motherfucking";
      "muthafucka";
      "shit"; "shitty"; "bullshit";
      "bitch"; "bitches"; "bitchin";
      "ass"; "asses"; "asshole";
      "dick"; "dicks";
      "pussy"; "pussies";
      "hoe"; "hoes"; "ho";
      "whore"; "whores";
      "cocaine"; "crack"; "molly"; "ecstasy"; "heroin";
      "kill"; "murder"; "murdered"; "shooting"; "shoot" ]%string.

(** The class [a-zA-Z\s'] whose complement [is_explicit] deletes. *)
Definition explicit_keeps (c : ascii) : bool :=
  Py.between 97 122 c || Py.between 65 90 c || Py.isspace c
  || (Py.code c =? 39)%N.

(** The words [is_explicit] looks up. *)
Definition explicit_words_of (lyric : string) : list string :=
  Py.split (Py.re_sub_not explicit_keeps (Py.lower lyric)).

(** [bool(words & EXPLICIT_WORDS)]. *)
Definition is_explicit (lyric : string) : bool :=
  let words : gset string := list_to_set (explicit_words_of lyric) in
  negb (size (words ∩ EXPLICIT_WORDS) =? 0)%nat.

(** [generate_outputs]: the lines of [rap-clips.txt],
    [rap-clips-clean.txt], [clip_lyrics_clean.txt] and [clip_lyrics.txt],
    for clips given with their ["clip_file"] entry. *)
Definition list_line (fc : string * clip) : string :=
  String.append "rap_clips/" (fst fc).

Definition lyric_line (fc : string * clip) : string :=
  String.append (clip_artist (snd fc))
                (String.append ": " (clip_lyric (snd fc))).

Definition clean_clips (all_clips : list (string * clip)) : list (string * clip) :=
  List.filter (fun fc => negb (is_explicit (clip_lyric (snd fc)))) all_clips.

Definition explicit_clips (all_clips : list (string * clip)) : list (string * clip) :=
  List.filter (fun fc => is_explicit (clip_lyric (snd fc))) all_clips.

Definition generate_outputs (all_clips : list (string * clip))
  : list string * list string * list string * list string :=
  (List.map list_line all_clips, List.map list_line (clean_clips all_clips),
   List.map lyric_line (clean_clips all_clips), List.map lyric_line all_clips).

(** The stem of the phrase cache of [_process_song_task]:
    [f"{safe_name(idx, artist, title)}_phrases.json"] without its
    suffix. *)
Definition phrase_cache_stem (idx : nat) (artist title : string) : string :=
  String.append (safe_name idx artist title) "_phrases".

End BuildRapDb.

(** ** Predicates the statements are written with *)

(** A window the scan scores: it has vocals and at least one word. *)
Definition scored (seg : segment) : Prop :=
  RealignLyrics.no_vocals (seg_text seg) = false
  /\ RealignLyrics._words (seg_text seg) <> [].

(** The score the scan gives a window. *)
Definition score_of (ratio : string -> string -> Q) (lyric : string)
    (lw : list string) (seg : segment) : Q :=
  RealignLyrics.score ratio lyric lw (seg_text seg)
                      (RealignLyrics._words (seg_text seg)).

(** What holds of the loop state [(best_seg, best_score)] of the scan. *)
Definition scan_inv (ratio : string -> string -> Q) (lyric : string)
    (lw : list string) (segments : list segment)
    (st : option segment * Q) : Prop :=
  match fst st with
  | None => snd st = 0.0
  | Some seg =>
      In seg segments /\ scored seg /\ snd st = score_of ratio lyric lw seg
      /\ 0 < snd st
  end.

(** What holds before the round for index [i] of [find_longest_match] on
    the region that starts at [alo]: no match recorded is longer than the
    part of [a] read so far, and the best match lies in it. *)
Definition rows_inv (alo i : nat) (st : gmap nat nat * (nat * nat * nat)) : Prop :=
  (forall j k, st.1 !! j = Some k -> (k <= i - alo)%nat)
  /\ (alo <= st.2.1.1)%nat /\ (st.2.1.1 + st.2.2 <= i)%nat.

(** The work left in a queue of [get_matching_blocks]: twice the
    elements of [a] still to match, and one for each region. *)
Definition queue_weight (queue : list (nat * nat * nat * nat)) : nat :=
  list_sum (List.map (fun r => (2 * (r.1.1.2 - r.1.1.1) + 1)%nat) queue).

(** A region [(alo, ahi, blo, bhi)] of the queue has [alo <= ahi]. *)
Definition region_ok (r : nat * nat * nat * nat) : Prop :=
  (r.1.1.1 <= r.1.1.2)%nat.

(** ** The matcher as a transition system

    A configuration is the list of windows still to scan and the loop
    state [(best_seg, best_score)]; each rule is one way through the body
    of [for seg in segments] of [match_lyric_to_segments]. *)
Inductive scan_step (ratio : string -> string -> Q) (lyric : string)
    (lw : list string)
  : list segment * (option segment * Q) -> list segment * (option segment * Q)
    -> Prop :=
| step_no_vocals seg rest st :
    RealignLyrics.no_vocals (seg_text seg) = true ->
    scan_step ratio lyric lw (seg :: rest, st) (rest, st)
| step_no_words seg rest st :
    RealignLyrics.no_vocals (seg_text seg) = false ->
    RealignLyrics._words (seg_text seg) = [] ->
    scan_step ratio lyric lw (seg :: rest, st) (rest, st)
| step_not_better seg rest st :
    scored seg ->
    score_of ratio lyric lw seg <= snd st ->
    scan_step ratio lyric lw (seg :: rest, st) (rest, st)
| step_better seg rest st :
    scored seg ->
    snd st < score_of ratio lyric lw seg ->
    scan_step ratio lyric lw (seg :: rest, st)
              (rest, (Some seg, score_of ratio lyric lw seg)).

(** A run of the matcher and the [(best_seg, confidence)] it returns. *)
Inductive matcher_run (ratio : string -> string -> Q) (lyric : string)
    (segments : list segment) : option segment * Q -> Prop :=
| run_no_words :
    RealignLyrics._words lyric = [] ->
    matcher_run ratio lyric segments (None, 0.0)
| run_scan result :
    RealignLyrics._words lyric <> [] ->
    rtc (scan_step ratio lyric (RealignLyrics._words lyric))
        (segments, (None, 0.0)) ([], result) ->
    matcher_run ratio lyric segments result.

(** The Clip Chopper by the words of its specification: the slice of a
    phrase is padded by 0.05 s on each side and clamped to
    [[0, duration]]; a clip is emitted when the slice lasts between
    [MIN_PHRASE_DURATION] and [MAX_PHRASE_DURATION + tolerance] and its
    root-mean-square energy is at least 0.005. *)
Module ClipSpec.

Definition padded (y : list Q) (ph : phrase) : Q * Q :=
  let duration := inject_Z (Z.of_nat (length y)) / 44100 in
  (Qmax 0 (ph_start ph - 0.05), Qmin duration (ph_end ph + 0.05)).

Definition samples (y : list Q) (s e : Q) : list Q :=
  Py.slice y (Z.to_nat (Py.int (s * 44100))) (Z.to_nat (Py.int (e * 44100))).

Definition clip_emitted (rms : list Q -> Q) (y : list Q) (tolerance : Q)
    (ph : phrase) : bool :=
  let '(s, e) := padded y ph in
  Qle_bool 0.6 (e - s) && Qle_bool (e - s) (4.0 + tolerance)
  && Qle_bool 0.005 (rms (samples y s e)).

(** The phrases a song's clips come from: those of the first
    [MAX_CLIPS_PER_SONG] that emit a clip, with their indices. *)
Definition emitted (rms : list Q -> Q) (y : list Q) (tolerance : Q)
    (phrases : list phrase) : list (nat * phrase) :=
  List.filter (fun cp => clip_emitted rms y tolerance (snd cp))
              (Py.enumerate (take 50 phrases)).

(** The metadata of the clip of phrase number [ci]: the rounded bounds of
    the phrase, the rounded duration of its slice and the rounded energy
    measured on it. *)
Definition metadata (rms : list Q -> Q) (y : list Q) (artist title : string)
    (song_idx : Z) (confidence : phrase -> option Q) (cp : nat * phrase)
  : clip :=
  let '(s, e) := padded y (snd cp) in
  {| clip_artist := artist; clip_title := title;
     clip_lyric := ph_lyric (snd cp);
     clip_start_time := Py.round3 (ph_start (snd cp));
     clip_end_time := Py.round3 (ph_end (snd cp));
     clip_duration := Py.round3 (e - s);
     clip_rms := Py.round4 (rms (samples y s e));
     clip_song_index := song_idx;
     clip_index := fst cp;
     clip_alignment_confidence := confidence (snd cp) |}.

End ClipSpec.

(** An index whose [f"{n:03d}"] is three decimal digits that [int] reads
    back as the index. *)
Definition three_digits (n : nat) : bool :=
  match Py.format_03d n with
  | String a (String b (String c EmptyString)) =>
      Py.between 48 57 a && Py.between 48 57 b && Py.between 48 57 c
      && match Py.int_of_str (String a (String b (String c EmptyString))) with
         | Some z => (z =? Z.of_nat n)%Z
         | None => false
         end
  | _ => false
  end.

(** The ["clip_file"] entry of a clip's metadata: both choppers build the
    name from the values they store under ["song_index"], ["artist"],
    ["title"] and ["clip_index"]. *)
Definition clip_file (c : clip) : string :=
  BuildRapDb.clip_name (clip_song_index c) (clip_artist c) (clip_title c)
                       (clip_index c).

(** The phrase [_lines_to_phrases] makes of line [i], if any. *)
Definition phrase_of_line (timestamps : list (Q * Q)) (il : nat * string)
  : option phrase :=
  if (Py.len (Py.split (snd il)) <? 3)%Z then None
  else
    match timestamps !! fst il with
    | Some (start, end_) =>
        Some {| ph_lyric := snd il; ph_start := start; ph_end := end_;
                ph_line_index := Z.of_nat (fst il); ph_confidence := 0 |}
    | None => None
    end.

(** Window number [i] of a song with samples [y]: it starts [5 i] seconds
    into the song, ends ten seconds later or with the song, and holds the
    samples of that span. *)
Definition window_ok (song_name : string) (y : list Q) (i : nat)
    (w : RealignLyrics.window) : Prop :=
  let t := inject_Z (5 * Z.of_nat i) in
  let dur := inject_Z (Z.of_nat (length y)) / 44100 in
  RealignLyrics.w_idx w = i
  /\ RealignLyrics.w_seg_id w
     = String.append song_name (String.append "_s" (Py.format_03d i))
  /\ RealignLyrics.w_start w == t
  /\ RealignLyrics.w_end w == Py.round3 (Qmin (t + 10) dur)
  /\ RealignLyrics.w_audio w
     = take (Z.to_nat 441000) (drop (Z.to_nat 220500 * i) y).

(** The entry [transcribe_song] stores for a window and its text. *)
Definition segment_of_window (w : RealignLyrics.window) (text : string)
  : segment :=
  {| seg_start := RealignLyrics.w_start w; seg_end := RealignLyrics.w_end w;
     seg_text := text |}.

(** [result if isinstance(result, str) else ""]. *)
Definition text_of (result : option string) : string :=
  match result with Some r => r | None => EmptyString end.

(** What holds of [find_longest_match] on the side of [b], between two
    rounds, for the region [blo <= j < bhi]: a match recorded at [j] ends
    there and starts in the region, and so does the best match. *)
Definition rows_inv_b (blo bhi : nat) (st : gmap nat nat * (nat * nat * nat)) : Prop :=
  (forall j k, st.1 !! j = Some k -> (blo + k <= j + 1)%nat /\ (j < bhi)%nat)
  /\ (blo <= st.2.1.2)%nat /\ (st.2.1.2 + st.2.2 <= bhi)%nat.

(** A region [(alo, ahi, blo, bhi)] of the queue has [alo <= ahi] and
    [blo <= bhi]. *)
Definition region_ok_ab (r : nat * nat * nat * nat) : Prop :=
  (r.1.1.1 <= r.1.1.2)%nat /\ (r.1.2 <= r.2)%nat.

(** The elements of [a], and of [b], in the regions of a queue. *)
Definition span_a (queue : list (nat * nat * nat * nat)) : nat :=
  list_sum (List.map (fun r => (r.1.1.2 - r.1.1.1)%nat) queue).

Definition span_b (queue : list (nat * nat * nat * nat)) : nat :=
  list_sum (List.map (fun r => (r.2 - r.1.2)%nat) queue).

(** [sum(triple[-1] for triple in blocks)]. *)
Definition matched_total (blocks : list (nat * nat * nat)) : nat :=
  fold_left (fun n x => (n + snd x)%nat) blocks 0%nat.

(** A character of a word of [_words]: a lower-case letter, a digit or
    the apostrophe. *)
Definition word_char (c : ascii) : bool :=
  Py.between 97 122 c || Py.between 48 57 c || (Py.code c =? 39)%N.

(** Segments in time order from [lo] on: each one starts after the end
    of the one before and ends after its own start. *)
Fixpoint ordered_from (lo : Q) (segments : list (Q * Q)) : Prop :=
  match segments with
  | [] => True
  | (s, e) :: rest => lo <= s /\ s <= e /\ ordered_from e rest
  end.

(** The end of the last segment, [lo] when there is none. *)
Fixpoint last_end (lo : Q) (segments : list (Q * Q)) : Q :=
  match segments with
  | [] => lo
  | (s, e) :: rest => last_end e rest
  end.

(** Timestamps in time order: a phrase starts no earlier than the one
    before, which ends by then or at its own minimum duration. *)
Fixpoint in_order (timestamps : list (Q * Q)) : Prop :=
  match timestamps with
  | (a, b) :: rest =>
      match rest with
      | (a', _) :: _ =>
          a <= a' /\ b <= Qmax a' (a + BuildRapDb.MIN_PHRASE_DURATION)
      | [] => True
      end
      /\ in_order rest
  | [] => True
  end.

(** * Properties *)

(** ** Comparisons, [max] and [min] *)

Lemma ltb_true (a b : Q) : Py.ltb a b = true <-> a < b.
Proof.
  unfold Py.ltb. rewrite Qlt_alt.
  destruct (a ?= b); split; intros H; congruence.
Qed.

Lemma ltb_false (a b : Q) : Py.ltb a b = false <-> b <= a.
Proof.
  unfold Py.ltb.
  destruct (Qcompare_spec a b) as [E|L|G]; split; intros H;
    try discriminate; try reflexivity.
  - rewrite E. apply Qle_refl.
  - exfalso. apply (Qlt_irrefl a). apply Qlt_le_trans with b; assumption.
  - apply Qlt_le_weak. assumption.
Qed.

Lemma geb_true (a b : Q) : Py.geb a b = true <-> b <= a.
Proof. unfold Py.geb. apply Qle_bool_iff. Qed.

(** [max] and [min] return one of their arguments, not merely a number
    equal to it. *)
Lemma max_cases (a b : Q) :
  (a < b /\ Py.max a b = b) \/ (b <= a /\ Py.max a b = a).
Proof.
  unfold Py.max, Qmax, GenericMinMax.gmax.
  destruct (Qcompare_spec a b) as [H|H|H]; [right|left|right];
    split; try reflexivity; try assumption.
  - rewrite H. apply Qle_refl.
  - apply Qlt_le_weak. assumption.
Qed.

Lemma min_cases (a b : Q) :
  (b < a /\ Py.min a b = b) \/ (a <= b /\ Py.min a b = a).
Proof.
  unfold Py.min, Qmin, GenericMinMax.gmin.
  destruct (Qcompare_spec a b) as [H|H|H]; [right|right|left];
    split; try reflexivity; try assumption.
  - rewrite H. apply Qle_refl.
  - apply Qlt_le_weak. assumption.
Qed.

(** Case analysis on every [max] and [min] of the goal and of the
    hypotheses. *)
Ltac minmax_at a b cases :=
  let H := fresh "H" in
  destruct (cases a b) as [[? H]|[? H]]; rewrite !H in *; clear H.

Ltac minmax :=
  repeat match goal with
    | |- context [Py.max ?a ?b] => minmax_at a b max_cases
    | |- context [Py.min ?a ?b] => minmax_at a b min_cases
    | _ : context [Py.max ?a ?b] |- _ => minmax_at a b max_cases
    | _ : context [Py.min ?a ?b] |- _ => minmax_at a b min_cases
    end.

(** ** Rounding *)

Lemma floor_unique (x : Q) (n : Z) :
  inject_Z n <= x -> x < inject_Z (n + 1) -> Qfloor x = n.
Proof.
  intros Hlo Hhi.
  pose proof (Qfloor_le x) as Fl. pose proof (Qlt_floor x) as Fh.
  assert (n < Qfloor x + 1)%Z.
  { rewrite Zlt_Qlt. apply Qle_lt_trans with x; assumption. }
  assert (Qfloor x < n + 1)%Z.
  { rewrite Zlt_Qlt. apply Qle_lt_trans with x; assumption. }
  lia.
Qed.

Lemma floor_shift (x : Q) (n : Z) : Qfloor (x + inject_Z n) = (Qfloor x + n)%Z.
Proof.
  pose proof (Qfloor_le x) as Fl. pose proof (Qlt_floor x) as Fh.
  apply floor_unique.
  - rewrite inject_Z_plus. lra.
  - rewrite inject_Z_plus in *. rewrite inject_Z_plus. lra.
Qed.

Lemma round_half_even_comp (x y : Q) :
  x == y -> Py.round_half_even x = Py.round_half_even y.
Proof.
  intros E. unfold Py.round_half_even.
  rewrite (Qfloor_comp _ _ E).
  assert (E' : x - inject_Z (Qfloor y) == y - inject_Z (Qfloor y)) by (rewrite E; reflexivity).
  rewrite (Qcompare_comp _ _ E' _ _ (Qeq_refl (1#2))). reflexivity.
Qed.

Lemma round_half_even_mono (x y : Q) :
  x <= y -> (Py.round_half_even x <= Py.round_half_even y)%Z.
Proof.
  intros L. unfold Py.round_half_even.
  pose proof (Qfloor_resp_le _ _ L) as FL.
  pose proof (Qfloor_le x) as Xl. pose proof (Qlt_floor x) as Xh.
  pose proof (Qfloor_le y) as Yl. pose proof (Qlt_floor y) as Yh.
  destruct (Z.eq_dec (Qfloor x) (Qfloor y)) as [E|NE].
  - rewrite E in *.
    destruct (Qcompare_spec (x - inject_Z (Qfloor y)) (1#2));
      destruct (Qcompare_spec (y - inject_Z (Qfloor y)) (1#2));
      try destruct (Z.even (Qfloor y)); try lia; exfalso; lra.
  - assert (Qfloor x + 1 <= Qfloor y)%Z by lia.
    destruct (Qcompare_spec (x - inject_Z (Qfloor x)) (1#2));
      destruct (Qcompare_spec (y - inject_Z (Qfloor y)) (1#2));
      try destruct (Z.even (Qfloor x)); try destruct (Z.even (Qfloor y)); lia.
Qed.

Lemma round_half_even_shift (x : Q) (k : Z) :
  Py.round_half_even (x + inject_Z (2 * k)) = (Py.round_half_even x + 2 * k)%Z.
Proof.
  unfold Py.round_half_even. rewrite floor_shift.
  assert (E : x + inject_Z (2 * k) - inject_Z (Qfloor x + 2 * k)
              == x - inject_Z (Qfloor x)).
  { rewrite inject_Z_plus. ring. }
  rewrite (Qcompare_comp _ _ E _ _ (Qeq_refl (1#2))).
  replace (Z.even (Qfloor x + 2 * k)) with (Z.even (Qfloor x)).
  2:{ rewrite Z.even_add_mul_2. reflexivity. }
  destruct (_ ?= _); try destruct (Z.even _); lia.
Qed.

Lemma round_half_even_Z (n : Z) : Py.round_half_even (inject_Z n) = n.
Proof.
  unfold Py.round_half_even. rewrite Qfloor_Z.
  assert (E : inject_Z n - inject_Z n == 0) by ring.
  rewrite (Qcompare_comp _ _ E _ _ (Qeq_refl (1#2))). reflexivity.
Qed.

Lemma round3_mono (x y : Q) : x <= y -> Py.round3 x <= Py.round3 y.
Proof.
  intros L. unfold Py.round3.
  assert (H : (Py.round_half_even (x * 1000) <= Py.round_half_even (y * 1000))%Z).
  { apply round_half_even_mono. lra. }
  rewrite Zle_Qle in H. unfold Qdiv.
  apply Qmult_le_compat_r; [assumption | discriminate].
Qed.

(** Rounding commutes with a shift by an even number of thousandths. *)
Lemma round3_shift (x c : Q) (k : Z) :
  c * 1000 == inject_Z (2 * k) -> Py.round3 (x + c) == Py.round3 x + c.
Proof.
  intros Hc. unfold Py.round3.
  rewrite (round_half_even_comp ((x + c) * 1000) (x * 1000 + inject_Z (2 * k))).
  2:{ rewrite <- Hc. ring. }
  rewrite round_half_even_shift, inject_Z_plus, <- Hc. field.
Qed.

Lemma round3_Z (n : Z) : Py.round3 (inject_Z n / 1000) == inject_Z n / 1000.
Proof.
  unfold Py.round3.
  rewrite (round_half_even_comp (inject_Z n / 1000 * 1000) (inject_Z n)).
  2:{ field. }
  rewrite round_half_even_Z. reflexivity.
Qed.


Lemma round4_Z (n : Z) : Py.round4 (inject_Z n / 10000) == inject_Z n / 10000.
Proof.
  unfold Py.round4.
  rewrite (round_half_even_comp (inject_Z n / 10000 * 10000) (inject_Z n)).
  2:{ field. }
  rewrite round_half_even_Z. reflexivity.
Qed.

(** ** The model of [difflib] always returns *)

Section Blocks.
Variables a b : list ascii.
Variables alo blo bhi : nat.

Lemma row_inv (i : nat) (st : gmap nat nat * (nat * nat * nat)) :
  (alo <= i)%nat -> rows_inv alo i st ->
  rows_inv alo (S i) (Difflib.row a b blo bhi i st.1 st.2).
Proof.
  intros Hi (Hlen & Hlo & Hhi). unfold Difflib.row.
  destruct (a !! i) as [c|]; [|repeat split; simpl; [intros j k H; inversion H|lia|lia]].
  assert (G : forall (l : list nat) (acc : gmap nat nat * (nat * nat * nat)),
             rows_inv alo (S i) acc ->
             rows_inv alo (S i)
               (fold_left
                  (fun (st0 : gmap nat nat * (nat * nat * nat)) (j : nat) =>
                     let '(newj2len, (besti, bestj, bestsize)) := st0 in
                     if (j <? blo)%nat then st0
                     else if (bhi <=? j)%nat then st0
                     else
                       let k := (match j with
                                 | O => 0
                                 | S j' => default 0 (st.1 !! j')
                                 end + 1)%nat in
                       (<[j := k]> newj2len,
                        if (bestsize <? k)%nat
                        then ((i + 1 - k)%nat, (j + 1 - k)%nat, k)
                        else (besti, bestj, bestsize))) l acc)).
  { induction l as [|j l IH]; intros acc Hacc; [exact Hacc|].
    cbn [fold_left]. apply IH.
    destruct acc as [new [[bi bj] bk]]. destruct Hacc as (A1 & A2 & A3).
    cbn [fst snd] in *.
    destruct (j <? blo)%nat; [repeat split; assumption|].
    destruct (bhi <=? j)%nat; [repeat split; assumption|].
    set (k := (_ + 1)%nat).
    assert (Hk : (k <= S i - alo)%nat).
    { unfold k. destruct j as [|j']; [lia|].
      destruct (st.1 !! j') as [k'|] eqn:E; simpl; [|lia].
      specialize (Hlen _ _ E). lia. }
    split; [|destruct (bk <? k)%nat eqn:B; cbn [fst snd]; lia].
    intros j0 k0. cbn [fst]. rewrite lookup_insert_Some.
    intros [[_ <-]|[_ H]]; [exact Hk|apply (A1 _ _ H)]. }
  apply G. repeat split; cbn [fst snd].
  - intros j k H. inversion H.
  - destruct st as [m [[bi bj] bk]]. exact Hlo.
  - destruct st as [m [[bi bj] bk]]. cbn [fst snd] in *. lia.
Qed.

Lemma rows_inv_fold (n i : nat) (st : gmap nat nat * (nat * nat * nat)) :
  (alo <= i)%nat -> rows_inv alo i st ->
  rows_inv alo (i + n)
    (fold_left (fun st i => Difflib.row a b blo bhi i st.1 st.2) (seq i n) st).
Proof.
  revert i st. induction n as [|n IH]; intros i st Hi Hst; cbn [seq fold_left].
  - rewrite Nat.add_0_r. exact Hst.
  - replace (i + S n)%nat with (S i + n)%nat by lia.
    apply IH; [lia|]. apply row_inv; assumption.
Qed.

Lemma extend_left_inv (besti bestj bestsize : nat) :
  (alo <= besti)%nat ->
  let r := Difflib.extend_left a b alo blo besti bestj bestsize in
  (alo <= r.1.1)%nat /\ (r.1.1 + r.2 = besti + bestsize)%nat.
Proof.
  revert bestj bestsize. induction besti as [|i IH]; intros bestj bestsize Hlo;
    cbn [Difflib.extend_left].
  - simpl. lia.
  - destruct bestj as [|j]; [simpl; lia|].
    destruct (Nat.leb_spec alo i) as [L|L]; cbn [andb]; [|simpl; lia].
    destruct ((blo <=? j)%nat && Difflib.same_at a b i j); [|simpl; lia].
    destruct (IH j (S bestsize) L) as [H1 H2]. cbn zeta. lia.
Qed.

Lemma extend_right_inv (rounds ahi besti bestj bestsize : nat) :
  (besti + bestsize <= ahi)%nat ->
  let r := Difflib.extend_right a b rounds ahi bhi besti bestj bestsize in
  r.1.1 = besti /\ (besti + r.2 <= ahi)%nat.
Proof.
  revert bestsize. induction rounds as [|rounds IH]; intros bestsize Hhi;
    cbn [Difflib.extend_right]; [simpl; lia|].
  destruct (Nat.ltb_spec (besti + bestsize) ahi) as [L|L]; cbn [andb]; [|simpl; lia].
  destruct ((bestj + bestsize <? bhi)%nat && Difflib.same_at a b _ _); [|simpl; lia].
  apply IH. lia.
Qed.

(** The longest match lies inside the region of [a] it was looked for in. *)
Lemma find_longest_match_bounds (ahi : nat) :
  (alo <= ahi)%nat ->
  let r := Difflib.find_longest_match a b alo ahi blo bhi in
  (alo <= r.1.1)%nat /\ (r.1.1 + r.2 <= ahi)%nat.
Proof.
  intros Hr. unfold Difflib.find_longest_match.
  pose proof (rows_inv_fold (ahi - alo) alo (∅, (alo, blo, 0%nat))
                (Nat.le_refl alo)) as R.
  replace (alo + (ahi - alo))%nat with ahi in R by lia.
  destruct R as (_ & R1 & R2).
  { repeat split; cbn [fst snd]; [intros j k H; inversion H|lia|lia]. }
  change (fun (st : gmap nat nat * (nat * nat * nat)) (i : nat) =>
            Difflib.row a b blo bhi i st.1 st.2)
    with (fun (st : gmap nat nat * (nat * nat * nat)) (i : nat) =>
            Difflib.row a b blo bhi i (fst st) (snd st)) in *.
  destruct (fold_left _ (seq alo (ahi - alo)) _) as [m [[bi bj] bk]].
  cbn [fst snd] in *.
  pose proof (extend_left_inv bi bj bk R1) as [L1 L2].
  destruct (Difflib.extend_left a b alo blo bi bj bk) as [[bi' bj'] bk'].
  cbn [fst snd] in *.
  pose proof (extend_right_inv ahi ahi bi' bj' bk' ltac:(lia)) as [E1 E2].
  cbn zeta in *. rewrite E1. lia.
Qed.

End Blocks.

Lemma queue_weight_cons (alo ahi blo bhi : nat) (queue : list (nat * nat * nat * nat)) :
  queue_weight ((alo, ahi, blo, bhi) :: queue)
  = (2 * (ahi - alo) + 1 + queue_weight queue)%nat.
Proof. reflexivity. Qed.

Lemma matching_blocks_total (a b : list ascii) (rounds : nat)
    (queue : list (nat * nat * nat * nat)) (blocks : list (nat * nat * nat)) :
  Forall region_ok queue -> (queue_weight queue <= rounds)%nat ->
  is_Some (Difflib.matching_blocks a b rounds queue blocks).
Proof.
  revert queue blocks. induction rounds as [|rounds IH]; intros queue blocks Hok Hw.
  - destruct queue as [|[[[alo ahi] blo] bhi] queue]; [eexists; reflexivity|].
    rewrite queue_weight_cons in Hw. lia.
  - destruct queue as [|[[[alo ahi] blo] bhi] queue]; [eexists; reflexivity|].
    cbn [Difflib.matching_blocks].
    inversion Hok as [|r q Hr Hq]; subst. unfold region_ok in Hr. cbn [fst snd] in Hr.
    rewrite queue_weight_cons in Hw.
    pose proof (find_longest_match_bounds a b alo blo bhi ahi Hr) as [B1 B2].
    destruct (Difflib.find_longest_match a b alo ahi blo bhi) as [[i j] k].
    cbn [fst snd] in *.
    destruct (Nat.eqb_spec k 0) as [->|Hk]; [apply IH; [exact Hq|lia]|].
    apply IH.
    + destruct ((i + k <? ahi)%nat && (j + k <? bhi)%nat);
        destruct ((alo <? i)%nat && (blo <? j)%nat);
        repeat constructor; try assumption; unfold region_ok; cbn [fst snd]; lia.
    + destruct ((i + k <? ahi)%nat && (j + k <? bhi)%nat);
        destruct ((alo <? i)%nat && (blo <? j)%nat);
        rewrite ?queue_weight_cons; lia.
Qed.

(** [get_matching_blocks] never runs out of rounds, so [ratio] is the
    ratio of the blocks found. *)
Lemma get_matching_blocks_total (a b : list ascii) :
  is_Some (Difflib.get_matching_blocks a b).
Proof.
  unfold Difflib.get_matching_blocks. apply matching_blocks_total.
  - repeat constructor. unfold region_ok. simpl. lia.
  - unfold queue_weight. simpl. lia.
Qed.

Lemma ratio_blocks (a b : string) :
  exists blocks,
    Difflib.get_matching_blocks (list_ascii_of_string a) (list_ascii_of_string b)
    = Some blocks
    /\ Difflib.ratio a b
       = Difflib.ratio_of_blocks (list_ascii_of_string a) (list_ascii_of_string b) blocks.
Proof.
  destruct (get_matching_blocks_total (list_ascii_of_string a) (list_ascii_of_string b))
    as [blocks E].
  exists blocks. split; [exact E|]. unfold Difflib.ratio. rewrite E. reflexivity.
Qed.

(** The values the documentation of [difflib] gives. *)
Example ratio_tide_diet : Difflib.ratio "tide" "diet" == 0.25.
Proof. reflexivity. Qed.

Example ratio_diet_tide : Difflib.ratio "diet" "tide" == 0.5.
Proof. reflexivity. Qed.

Example ratio_abcd_bcde : Difflib.ratio "abcd" "bcde" == 0.75.
Proof. reflexivity. Qed.

(** ** The two scripts share their matching code *)

Lemma words_same : BuildRapDb._words = RealignLyrics._words.
Proof. reflexivity. Qed.

Lemma scan_same : BuildRapDb.scan = RealignLyrics.scan.
Proof. reflexivity. Qed.

(** ** The scan over the windows *)

Section Scan.
Variable ratio : string -> string -> Q.
Variables (lyric : string) (lw : list string).

Lemma scan_cases (st : option segment * Q) (seg : segment) :
  RealignLyrics.scan ratio lyric lw st seg = st
  \/ (scored seg /\ snd st < score_of ratio lyric lw seg
      /\ RealignLyrics.scan ratio lyric lw st seg = (Some seg, score_of ratio lyric lw seg)).
Proof.
  unfold RealignLyrics.scan, scored, score_of.
  destruct (RealignLyrics.no_vocals (seg_text seg)) eqn:Hv; [left; reflexivity|].
  destruct (RealignLyrics._words (seg_text seg)) as [|w tw] eqn:Htw;
    [left; reflexivity|].
  destruct (Py.ltb (snd st) _) eqn:Hlt; [right|left; reflexivity].
  apply ltb_true in Hlt. repeat split; try assumption. discriminate.
Qed.

Lemma scan_inv_step (all : list segment) (st : option segment * Q) (seg : segment) :
  In seg all -> 0 <= snd st -> scan_inv ratio lyric lw all st ->
  scan_inv ratio lyric lw all (RealignLyrics.scan ratio lyric lw st seg)
  /\ 0 <= snd (RealignLyrics.scan ratio lyric lw st seg).
Proof.
  intros Hin Hnn Hinv.
  destruct (scan_cases st seg) as [E|(Hs & Hlt & E)]; rewrite E.
  - split; assumption.
  - split; [|simpl; lra].
    unfold scan_inv; simpl. repeat split; try apply Hs; try assumption. lra.
Qed.

Lemma scan_inv_fold (all segments : list segment) (st : option segment * Q) :
  (forall seg, In seg segments -> In seg all) -> 0 <= snd st -> scan_inv ratio lyric lw all st ->
  scan_inv ratio lyric lw all (fold_left (RealignLyrics.scan ratio lyric lw) segments st).
Proof.
  revert st. induction segments as [|seg segments IH]; intros st Hsub Hnn Hinv.
  - exact Hinv.
  - simpl.
    destruct (scan_inv_step all st seg) as [Hinv' Hnn'];
      [apply Hsub; left; reflexivity | assumption | assumption |].
    apply IH; [|assumption|assumption].
    intros s Hs. apply Hsub. right. exact Hs.
Qed.

End Scan.

(** The window [match_lyric_to_segments] returns was scored, its score is
    the returned confidence, and that confidence is positive; without a
    window the confidence is [0.0]. *)
Lemma match_inv ratio lyric segments :
  scan_inv ratio lyric (RealignLyrics._words lyric) segments
           (RealignLyrics.match_lyric_to_segments ratio lyric segments).
Proof.
  unfold RealignLyrics.match_lyric_to_segments.
  destruct (RealignLyrics._words lyric) as [|w lw] eqn:Hlw.
  - reflexivity.
  - apply scan_inv_fold; [auto | simpl; lra | reflexivity].
Qed.

Lemma match_some ratio lyric segments seg c :
  RealignLyrics.match_lyric_to_segments ratio lyric segments = (Some seg, c) ->
  RealignLyrics._words lyric <> [] /\ In seg segments /\ scored seg
  /\ c = score_of ratio lyric (RealignLyrics._words lyric) seg /\ 0 < c.
Proof.
  intros H. pose proof (match_inv ratio lyric segments) as I.
  rewrite H in I. split; [|exact I].
  intros E. unfold RealignLyrics.match_lyric_to_segments in H.
  rewrite E in H. discriminate.
Qed.

(** [grok_align_line] is [match_lyric_to_segments] followed, from a best
    score of 0.15 on, by [refine_timestamp]. *)
Lemma grok_align_line_eq ratio lyric segments duration :
  BuildRapDb.grok_align_line ratio lyric segments duration =
  match RealignLyrics.match_lyric_to_segments ratio lyric segments with
  | (Some seg, best_score) =>
      if Py.ltb best_score 0.15 then (0.0, BuildRapDb.MIN_PHRASE_DURATION, 0.0)
      else
        let '(s, e) := RealignLyrics.refine_timestamp ratio lyric seg duration in
        (s, e, Py.round3 best_score)
  | (None, _) => (0.0, BuildRapDb.MIN_PHRASE_DURATION, 0.0)
  end.
Proof.
  destruct (RealignLyrics.match_lyric_to_segments ratio lyric segments)
    as [[seg|] sc] eqn:Hm.
  - destruct (match_some _ _ _ _ _ Hm) as (Hlw & _ & [_ Htw] & _).
    revert Hm.
    unfold BuildRapDb.grok_align_line, RealignLyrics.match_lyric_to_segments.
    rewrite words_same, scan_same.
    destruct (RealignLyrics._words lyric) as [|w lw] eqn:El; [congruence|].
    intros ->. destruct (Py.ltb sc 0.15); [reflexivity|].
    unfold RealignLyrics.refine_timestamp. rewrite El.
    destruct (RealignLyrics._words (seg_text seg)) as [|t tw] eqn:Et; [congruence|].
    reflexivity.
  - revert Hm.
    unfold BuildRapDb.grok_align_line, RealignLyrics.match_lyric_to_segments.
    rewrite words_same, scan_same.
    destruct (RealignLyrics._words lyric) as [|w lw] eqn:El; [reflexivity|].
    intros ->. reflexivity.
Qed.

(** ** The sentinel test *)

Lemma contains_append (needle p hay : string) :
  Py.contains needle hay = true -> Py.contains needle (String.append p hay) = true.
Proof.
  intros H. induction p as [|c p IH]; simpl; [exact H|].
  rewrite IH. apply orb_true_r.
Qed.

Lemma contains_prefix (needle hay : string) :
  String.prefix needle hay = true -> Py.contains needle hay = true.
Proof. intros H. destruct hay; cbn [Py.contains]; rewrite H; reflexivity. Qed.

(** A prefix made of characters that [upper] leaves alone is still a
    prefix after [upper]. *)
Lemma prefix_upper (needle hay : string) :
  forallb (fun c => String.eqb (Py.upper_char c) (String c EmptyString))
          (list_ascii_of_string needle) = true ->
  String.prefix needle hay = true ->
  String.prefix needle (Py.upper hay) = true.
Proof.
  revert hay. induction needle as [|a needle IH]; intros hay Hfix Hpre.
  - destruct (Py.upper hay); reflexivity.
  - destruct hay as [|b hay]; [discriminate|].
    simpl in Hfix. apply andb_true_iff in Hfix as [Ha Hfix].
    apply String.eqb_eq in Ha.
    simpl in Hpre. destruct (ascii_dec a b) as [->|]; [|discriminate].
    simpl. rewrite Ha. simpl.
    destruct (ascii_dec b b); [|congruence].
    apply IH; assumption.
Qed.

Lemma contains_upper (needle hay : string) :
  forallb (fun c => String.eqb (Py.upper_char c) (String c EmptyString))
          (list_ascii_of_string needle) = true ->
  Py.contains needle hay = true -> Py.contains needle (Py.upper hay) = true.
Proof.
  intros Hfix. induction hay as [|c hay IH]; intros H.
  - simpl in *. exact H.
  - cbn [Py.contains] in H. apply orb_true_iff in H as [H|H].
    + apply contains_prefix, prefix_upper; assumption.
    + cbn [Py.upper]. apply contains_append. apply IH. exact H.
Qed.

Lemma sentinel_no_vocals (text : string) :
  Py.contains "[INSTRUMENTAL]" text = true
  \/ Py.contains "[INSTRUMENTAL]" (Py.upper text) = true ->
  RealignLyrics.no_vocals text = true.
Proof.
  intros H. unfold RealignLyrics.no_vocals. apply orb_true_iff. right.
  destruct H as [H|H]; [|exact H].
  apply contains_upper; [reflexivity | exact H].
Qed.

(** C5: a window whose text contains the sentinel [[INSTRUMENTAL]], in
    this or in any other letter case, is never the window the matcher
    selects: neither the [best_seg] that [match_lyric_to_segments] returns
    nor the [best_seg] of the scan of [grok_align_line], whatever the
    lyric, the other windows and the similarity scores are. *)
Theorem C5_instrumental_never_selected
    (ratio : string -> string -> Q) (lyric : string)
    (segments : list segment) (seg : segment) :
  Py.contains "[INSTRUMENTAL]" (seg_text seg) = true
  \/ Py.contains "[INSTRUMENTAL]" (Py.upper (seg_text seg)) = true ->
  fst (RealignLyrics.match_lyric_to_segments ratio lyric segments) <> Some seg
  /\ fst (fold_left (BuildRapDb.scan ratio lyric (BuildRapDb._words lyric))
                    segments (None, 0.0)) <> Some seg.
Proof.
  intros Hs. apply sentinel_no_vocals in Hs. split.
  - intros E. pose proof (match_inv ratio lyric segments) as I.
    unfold scan_inv in I. rewrite E in I.
    destruct I as (_ & [Hv _] & _). congruence.
  - intros E.
    assert (I : scan_inv ratio lyric (BuildRapDb._words lyric) segments
                  (fold_left (BuildRapDb.scan ratio lyric (BuildRapDb._words lyric))
                             segments (None, 0.0))).
    { rewrite scan_same. apply scan_inv_fold; [auto | simpl; lra | reflexivity]. }
    unfold scan_inv in I. rewrite E in I.
    destruct I as (_ & [Hv _] & _). congruence.
Qed.

(** The instrumental window repeats the lyric word for word and still
    loses to the vocal window. *)
Lemma C5_witness :
  let marked := {| seg_start := 0; seg_end := 10;
                   seg_text := "[Instrumental] be humble" |} in
  let sung := {| seg_start := 5; seg_end := 15;
                 seg_text := "sit down" |} in
  fst (RealignLyrics.match_lyric_to_segments Difflib.ratio "be humble" [marked; sung])
    <> Some marked
  /\ fst (fold_left (BuildRapDb.scan Difflib.ratio "be humble"
                                     (BuildRapDb._words "be humble"))
                    [marked; sung] (None, 0.0)) <> Some marked.
Proof.
  intros marked sung.
  apply (C5_instrumental_never_selected Difflib.ratio "be humble"
           [marked; sung] marked).
  right. vm_compute. reflexivity.
Defined.

(** ** The timestamp refiner *)

Lemma est_dur_bounds (lw : list string) (wps : Q) :
  RealignLyrics.MIN_PHRASE_DURATION <= RealignLyrics.est_dur lw wps
  /\ RealignLyrics.est_dur lw wps <= RealignLyrics.MAX_PHRASE_DURATION.
Proof.
  unfold RealignLyrics.est_dur, RealignLyrics.MIN_PHRASE_DURATION,
    RealignLyrics.MAX_PHRASE_DURATION.
  minmax; lra.
Qed.

(** The clamp keeps a phrase of admissible length admissible and puts it
    inside the song. *)
Lemma clamp_to_song_bounds (est_start d song_duration : Q) :
  RealignLyrics.MIN_PHRASE_DURATION <= song_duration ->
  RealignLyrics.MIN_PHRASE_DURATION <= d <= RealignLyrics.MAX_PHRASE_DURATION ->
  let '(s, e) := RealignLyrics.clamp_to_song est_start (est_start + d) song_duration in
  0 <= s /\ s + RealignLyrics.MIN_PHRASE_DURATION <= e
  /\ e <= s + RealignLyrics.MAX_PHRASE_DURATION /\ e <= song_duration.
Proof.
  unfold RealignLyrics.clamp_to_song, RealignLyrics.MIN_PHRASE_DURATION,
    RealignLyrics.MAX_PHRASE_DURATION.
  intros Hsd [Hlo Hhi]. minmax; lra.
Qed.

(** Rounding both ends to the millisecond keeps the length bounds, and
    moves the end no further than the rounded song duration. *)
Lemma round3_bounds (s e song_duration : Q) :
  0 <= s -> s + 0.6 <= e -> e <= s + 4.0 -> e <= song_duration ->
  0.6 <= Py.round3 e - Py.round3 s /\ Py.round3 e - Py.round3 s <= 4.0
  /\ 0 <= Py.round3 s /\ Py.round3 s < Py.round3 e
  /\ Py.round3 e <= Py.round3 song_duration.
Proof.
  intros H0 Hlo Hhi Hsd.
  pose proof (round3_mono _ _ H0) as R0.
  pose proof (round3_mono _ _ Hlo) as Rlo.
  pose proof (round3_mono _ _ Hhi) as Rhi.
  pose proof (round3_mono _ _ Hsd) as Rsd.
  rewrite (round3_shift s 0.6 300) in Rlo by reflexivity.
  rewrite (round3_shift s 4.0 2000) in Rhi by reflexivity.
  change (Py.round3 0) with (0 # 1000) in R0.
  repeat split; try lra.
Qed.

Lemma refine_timestamp_bounds ratio lyric seg song_duration :
  RealignLyrics._words lyric <> [] ->
  RealignLyrics._words (seg_text seg) <> [] ->
  RealignLyrics.MIN_PHRASE_DURATION <= song_duration ->
  let '(s, e) := RealignLyrics.refine_timestamp ratio lyric seg song_duration in
  0.6 <= e - s /\ e - s <= 4.0 /\ 0 <= s /\ s < e
  /\ e <= Py.round3 song_duration.
Proof.
  intros Hlw Htw Hsd. unfold RealignLyrics.refine_timestamp.
  destruct (RealignLyrics._words (seg_text seg)) as [|t tw] eqn:Et; [congruence|].
  destruct (RealignLyrics._words lyric) as [|w lw] eqn:El; [congruence|].
  set (wps := RealignLyrics.words_per_sec _ _).
  set (es := seg_start seg + _).
  pose proof (clamp_to_song_bounds es (RealignLyrics.est_dur (w :: lw) wps)
                song_duration Hsd (est_dur_bounds _ _)) as C.
  destruct (RealignLyrics.clamp_to_song _ _ _) as [s e].
  destruct C as (C0 & Clo & Chi & Csd).
  apply round3_bounds; assumption.
Qed.

Lemma round_half_even_near (x : Q) :
  x - (1 # 2) <= inject_Z (Py.round_half_even x)
  /\ inject_Z (Py.round_half_even x) <= x + (1 # 2).
Proof.
  unfold Py.round_half_even.
  pose proof (Qfloor_le x) as Fl. pose proof (Qlt_floor x) as Fh.
  rewrite inject_Z_plus in Fh. change (inject_Z 1) with 1 in Fh.
  destruct (Qcompare_spec (x - inject_Z (Qfloor x)) (1 # 2));
    try destruct (Z.even (Qfloor x)); rewrite ?inject_Z_plus;
    change (inject_Z 1) with 1; split; lra.
Qed.

(** Rounding to the millisecond moves a value by at most half of one. *)
Lemma round3_near (x : Q) :
  x - 0.0005 <= Py.round3 x /\ Py.round3 x <= x + 0.0005.
Proof.
  unfold Py.round3. destruct (round_half_even_near (x * 1000)) as [L U].
  set (r := inject_Z _) in *.
  assert (E : r / 1000 == r * (1 # 1000)) by (unfold Qdiv; reflexivity).
  rewrite E. split; lra.
Qed.




(** ** The matcher and its callers *)


(** The caller accepts exactly a window whose raw score reaches the
    threshold; otherwise the phrase keeps its old timestamps. *)
Lemma realign_phrase_accepts ratio min_confidence segments song_dur ph :
  let m := RealignLyrics.match_lyric_to_segments ratio (ph_lyric ph) segments in
  let r := RealignLyrics.realign_phrase ratio min_confidence segments song_dur ph in
  (snd r = true <-> (exists seg, fst m = Some seg) /\ min_confidence <= snd m)
  /\ (snd r = false ->
      ph_start (fst r) = ph_start ph /\ ph_end (fst r) = ph_end ph)
  /\ ph_confidence (fst r) = Py.round3 (snd m).
Proof.
  intros m r. subst m r. unfold RealignLyrics.realign_phrase.
  destruct (RealignLyrics.match_lyric_to_segments ratio (ph_lyric ph) segments)
    as [[seg|] c]; simpl.
  - destruct (Py.geb c min_confidence) eqn:G.
    + apply geb_true in G.
      destruct (RealignLyrics.refine_timestamp ratio (ph_lyric ph) seg song_dur).
      simpl. repeat split; eauto; discriminate.
    + simpl. repeat split; try discriminate.
      intros [_ L]. apply geb_true in L. congruence.
  - repeat split; try discriminate. intros [[seg E] _]. discriminate.
Qed.




(** ** The clip chopper *)

Lemma int_nonneg (x : Q) : 0 <= x -> Py.int x = Qfloor x.
Proof.
  intros H. unfold Py.int. destruct (Py.ltb x 0) eqn:E; [|reflexivity].
  apply ltb_true in E. lra.
Qed.

(** The energy is only measured on a slice of at least 26459 samples:
    the root-mean-square is never taken of an empty slice. *)
Lemma measured_slice_length (y : list Q) (ph : phrase) :
  let '(s, e) := ClipSpec.padded y ph in
  0.6 <= e - s -> (26459 <= Z.of_nat (length (ClipSpec.samples y s e)))%Z.
Proof.
  unfold ClipSpec.padded, ClipSpec.samples. cbn zeta.
  set (n := Z.of_nat (length y)).
  change Qmax with Py.max. change Qmin with Py.min.
  set (s := Py.max 0 _). set (e := Py.min _ _).
  intros Hd.
  assert (Hs : 0 <= s) by (unfold s; minmax; lra).
  assert (He : e * 44100 <= inject_Z n).
  { assert (H : e <= inject_Z n / 44100) by (unfold e; minmax; lra).
    assert (E : inject_Z n / 44100 == inject_Z n * (1 # 44100)) by (unfold Qdiv; reflexivity).
    rewrite E in H. lra. }
  rewrite !int_nonneg by lra.
  pose proof (Qfloor_le (s * 44100)) as S1.
  pose proof (Qlt_floor (e * 44100)) as E2.
  pose proof (Qfloor_resp_le _ _ He) as E3. rewrite Qfloor_Z in E3.
  assert (S0 : (0 <= Qfloor (s * 44100))%Z).
  { apply (Qfloor_resp_le 0 (s * 44100)). lra. }
  assert (D : (Qfloor (s * 44100) + 26459 <= Qfloor (e * 44100))%Z).
  { assert (L : (Qfloor (s * 44100) + 26459 < Qfloor (e * 44100) + 1)%Z); [|lia].
    rewrite Zlt_Qlt, !inject_Z_plus. rewrite inject_Z_plus in E2.
    change (inject_Z 26459) with 26459. change (inject_Z 1) with 1 in *. lra. }
  unfold Py.slice. rewrite length_take, length_drop. unfold n in E3. lia.
Qed.

Lemma le_bool_ltb (a b : Q) : Qle_bool a b = negb (Py.ltb b a).
Proof.
  destruct (Py.ltb b a) eqn:E; simpl.
  - apply ltb_true in E. destruct (Qle_bool a b) eqn:L; [|reflexivity].
    apply Qle_bool_iff in L. lra.
  - apply ltb_false in E. apply Qle_bool_iff. exact E.
Qed.

(** One round of the loop of [chop_song_by_phrases]. *)
Lemma chop_phrase_eq rms y artist title song_idx clips cp :
  BuildRapDb.chop_phrase rms y artist title song_idx clips cp
  = if ClipSpec.clip_emitted rms y 0.5 (snd cp)
    then clips ++ [ClipSpec.metadata rms y artist title song_idx (fun _ => None) cp]
    else clips.
Proof.
  destruct cp as [ci ph].
  unfold BuildRapDb.chop_phrase, ClipSpec.clip_emitted, ClipSpec.metadata,
    ClipSpec.padded, ClipSpec.samples.
  cbn [snd fst]. rewrite !le_bool_ltb.
  change (BuildRapDb.duration y) with (inject_Z (Z.of_nat (length y)) / 44100).
  change BuildRapDb.sr with 44100.
  change Py.max with Qmax. change Py.min with Qmin.
  change BuildRapDb.MIN_PHRASE_DURATION with 0.6.
  change BuildRapDb.MAX_PHRASE_DURATION with 4.0.
  destruct (Py.ltb _ 0.6); [reflexivity|].
  destruct (Py.ltb (4.0 + 0.5) _); [reflexivity|].
  destruct (Py.ltb _ 0.005); reflexivity.
Qed.

(** One round of the loop of [rechop_song]. *)
Lemma rechop_phrase_eq rms y artist title song_idx clips cp :
  RealignLyrics.rechop_phrase rms y artist title song_idx clips cp
  = if ClipSpec.clip_emitted rms y 1.0 (snd cp)
    then clips ++ [ClipSpec.metadata rms y artist title song_idx
                     (fun ph => Some (ph_confidence ph)) cp]
    else clips.
Proof.
  destruct cp as [ci ph].
  unfold RealignLyrics.rechop_phrase, ClipSpec.clip_emitted, ClipSpec.metadata,
    ClipSpec.padded, ClipSpec.samples.
  cbn [snd fst]. rewrite !le_bool_ltb.
  change (RealignLyrics.dur y) with (inject_Z (Z.of_nat (length y)) / 44100).
  change RealignLyrics.sr with 44100.
  change Py.max with Qmax. change Py.min with Qmin.
  change RealignLyrics.MIN_PHRASE_DURATION with 0.6.
  change RealignLyrics.MAX_PHRASE_DURATION with 4.0.
  destruct (Py.ltb _ 0.6); [reflexivity|].
  destruct (Py.ltb (4.0 + 1.0) _); [reflexivity|].
  destruct (Py.ltb _ 0.005); reflexivity.
Qed.

(** A loop that appends one record for each element that passes a test
    builds the records of the passing elements, in order. *)
Lemma emit_loop {A B : Type} (emit : A -> bool) (mk : A -> B)
    (step : list B -> A -> list B) :
  (forall acc x, step acc x = if emit x then acc ++ [mk x] else acc) ->
  forall (l : list A) (acc : list B),
    fold_left step l acc = acc ++ List.map mk (List.filter emit l).
Proof.
  intros Hstep l. induction l as [|x l IH]; intros acc; cbn [fold_left List.filter].
  - cbn. rewrite app_nil_r. reflexivity.
  - rewrite Hstep, IH. destruct (emit x); [|reflexivity].
    cbn [List.map]. rewrite <- app_assoc. reflexivity.
Qed.



(** ** The acoustic fallback segmenter *)

Lemma enumerate_length {A} (l : list A) : length (Py.enumerate l) = length l.
Proof.
  unfold Py.enumerate. rewrite length_zip_with, length_seq. lia.
Qed.

Lemma raw_segments_length (t0 : Q) (rest : list Q) :
  (1 <= length (BuildRapDb.raw_segments (t0 :: rest)))%nat.
Proof.
  unfold BuildRapDb.raw_segments.
  destruct (fold_left _ rest _) as [[segments s] e].
  rewrite length_app. simpl. lia.
Qed.

Lemma pick_lt (better : nat -> nat -> bool) (n : nat) (l : list nat) (best : nat) :
  (best < n)%nat -> Forall (fun i => (i < n)%nat) l ->
  (fold_left (fun best i => if better best i then i else best) l best < n)%nat.
Proof.
  revert best. induction l as [|i l IH]; intros best Hb Hl; simpl; [exact Hb|].
  inversion Hl; subst. apply IH; [|assumption].
  destruct (better best i); assumption.
Qed.

Lemma seq_lt (n : nat) : Forall (fun i => (i < n)%nat) (seq 1 (n - 1)).
Proof. apply List.Forall_forall. intros i Hi. apply in_seq in Hi. lia. Qed.

Lemma argmax_lt (key : nat -> Q) (n : nat) :
  (0 < n)%nat -> (BuildRapDb.argmax key n < n)%nat.
Proof.
  intros Hn. unfold BuildRapDb.argmax.
  apply (pick_lt (fun best i => Py.ltb (key best) (key i))); [exact Hn|apply seq_lt].
Qed.

Lemma argmin_lt (key : nat -> Q) (n : nat) :
  (0 < n)%nat -> (BuildRapDb.argmin key n < n)%nat.
Proof.
  intros Hn. unfold BuildRapDb.argmin.
  apply (pick_lt (fun best i => Py.ltb (key i) (key best))); [exact Hn|apply seq_lt].
Qed.

Lemma bisect_longest_length (segments : list (Q * Q)) :
  (0 < length segments)%nat ->
  length (BuildRapDb.bisect_longest segments) = S (length segments).
Proof.
  intros Hn. unfold BuildRapDb.bisect_longest.
  set (key := fun i : nat => _).
  pose proof (argmax_lt key (length segments) Hn) as Hi.
  destruct (BuildRapDb.seg_at segments _) as [s e].
  rewrite !length_app, length_take, length_drop. simpl. lia.
Qed.

Lemma merge_closest_length (segments : list (Q * Q)) :
  (1 < length segments)%nat ->
  S (length (BuildRapDb.merge_closest segments)) = length segments.
Proof.
  intros Hn. unfold BuildRapDb.merge_closest.
  set (key := fun i : nat => _).
  assert (Hi : (BuildRapDb.argmin key (length segments - 1) < length segments - 1)%nat)
    by (apply argmin_lt; lia).
  rewrite !length_app, length_take, length_drop. simpl. lia.
Qed.

(** The first loop stops, within [num_lines] rounds, with at least
    [num_lines] segments: exactly [num_lines] when it started below. *)
Lemma split_loop_length (rounds num_lines : nat) (segments : list (Q * Q)) :
  (0 < length segments)%nat -> (num_lines <= length segments + rounds)%nat ->
  length (BuildRapDb.split_loop rounds num_lines segments)
  = Nat.max num_lines (length segments).
Proof.
  revert segments. induction rounds as [|rounds IH]; intros segments Hpos Hr; simpl.
  - lia.
  - destruct (Nat.ltb_spec (length segments) num_lines) as [L|L]; [|lia].
    pose proof (bisect_longest_length segments Hpos) as E.
    rewrite IH; lia.
Qed.

(** The second loop stops, within [len(segments)] rounds, with at most
    [num_lines] segments, or with one. *)
Lemma merge_loop_length (rounds num_lines : nat) (segments : list (Q * Q)) :
  (0 < num_lines)%nat -> (num_lines <= length segments)%nat ->
  (length segments <= num_lines + rounds)%nat ->
  length (BuildRapDb.merge_loop rounds num_lines segments) = num_lines.
Proof.
  revert segments. induction rounds as [|rounds IH]; intros segments Hn Hge Hr; simpl.
  - lia.
  - destruct (Nat.ltb_spec num_lines (length segments)) as [L|L]; simpl; [|lia].
    destruct (Nat.ltb_spec 1 (length segments)) as [L1|L1]; [|lia].
    pose proof (merge_closest_length segments L1) as E.
    apply IH; lia.
Qed.

Lemma final_segments_length (onset_times : list Q) (num_lines : nat) :
  (2 <= length onset_times)%nat -> (1 <= num_lines)%nat ->
  let segments := BuildRapDb.raw_segments onset_times in
  let segments := BuildRapDb.split_loop num_lines num_lines segments in
  length (BuildRapDb.merge_loop (length segments) num_lines segments) = num_lines.
Proof.
  intros Ho Hn. cbn zeta.
  destruct onset_times as [|t0 rest]; [simpl in Ho; lia|].
  pose proof (raw_segments_length t0 rest) as Hraw.
  pose proof (split_loop_length num_lines num_lines _ Hraw ltac:(lia)) as Hs.
  apply merge_loop_length; lia.
Qed.

Lemma floor_after_max (x s : Q) :
  Py.round3 s + 0.6 <= Py.round3 (Py.max x (s + 0.6)).
Proof.
  assert (H : s + 0.6 <= Py.max x (s + 0.6)) by (minmax; lra).
  apply round3_mono in H. rewrite (round3_shift s 0.6 300) in H by reflexivity.
  exact H.
Qed.

Lemma timestamp_of_floor (duration : Q) (segments : list (Q * Q)) (ise : nat * (Q * Q)) :
  fst (BuildRapDb.timestamp_of duration segments ise) + BuildRapDb.MIN_PHRASE_DURATION
  <= snd (BuildRapDb.timestamp_of duration segments ise).
Proof.
  destruct ise as [i [s e]]. unfold BuildRapDb.timestamp_of. cbn [fst snd].
  apply floor_after_max.
Qed.



(** C10: on the path taken with two onsets or more, every returned pair
    satisfies [end >= start + MIN_PHRASE_DURATION]; the floor is applied
    after the clamp to the song duration, so the end can lie after the end
    of the song, as it does for onsets at 9.0 s and 9.8 s of a 10 s song
    with two lines. *)
Theorem C10_floor_after_clamp :
  (forall (duration : Q) (onset_times : list Q) (num_lines : nat)
          (timestamps : list (Q * Q)),
      (2 <= length onset_times)%nat ->
      BuildRapDb.estimate_line_timestamps duration onset_times num_lines
      = Some timestamps ->
      Forall (fun se => fst se + BuildRapDb.MIN_PHRASE_DURATION <= snd se)
             timestamps)
  /\ (forall (duration : Q) (segments : list (Q * Q)) (i : nat) (s e : Q),
         (length segments <= i + 1)%nat ->
         duration < s + BuildRapDb.MIN_PHRASE_DURATION ->
         BuildRapDb.timestamp_of duration segments (i, (s, e))
         = (Py.round3 s, Py.round3 (s + BuildRapDb.MIN_PHRASE_DURATION)))
  /\ (exists (duration : Q) (onset_times : list Q) (num_lines : nat)
             (timestamps : list (Q * Q)),
         (2 <= length onset_times)%nat
         /\ Forall (fun t => 0 <= t /\ t <= duration) onset_times
         /\ BuildRapDb.estimate_line_timestamps duration onset_times num_lines
            = Some timestamps
         /\ Exists (fun se => duration < snd se) timestamps).
Proof.
  split; [|split].
  - intros duration onset_times num_lines timestamps Ho.
    unfold BuildRapDb.estimate_line_timestamps.
    destruct (Nat.ltb_spec (length onset_times) 2) as [Hd|_]; [lia|].
    intros [= <-]. apply List.Forall_forall. intros se Hin.
    apply in_map_iff in Hin as (ise & <- & _). apply timestamp_of_floor.
  - intros duration segments i s e Hlast Hshort.
    unfold BuildRapDb.timestamp_of.
    destruct (Nat.ltb_spec (i + 1) (length segments)) as [L|_]; [lia|].
    change BuildRapDb.MIN_PHRASE_DURATION with 0.6 in *.
    change BuildRapDb.MAX_PHRASE_DURATION with 4.0.
    destruct (max_cases (Py.min duration (s + 4.0 + 1.0)) (s + 0.6)) as [[_ ->]|[H _]];
      [reflexivity|].
    exfalso. revert H. minmax; lra.
  - exists 10, [9.0; 9.8], 2%nat, [(9.000, 9.800); (9.800, 10.400)].
    split; [simpl; lia|]. split.
    + repeat constructor; simpl; lra.
    + split; [vm_compute; reflexivity|].
      apply Exists_cons_tl, Exists_cons_hd. simpl. lra.
Qed.

(** Four onsets, of which the last two are closer than 0.3 s, and three
    lines. *)
Lemma C10_witness :
  Forall (fun se => fst se + BuildRapDb.MIN_PHRASE_DURATION <= snd se)
         [(1.000, 2.500); (2.500, 7.000); (7.000, 10.000)].
Proof.
  apply (proj1 C10_floor_after_clamp 10 [1.0; 2.5; 7.0; 7.2] 3%nat).
  - simpl. lia.
  - vm_compute. reflexivity.
Defined.

(** ** The three strategies *)


Lemma score_same : BuildRapDb.score = RealignLyrics.score.
Proof. reflexivity. Qed.

Lemma consec_same : BuildRapDb.consec = RealignLyrics.consec.
Proof. reflexivity. Qed.

Lemma ratio_of_counts_nonneg (n m : nat) :
  0 <= Py.of_int (Z.of_nat n) / Py.of_int (Z.of_nat m).
Proof.
  unfold Py.of_int, Qdiv. apply Qmult_le_0_compat.
  - change 0 with (inject_Z 0). rewrite <- Zle_Qle. lia.
  - apply Qinv_le_0_compat. change 0 with (inject_Z 0). rewrite <- Zle_Qle. lia.
Qed.

Lemma overlap_nonneg (lw tw : list string) : 0 <= RealignLyrics.overlap lw tw.
Proof.
  unfold RealignLyrics.overlap.
  destruct (size _ =? 0)%nat; [lra|apply ratio_of_counts_nonneg].
Qed.





(** C9: for a lyric of exactly one word the sliding-window strategy does
    not run and counts as 0, so the score of a window is
    [max(overlap * 0.85, seq)]: it is the same number whatever the
    similarity of the words is, in both scripts. *)
Theorem C9_single_word_score
    (ratio : string -> string -> Q) (lyric text : string) :
  length (RealignLyrics._words lyric) = 1%nat ->
  let lw := RealignLyrics._words lyric in
  let tw := RealignLyrics._words text in
  RealignLyrics.consec ratio lw tw = 0.0
  /\ RealignLyrics.score ratio lyric lw text tw
     = Py.max (RealignLyrics.overlap lw tw * 0.85)
              (RealignLyrics.seq_ratio ratio lyric text)
  /\ BuildRapDb.score ratio lyric lw text tw
     = Py.max (BuildRapDb.overlap lw tw * 0.85)
              (ratio (BuildRapDb._clean_text lyric) (BuildRapDb._clean_text text))
  /\ forall ratio' : string -> string -> Q,
      ratio' (RealignLyrics._clean lyric) (RealignLyrics._clean text)
      = ratio (RealignLyrics._clean lyric) (RealignLyrics._clean text) ->
      RealignLyrics.score ratio' lyric lw text tw
      = RealignLyrics.score ratio lyric lw text tw.
Proof.
  intros Hone lw tw. subst lw.
  destruct (RealignLyrics._words lyric) as [|w [|w' lw]]; try discriminate Hone.
  assert (Hc : forall r, RealignLyrics.consec r [w] tw = 0.0) by reflexivity.
  assert (Hs : forall r, RealignLyrics.score r lyric [w] text tw
                         = Py.max (RealignLyrics.overlap [w] tw * 0.85)
                                  (RealignLyrics.seq_ratio r lyric text)).
  { intros r. unfold RealignLyrics.score, Py.max3. rewrite Hc.
    pose proof (overlap_nonneg [w] tw) as Hn.
    change Qmax with Py.max.
    destruct (max_cases (RealignLyrics.overlap [w] tw * 0.85) (0.0 * 0.95))
      as [[Hlt _]|[_ ->]]; [exfalso; lra|reflexivity]. }
  split; [apply Hc|]. split; [apply Hs|]. split; [apply Hs|].
  intros ratio' E. rewrite !Hs. unfold RealignLyrics.seq_ratio. rewrite E.
  reflexivity.
Qed.

(** The one-word lyric "Humble!" against the window of scenario A. *)
Lemma C9_witness :
  let lw := RealignLyrics._words "Humble!" in
  let tw := RealignLyrics._words "sit down be humble" in
  RealignLyrics.consec Difflib.ratio lw tw = 0.0
  /\ RealignLyrics.score Difflib.ratio "Humble!" lw "sit down be humble" tw
     = Py.max (RealignLyrics.overlap lw tw * 0.85)
              (RealignLyrics.seq_ratio Difflib.ratio "Humble!" "sit down be humble")
  /\ BuildRapDb.score Difflib.ratio "Humble!" lw "sit down be humble" tw
     = Py.max (BuildRapDb.overlap lw tw * 0.85)
              (Difflib.ratio (BuildRapDb._clean_text "Humble!")
                             (BuildRapDb._clean_text "sit down be humble"))
  /\ forall ratio' : string -> string -> Q,
      ratio' (RealignLyrics._clean "Humble!") (RealignLyrics._clean "sit down be humble")
      = Difflib.ratio (RealignLyrics._clean "Humble!")
                      (RealignLyrics._clean "sit down be humble") ->
      RealignLyrics.score ratio' "Humble!" lw "sit down be humble" tw
      = RealignLyrics.score Difflib.ratio "Humble!" lw "sit down be humble" tw.
Proof.
  apply (C9_single_word_score Difflib.ratio "Humble!" "sit down be humble").
  vm_compute. reflexivity.
Defined.

(** ** Runs of the matcher *)

Section Runs.
Variable ratio : string -> string -> Q.
Variables (lyric : string) (lw : list string).

Lemma scan_step_deterministic c c1 c2 :
  scan_step ratio lyric lw c c1 -> scan_step ratio lyric lw c c2 -> c1 = c2.
Proof.
  intros H1 H2.
  inversion H1; subst; inversion H2; subst; try reflexivity;
    repeat match goal with H : scored _ |- _ => destruct H end;
    try congruence; exfalso; lra.
Qed.

Lemma scan_step_nil st c : ~ scan_step ratio lyric lw ([], st) c.
Proof. intros H. inversion H. Qed.

(** Each round of the loop is a step of the transition system. *)
Lemma scan_step_scan seg rest st :
  scan_step ratio lyric lw (seg :: rest, st)
            (rest, RealignLyrics.scan ratio lyric lw st seg).
Proof.
  unfold RealignLyrics.scan.
  destruct (RealignLyrics.no_vocals (seg_text seg)) eqn:Hv;
    [apply step_no_vocals; exact Hv|].
  destruct (RealignLyrics._words (seg_text seg)) as [|t tw] eqn:Htw;
    [apply step_no_words; assumption|].
  assert (Hs : scored seg) by (split; [exact Hv|rewrite Htw; discriminate]).
  rewrite <- Htw. fold (score_of ratio lyric lw seg).
  destruct (Py.ltb (snd st) (score_of ratio lyric lw seg)) eqn:L.
  - apply step_better; [exact Hs|]. apply ltb_true. exact L.
  - apply step_not_better; [exact Hs|]. apply ltb_false. exact L.
Qed.

Lemma scan_run_fold segments st :
  rtc (scan_step ratio lyric lw) (segments, st)
      ([], fold_left (RealignLyrics.scan ratio lyric lw) segments st).
Proof.
  revert st. induction segments as [|seg rest IH]; intros st; simpl.
  - apply rtc_refl.
  - eapply rtc_l; [apply scan_step_scan|apply IH].
Qed.

Lemma scan_run_unique c r1 r2 :
  rtc (scan_step ratio lyric lw) c ([], r1) ->
  rtc (scan_step ratio lyric lw) c ([], r2) -> r1 = r2.
Proof.
  intros H1. remember ([], r1) as final eqn:Ef. revert r1 Ef.
  induction H1 as [c|c c' final Hstep Hrest IH]; intros r1 Ef H2; subst.
  - inversion H2 as [|? c' ? Hstep _]; subst; [reflexivity|].
    exfalso. exact (scan_step_nil _ _ Hstep).
  - inversion H2 as [|? c'' ? Hstep' Hrest']; subst.
    + exfalso. exact (scan_step_nil _ _ Hstep).
    + pose proof (scan_step_deterministic _ _ _ Hstep Hstep') as ->.
      apply (IH r1 eq_refl Hrest').
Qed.

End Runs.

(** The function [match_lyric_to_segments] is a run. *)
Lemma matcher_run_function ratio lyric segments :
  matcher_run ratio lyric segments
              (RealignLyrics.match_lyric_to_segments ratio lyric segments).
Proof.
  unfold RealignLyrics.match_lyric_to_segments.
  destruct (RealignLyrics._words lyric) as [|w lw] eqn:E.
  - apply run_no_words. exact E.
  - apply run_scan; [rewrite E; discriminate|].
    rewrite E. apply scan_run_fold.
Qed.

(** C8: the matcher is deterministic.  Two runs on the same lyric and the
    same sequence of windows, with the same similarity measure, return
    the same best window and the same confidence, namely the value of
    [match_lyric_to_segments]; and there is always such a run. *)
Theorem C8_matcher_deterministic
    (ratio : string -> string -> Q) (lyric : string) (segments : list segment)
    (run1 run2 : option segment * Q) :
  matcher_run ratio lyric segments run1 ->
  matcher_run ratio lyric segments run2 ->
  run1 = run2
  /\ run1 = RealignLyrics.match_lyric_to_segments ratio lyric segments.
Proof.
  assert (U : forall r1 r2, matcher_run ratio lyric segments r1 ->
                            matcher_run ratio lyric segments r2 -> r1 = r2).
  { intros r1 r2 H1 H2. inversion H1; subst; inversion H2; subst;
      try reflexivity; try contradiction.
    eapply scan_run_unique; eassumption. }
  intros H1 H2. split; [apply U; assumption|].
  apply U; [exact H1|apply matcher_run_function].
Qed.

(** An instrumental window, a window that holds the lyric among other
    words and a window that is the lyric: the run skips the first, takes
    the second with score 0.95 and then the third with score 1. *)
Lemma C8_witness :
  let lyric := "be humble"%string in
  let w1 := {| seg_start := 0; seg_end := 10; seg_text := "[INSTRUMENTAL]" |} in
  let w2 := {| seg_start := 5; seg_end := 15; seg_text := "sit down be humble" |} in
  let w3 := {| seg_start := 10; seg_end := 20; seg_text := "be humble" |} in
  let run := (Some w3, score_of Difflib.ratio lyric (RealignLyrics._words lyric) w3) in
  run = run
  /\ run = RealignLyrics.match_lyric_to_segments Difflib.ratio lyric [w1; w2; w3].
Proof.
  intros lyric w1 w2 w3 run.
  assert (R : matcher_run Difflib.ratio lyric [w1; w2; w3] run).
  { apply run_scan; [vm_compute; discriminate|].
    eapply rtc_l; [apply step_no_vocals; vm_compute; reflexivity|].
    eapply rtc_l;
      [apply step_better;
       [split; [vm_compute; reflexivity|vm_compute; discriminate]
       |vm_compute; reflexivity]|].
    eapply rtc_l;
      [apply step_better;
       [split; [vm_compute; reflexivity|vm_compute; discriminate]
       |vm_compute; reflexivity]|].
    apply rtc_refl. }
  exact (C8_matcher_deterministic Difflib.ratio lyric [w1; w2; w3] run run R R).
Defined.

(** ** Scenario A *)

(** The best position is [0] or one of the offsets tried. *)
Lemma best_position_in ratio lw tw :
  In (fst (RealignLyrics.best_position ratio lw tw))
     (0%nat :: RealignLyrics.offsets lw tw).
Proof.
  unfold RealignLyrics.best_position.
  assert (G : forall (l all : list nat) (st : nat * Q),
             In (fst st) all -> (forall i, In i l -> In i all) ->
             In (fst (fold_left
                        (fun (st : nat * Q) (i : nat) =>
                           let r := Py.of_int (RealignLyrics.matches_at ratio 0.7 lw tw i)
                                    / Py.of_int (Py.len lw) in
                           if Py.ltb (snd st) r then (i, r) else st) l st)) all).
  { induction l as [|i l IH]; intros all st Hst Hl; simpl; [exact Hst|].
    apply IH; [|intros j Hj; apply Hl; right; exact Hj].
    destruct (Py.ltb _ _); [apply Hl; left; reflexivity|exact Hst]. }
  apply G; [left; reflexivity|intros i Hi; right; exact Hi].
Qed.

Lemma scenario_A_any_ratio (ratio : string -> string -> Q) :
  let lyric := "be humble"%string in
  let window := {| seg_start := 0; seg_end := 10; seg_text := "sit down be humble" |} in
  (exists c, RealignLyrics.match_lyric_to_segments ratio lyric [window] = (Some window, c)
             /\ 0.85 <= c /\ RealignLyrics.MIN_CONFIDENCE <= c)
  /\ (let '(s, e) := RealignLyrics.refine_timestamp ratio lyric window 10 in
      e - s == RealignLyrics.MAX_PHRASE_DURATION).
Proof.
  intros lyric window. split.
  - unfold RealignLyrics.match_lyric_to_segments.
    change (RealignLyrics._words lyric) with ["be"%string; "humble"%string].
    cbn [fold_left]. unfold RealignLyrics.scan.
    change (RealignLyrics.no_vocals (seg_text window)) with false. cbn iota.
    change (RealignLyrics._words (seg_text window))
      with ["sit"%string; "down"%string; "be"%string; "humble"%string].
    cbn iota. set (sc := RealignLyrics.score _ _ _ _ _).
    assert (Hsc : 0.85 <= sc).
    { unfold sc, RealignLyrics.score, Py.max3.
      change (RealignLyrics.overlap _ _) with (2 # 2).
      change Qmax with Py.max. minmax; lra. }
    cbn [snd]. destruct (Py.ltb 0.0 sc) eqn:L.
    + exists sc. unfold RealignLyrics.MIN_CONFIDENCE. repeat split; lra.
    + apply ltb_false in L. exfalso. lra.
  - pose proof (best_position_in ratio (RealignLyrics._words lyric)
                  (RealignLyrics._words (seg_text window))) as Hin.
    unfold RealignLyrics.refine_timestamp.
    change (RealignLyrics._words lyric) with ["be"%string; "humble"%string] in *.
    change (RealignLyrics._words (seg_text window))
      with ["sit"%string; "down"%string; "be"%string; "humble"%string] in *.
    cbn iota.
    change (RealignLyrics.offsets _ _) with [0%nat; 1%nat; 2%nat] in Hin.
    destruct Hin as [E|[E|[E|[E|[]]]]]; rewrite <- E; vm_compute; reflexivity.
Qed.

(** C6: the lyric "be humble" against the single window [0 s, 10 s] with
    transcript "sit down be humble".  The word-set overlap is 1; the match
    is accepted with a confidence of at least 0.85, for any similarity
    measure, and of 0.95 with [difflib]'s; two lyric words at 4 words per
    10 s make 5 s, which the refiner cuts to [MAX_PHRASE_DURATION] = 4 s:
    the phrase is [5 s, 9 s]. *)
Theorem C6_scenario_A :
  let lyric := "be humble"%string in
  let text := "sit down be humble"%string in
  let window := {| seg_start := 0; seg_end := 10; seg_text := text |} in
  let lw := RealignLyrics._words lyric in
  let tw := RealignLyrics._words text in
  let wps := RealignLyrics.words_per_sec tw (seg_end window - seg_start window) in
  RealignLyrics.overlap lw tw == 1
  /\ (forall ratio : string -> string -> Q,
         (exists c,
             RealignLyrics.match_lyric_to_segments ratio lyric [window]
             = (Some window, c)
             /\ 0.85 <= c /\ RealignLyrics.MIN_CONFIDENCE <= c)
         /\ (let '(s, e) := RealignLyrics.refine_timestamp ratio lyric window 10 in
             e - s == RealignLyrics.MAX_PHRASE_DURATION))
  /\ RealignLyrics.match_lyric_to_segments Difflib.ratio lyric [window]
     = (Some window, 190 # 200)
  /\ wps == 4 / 10
  /\ Py.of_int (Py.len lw) / wps == 5.0
  /\ RealignLyrics.est_dur lw wps = RealignLyrics.MAX_PHRASE_DURATION
  /\ RealignLyrics.MAX_PHRASE_DURATION = 4.0
  /\ RealignLyrics.refine_timestamp Difflib.ratio lyric window 10 = (5.000, 9.000)
  /\ BuildRapDb.grok_align_line Difflib.ratio lyric [window] 10 = (5.000, 9.000, 0.950).
Proof.
  intros lyric text window lw tw wps.
  split; [vm_compute; reflexivity|].
  split; [intros ratio; apply scenario_A_any_ratio|].
  repeat split; vm_compute; reflexivity.
Qed.

(** * More of the pipeline *)

(** ** File names *)

Lemma keep_chars_append (keep : ascii -> bool) (s t : string) :
  Py.keep_chars keep (String.append s t)
  = String.append (Py.keep_chars keep s) (Py.keep_chars keep t).
Proof.
  unfold Py.keep_chars. induction s as [|c s IH]; simpl; [reflexivity|].
  rewrite IH. destruct (keep c); reflexivity.
Qed.


Lemma keep_chars_id (keep : ascii -> bool) (s : string) :
  forallb keep (list_ascii_of_string s) = true -> Py.keep_chars keep s = s.
Proof.
  unfold Py.keep_chars. induction s as [|c s IH]; simpl; [reflexivity|].
  intros H. apply andb_true_iff in H as [Hc Hs]. rewrite Hc, IH by exact Hs.
  reflexivity.
Qed.

Lemma three_digits_below_1000 (n : nat) : (n < 1000)%nat -> three_digits n = true.
Proof.
  intros H.
  assert (A : forallb three_digits (seq 0 1000) = true) by (vm_compute; reflexivity).
  rewrite forallb_forall in A. apply A. apply in_seq. lia.
Qed.

Lemma digit_value_le (c : ascii) :
  Py.between 48 57 c = true -> (N.to_nat (Py.code c - 48) <= 9)%nat.
Proof.
  unfold Py.between. intros H. apply andb_true_iff in H as [H1 H2].
  apply N.leb_le in H1, H2. lia.
Qed.

Lemma digits_value_bound (s : string) : forall acc prev n,
  Py.digits_value acc prev s = Some n ->
  (n < (acc + 1) * 10 ^ String.length s)%nat.
Proof.
  induction s as [|c s IH]; intros acc prev n H; simpl in H.
  - destruct prev; [|discriminate]. injection H as <-. simpl. lia.
  - destruct (Py.between 48 57 c) eqn:D.
    + apply IH in H. apply digit_value_le in D.
      cbn [String.length]. rewrite Nat.pow_succ_r'. nia.
    + destruct ((Py.code c =? 95)%N && prev); [|discriminate].
      apply IH in H. cbn [String.length]. rewrite Nat.pow_succ_r'. nia.
Qed.

Lemma lstrip_length (s : string) :
  (String.length (Py.lstrip s) <= String.length s)%nat.
Proof.
  induction s as [|c s IH]; simpl; [lia|].
  destruct (Py.isspace c); simpl; lia.
Qed.

Lemma rstrip_length (s : string) :
  (String.length (Py.rstrip s) <= String.length s)%nat.
Proof.
  induction s as [|c s IH]; simpl; [lia|].
  destruct (Py.rstrip s); [destruct (Py.isspace c)|]; simpl in *; lia.
Qed.

Lemma strip_length (s : string) :
  (String.length (Py.strip s) <= String.length s)%nat.
Proof.
  unfold Py.strip. pose proof (rstrip_length (Py.lstrip s)).
  pose proof (lstrip_length s). lia.
Qed.

Lemma str_take_length (n : nat) (s : string) :
  (String.length (Py.str_take n s) <= n)%nat.
Proof.
  unfold Py.str_take. revert s. induction n as [|n IH]; intros [|c s]; simpl; try lia.
  specialize (IH s). lia.
Qed.

Lemma int_of_str_bound (s : string) (z : Z) :
  Py.int_of_str s = Some z -> (z < 10 ^ Z.of_nat (String.length s))%Z.
Proof.
  unfold Py.int_of_str. pose proof (strip_length s) as L.
  assert (P : forall r n, (String.length r <= String.length s)%nat ->
            Py.digits_value 0 false r = Some n ->
            (Z.of_nat n < 10 ^ Z.of_nat (String.length s))%Z).
  { intros r n Lr H. apply digits_value_bound in H.
    assert (10 ^ String.length r <= 10 ^ String.length s)%nat
      by (apply Nat.pow_le_mono_r; lia).
    replace (10 ^ Z.of_nat (String.length s))%Z
      with (Z.of_nat (10 ^ String.length s)) by (rewrite Nat2Z.inj_pow; reflexivity).
    lia. }
  assert (Q_ : forall r, (String.length r <= String.length s)%nat ->
            option_map Z.of_nat (Py.digits_value 0 false r) = Some z ->
            (z < 10 ^ Z.of_nat (String.length s))%Z).
  { intros r Lr H. destruct (Py.digits_value 0 false r) as [n|] eqn:E; [|discriminate].
    injection H as <-. eapply P; eassumption. }
  destruct (Py.strip s) as [|c r] eqn:E.
  - apply Q_. simpl. lia.
  - simpl in L.
    destruct (Ascii.eqb_spec c "-") as [->|N1].
    + intros H. destruct (Py.digits_value 0 false r) as [n|]; [|discriminate].
      injection H as <-.
      assert (0 < 10 ^ Z.of_nat (String.length s))%Z by (apply Z.pow_pos_nonneg; lia).
      lia.
    + destruct (Ascii.eqb_spec c "+") as [->|N2].
      * apply Q_. lia.
      * intros H. apply (Q_ (String c r)); [simpl; lia|].
        destruct c as [[] [] [] [] [] [] [] []]; try exact H; congruence.
Qed.

Lemma song_idx_below_1000 (name : string) (z : Z) :
  RealignLyrics.song_idx name = Some z -> (z < 1000)%Z.
Proof.
  unfold RealignLyrics.song_idx. intros H. apply int_of_str_bound in H.
  pose proof (str_take_length 3 name) as L.
  assert (10 ^ Z.of_nat (String.length (Py.str_take 3 name)) <= 10 ^ 3)%Z
    by (apply Z.pow_le_mono_r; lia).
  lia.
Qed.

Lemma digit_not_underscore (d : ascii) :
  Py.between 48 57 d = true -> d <> "_"%char.
Proof. intros H ->. discriminate H. Qed.

Lemma digit_name_char (d : ascii) :
  Py.between 48 57 d = true -> BuildRapDb.name_char d = true.
Proof.
  intros H. unfold BuildRapDb.name_char, Py.isalnum. rewrite H. reflexivity.
Qed.

Lemma remove_sub_digit (old' : string) (d : ascii) (s : string) :
  Py.between 48 57 d = true ->
  Py.remove_sub_from (String "_" old') 0 (String d s)
  = String d (Py.remove_sub_from (String "_" old') 0 s).
Proof.
  intros H. cbn [Py.remove_sub_from String.prefix].
  destruct (ascii_dec "_" d) as [E|E]; [|reflexivity].
  symmetry in E. apply digit_not_underscore in H. contradiction.
Qed.


Lemma safe_name_starts (index : nat) (artist title : string) :
  (index < 1000)%nat ->
  exists a b c rest,
    Py.format_03d index = String a (String b (String c EmptyString))
    /\ Py.between 48 57 a = true /\ Py.between 48 57 b = true
    /\ Py.between 48 57 c = true
    /\ Py.int_of_str (String a (String b (String c EmptyString)))
       = Some (Z.of_nat index)
    /\ BuildRapDb.safe_name index artist title
       = String a (String b (String c (String "_" rest))).
Proof.
  intros H. apply three_digits_below_1000 in H. unfold three_digits in H.
  unfold BuildRapDb.safe_name. cbv zeta.
  destruct (Py.format_03d index) as [|a [|b [|c [|? ?]]]]; try discriminate.
  apply andb_true_iff in H as [H Hi]. apply andb_true_iff in H as [H Hc].
  apply andb_true_iff in H as [Ha Hb].
  destruct (Py.int_of_str _) as [z|] eqn:E; [|discriminate].
  apply Z.eqb_eq in Hi. subst z.
  eexists a, b, c, _. repeat split; try assumption.
  unfold Py.keep_chars. simpl.
  rewrite !digit_name_char by assumption.
  change (BuildRapDb.name_char "_") with true. cbv iota. reflexivity.
Qed.

(** X2: [main] of [realign_lyrics.py] reads the song index back from
    the name of the phrase cache that [_process_song_task] wrote
    ([int(name[:3])] of the stem without [_phrases]) exactly when the
    index is below 1000; from 1000 on the three characters are not the
    index. *)
Theorem X2_song_index_round_trip (index : nat) (artist title : string) :
  RealignLyrics.song_idx
    (RealignLyrics.song_name (BuildRapDb.phrase_cache_stem index artist title))
  = Some (Z.of_nat index)
  <-> (index < 1000)%nat.
Proof.
  split.
  - intros H. apply song_idx_below_1000 in H. lia.
  - intros H.
    destruct (safe_name_starts index artist title H)
      as (a & b & c & rest & _ & Da & Db & Dc & I & E).
    unfold RealignLyrics.song_idx, RealignLyrics.song_name,
      BuildRapDb.phrase_cache_stem, Py.remove_sub.
    rewrite E.
    change (String a (String b (String c (String "_" rest))) +:+ "_phrases")%string
      with (String a (String b (String c (String "_" rest +:+ "_phrases"))))%string.
    rewrite !remove_sub_digit by assumption.
    unfold Py.str_take. cbn [String.substring]. 
    replace (String.substring 0 0 _) with EmptyString; [exact I|].
    destruct (Py.remove_sub_from _ _ _); reflexivity.
Qed.

Lemma string_of_uint_inj (d e : Decimal.uint) :
  NilEmpty.string_of_uint d = NilEmpty.string_of_uint e -> d = e.
Proof.
  intros H. apply (f_equal NilEmpty.uint_of_string) in H.
  rewrite !NilEmpty.usu in H. congruence.
Qed.

Lemma of_uint_zeros (k : nat) (d : Decimal.uint) :
  Nat.of_uint (Nat.iter k Decimal.D0 d) = Nat.of_uint d.
Proof.
  induction k as [|k IH]; [reflexivity|]. simpl Nat.iter. rewrite <- IH.
  reflexivity.
Qed.

Lemma format_03d_inj (m n : nat) : Py.format_03d m = Py.format_03d n -> m = n.
Proof.
  unfold Py.format_03d. cbv zeta. intros H. apply string_of_uint_inj in H.
  apply (f_equal Nat.of_uint) in H. rewrite !of_uint_zeros in H.
  rewrite !DecimalNat.Unsigned.of_to in H. exact H.
Qed.

Lemma string_app_inv_head (p x y : string) :
  String.append p x = String.append p y -> x = y.
Proof.
  induction p as [|c p IH]; simpl; intros H; [exact H|].
  injection H as H. apply IH, H.
Qed.

Lemma string_app_length (s t : string) :
  String.length (String.append s t) = (String.length s + String.length t)%nat.
Proof. induction s as [|c s IH]; simpl; [reflexivity|]. rewrite IH. reflexivity. Qed.

Lemma string_app_inv_tail (x y t : string) :
  String.append x t = String.append y t -> x = y.
Proof.
  revert y. induction x as [|c x IH]; intros [|d y] H.
  - reflexivity.
  - apply (f_equal String.length) in H.
    rewrite !string_app_length in H. simpl in H. lia.
  - apply (f_equal String.length) in H.
    rewrite !string_app_length in H. simpl in H. lia.
  - simpl in H. injection H as -> H. f_equal. apply IH, H.
Qed.

Lemma clip_name_inj song_idx artist title (ci cj : nat) :
  BuildRapDb.clip_name song_idx artist title ci
  = BuildRapDb.clip_name song_idx artist title cj -> ci = cj.
Proof.
  unfold BuildRapDb.clip_name. cbv zeta. intros H.
  apply string_app_inv_head in H. injection H as H.
  apply string_app_inv_head in H. injection H as H.
  apply string_app_inv_head in H. apply string_app_inv_head in H.
  apply string_app_inv_tail in H. apply format_03d_inj, H.
Qed.

Lemma chop_song_emitted rms y phrases artist title song_idx :
  BuildRapDb.chop_song_by_phrases rms y phrases artist title song_idx
  = List.map (ClipSpec.metadata rms y artist title song_idx (fun _ => None))
             (ClipSpec.emitted rms y 0.5 phrases).
Proof.
  unfold BuildRapDb.chop_song_by_phrases, ClipSpec.emitted.
  rewrite (emit_loop (fun cp => ClipSpec.clip_emitted rms y 0.5 (snd cp))
             (ClipSpec.metadata rms y artist title song_idx (fun _ => None))).
  - reflexivity.
  - intros acc cp. apply chop_phrase_eq.
Qed.

Lemma rechop_song_emitted rms y phrases artist title song_idx :
  RealignLyrics.rechop_song rms y phrases artist title song_idx
  = List.map (ClipSpec.metadata rms y artist title song_idx
                (fun ph => Some (ph_confidence ph)))
             (ClipSpec.emitted rms y 1.0 phrases).
Proof.
  unfold RealignLyrics.rechop_song, ClipSpec.emitted.
  rewrite (emit_loop (fun cp => ClipSpec.clip_emitted rms y 1.0 (snd cp))
             (ClipSpec.metadata rms y artist title song_idx
                (fun ph => Some (ph_confidence ph)))).
  - reflexivity.
  - intros acc cp. apply rechop_phrase_eq.
Qed.

Lemma enumerate_fst {A} (l : list A) :
  List.map fst (Py.enumerate l) = seq 0 (length l).
Proof.
  unfold Py.enumerate. generalize 0%nat.
  induction l as [|x l IH]; intros n; simpl; [reflexivity|].
  rewrite IH. reflexivity.
Qed.

Lemma NoDup_map_filter {A B} (f : A -> B) (p : A -> bool) (l : list A) :
  List.NoDup (List.map f l) -> List.NoDup (List.map f (List.filter p l)).
Proof.
  induction l as [|x l IH]; simpl; intros H; [constructor|].
  apply NoDup_cons_iff in H as [Hx Hl]. destruct (p x); simpl.
  - apply NoDup_cons_iff. split; [|apply IH, Hl].
    intros Hin. apply Hx. apply in_map_iff in Hin as (z & E & Hz).
    apply filter_In in Hz as [Hz _]. apply in_map_iff. exists z. split; assumption.
  - apply IH, Hl.
Qed.

Lemma emitted_names_distinct rms y tolerance phrases artist title song_idx confidence :
  List.NoDup (List.map clip_file
           (List.map (ClipSpec.metadata rms y artist title song_idx confidence)
                     (ClipSpec.emitted rms y tolerance phrases))).
Proof.
  rewrite List.map_map.
  rewrite (List.map_ext _ (fun cp => BuildRapDb.clip_name song_idx artist title (fst cp))).
  2:{ intros cp. unfold ClipSpec.metadata, clip_file.
      destruct (ClipSpec.padded y (snd cp)). reflexivity. }
  rewrite <- (List.map_map fst (BuildRapDb.clip_name song_idx artist title)).
  apply NoDup_map_NoDup_ForallPairs.
  - intros ci cj _ _. apply clip_name_inj.
  - unfold ClipSpec.emitted. apply NoDup_map_filter.
    rewrite enumerate_fst. apply List.seq_NoDup.
Qed.

(** X3: the clips of one song get pairwise distinct file names, in
    [chop_song_by_phrases] and in [rechop_song], which name a clip the
    same way: no clip overwrites another of the same song. *)
Theorem X3_clip_files_distinct (rms : list Q -> Q) (y : list Q)
    (phrases : list phrase) (artist title : string) (song_idx : Z) :
  List.NoDup (List.map clip_file
           (BuildRapDb.chop_song_by_phrases rms y phrases artist title song_idx))
  /\ List.NoDup (List.map clip_file
              (RealignLyrics.rechop_song rms y phrases artist title song_idx))
  /\ forall ci, RealignLyrics.clip_name song_idx artist title ci
                = BuildRapDb.clip_name song_idx artist title ci.
Proof.
  rewrite chop_song_emitted, rechop_song_emitted.
  split; [|split]; try apply emitted_names_distinct. reflexivity.
Qed.

(** ** Explicit lyrics *)

Lemma nonempty_intersection (words : list string) (E : gset string) :
  negb (size ((list_to_set words : gset string) ∩ E) =? 0)%nat
  = existsb (fun w => bool_decide (w ∈ E)) words.
Proof.
  destruct (existsb _ words) eqn:X.
  - apply existsb_exists in X as (w & Hin & Hw).
    apply bool_decide_eq_true in Hw.
    apply negb_true_iff, Nat.eqb_neq. intros Hs.
    apply size_empty_iff in Hs.
    assert (w ∈ (list_to_set words : gset string) ∩ E) as Hw'.
    { apply elem_of_intersection. split; [|exact Hw].
      apply elem_of_list_to_set, list_elem_of_In, Hin. }
    rewrite Hs in Hw'. set_solver.
  - apply negb_false_iff, Nat.eqb_eq, size_empty_iff.
    apply set_equiv. intros w. split; [|set_solver].
    intros Hw. apply elem_of_intersection in Hw as [Hw1 Hw2].
    apply elem_of_list_to_set, list_elem_of_In in Hw1.
    assert (existsb (fun w => bool_decide (w ∈ E)) words = true) as Y.
    { apply existsb_exists. exists w. split; [exact Hw1|].
      apply bool_decide_eq_true, Hw2. }
    congruence.
Qed.

Lemma in_insert {A} (x w : A) (l : list A) (n : nat) :
  In w (firstn n l ++ x :: skipn n l) <-> In w l \/ x = w.
Proof.
  rewrite <- (firstn_skipn n l) at 3. rewrite !in_app_iff. simpl. tauto.
Qed.

Lemma build_explicit_words (w : string) :
  w ∈ BuildRapDb.EXPLICIT_WORDS
  <-> w ∈ RealignLyrics.EXPLICIT_WORDS \/ "ho"%string = w.
Proof.
  unfold BuildRapDb.EXPLICIT_WORDS, RealignLyrics.EXPLICIT_WORDS.
  rewrite !elem_of_list_to_set, !list_elem_of_In.
  rewrite <- (in_insert "ho"%string w _ 31). reflexivity.
Qed.

Lemma existsb_extended (Eb Er : gset string) (x : string) (words : list string) :
  (forall w, w ∈ Eb <-> w ∈ Er \/ x = w) ->
  existsb (fun w => bool_decide (w ∈ Eb)) words
  = existsb (fun w => bool_decide (w ∈ Er)) words || existsb (String.eqb x) words.
Proof.
  intros H. induction words as [|w ws IH]; [reflexivity|].
  cbn [existsb]. rewrite IH.
  assert (bool_decide (w ∈ Eb) = bool_decide (w ∈ Er) || String.eqb x w) as ->.
  { destruct (String.eqb_spec x w) as [<-|N].
    - rewrite orb_true_r. apply bool_decide_eq_true, H. tauto.
    - rewrite orb_false_r. apply bool_decide_ext.
      rewrite H. intuition congruence. }
  destruct (bool_decide (w ∈ Er)), (String.eqb x w),
    (existsb _ ws), (existsb _ ws); reflexivity.
Qed.

Lemma explicit_words_extended (lyric : string) :
  BuildRapDb.is_explicit lyric
  = RealignLyrics.is_explicit lyric
    || existsb (String.eqb "ho") (RealignLyrics.explicit_words_of lyric).
Proof.
  unfold BuildRapDb.is_explicit, RealignLyrics.is_explicit. cbv zeta.
  rewrite !nonempty_intersection.
  apply (existsb_extended _ _ "ho"%string), build_explicit_words.
Qed.

(** X4: [is_explicit] of [build_rap_db.py] flags what [is_explicit] of
    [realign_lyrics.py] flags, and the lyrics with the word ["ho"]: its
    word list is the other one with that word added. *)
Theorem X4_is_explicit_build_realign (lyric : string) :
  BuildRapDb.is_explicit lyric
  = RealignLyrics.is_explicit lyric
    || existsb (String.eqb "ho") (RealignLyrics.explicit_words_of lyric).
Proof. apply explicit_words_extended. Qed.

(** ** Deleted characters *)

Lemma lower_append (s t : string) :
  Py.lower (String.append s t) = String.append (Py.lower s) (Py.lower t).
Proof. induction s as [|c s IH]; simpl; [reflexivity|]. rewrite IH. reflexivity. Qed.

Lemma re_sub_not_append (keep : ascii -> bool) (s t : string) :
  Py.re_sub_not keep (String.append s t)
  = String.append (Py.re_sub_not keep s) (Py.re_sub_not keep t).
Proof.
  induction s as [|c s IH]; simpl; [reflexivity|].
  rewrite IH. destruct (keep c); reflexivity.
Qed.

(** X5: a character outside letters, white space and the apostrophe is
    deleted before the words are split, so it never separates words:
    [is_explicit] gives the same answer with and without it. *)
Theorem X5_is_explicit_skips_deleted (before after : string) (c : ascii) :
  BuildRapDb.explicit_keeps (Py.lower_char c) = false ->
  BuildRapDb.is_explicit (String.append before (String c after))
  = BuildRapDb.is_explicit (String.append before after)
  /\ RealignLyrics.is_explicit (String.append before (String c after))
     = RealignLyrics.is_explicit (String.append before after).
Proof.
  intros H.
  assert (E : BuildRapDb.explicit_words_of (String.append before (String c after))
              = BuildRapDb.explicit_words_of (String.append before after)).
  { unfold BuildRapDb.explicit_words_of.
    rewrite !lower_append, !re_sub_not_append.
    cbn [Py.lower Py.re_sub_not]. rewrite H. reflexivity. }
  unfold BuildRapDb.is_explicit, RealignLyrics.is_explicit. cbv zeta.
  change (RealignLyrics.explicit_words_of) with (BuildRapDb.explicit_words_of).
  rewrite E. split; reflexivity.
Qed.

Lemma X5_is_explicit_skips_deleted_witness :
  BuildRapDb.is_explicit "s.h.it happens" = BuildRapDb.is_explicit "s.hit happens"
  /\ RealignLyrics.is_explicit "s.h.it happens"
     = RealignLyrics.is_explicit "s.hit happens".
Proof.
  apply (X5_is_explicit_skips_deleted "s.h" "it happens" "."). reflexivity.
Defined.


(** ** The lines of the lyrics *)

Lemma lstrip_head (s : string) (c : ascii) (r : string) :
  Py.lstrip s = String c r -> Py.isspace c = false.
Proof.
  induction s as [|d s IH]; simpl; [discriminate|].
  destruct (Py.isspace d) eqn:E; [exact IH|]. intros [= <- _]. exact E.
Qed.

Lemma rstrip_head (c : ascii) (s : string) :
  Py.isspace c = false -> exists r, Py.rstrip (String c s) = String c r.
Proof.
  intros H. cbn [Py.rstrip]. rewrite H.
  destruct (Py.rstrip s); eexists; reflexivity.
Qed.

Lemma rstrip_rstrip (s : string) : Py.rstrip (Py.rstrip s) = Py.rstrip s.
Proof.
  induction s as [|c s IH]; [reflexivity|]. cbn [Py.rstrip].
  destruct (Py.rstrip s) as [|d r] eqn:E.
  - destruct (Py.isspace c) eqn:S; [reflexivity|]. cbn [Py.rstrip]. rewrite S.
    reflexivity.
  - cbn [Py.rstrip] in *. rewrite IH. reflexivity.
Qed.

Lemma strip_strip (s : string) : Py.strip (Py.strip s) = Py.strip s.
Proof.
  unfold Py.strip. destruct (Py.lstrip s) as [|c r] eqn:E; [reflexivity|].
  apply lstrip_head in E. destruct (rstrip_head c r E) as [r' R]. rewrite R.
  cbn [Py.lstrip]. rewrite E, <- R. apply rstrip_rstrip.
Qed.

Lemma lstrip_chars (s : string) (c : ascii) :
  In c (list_ascii_of_string (Py.lstrip s)) -> In c (list_ascii_of_string s).
Proof.
  induction s as [|d s IH]; simpl; [tauto|].
  destruct (Py.isspace d); simpl; tauto.
Qed.

Lemma rstrip_chars (s : string) (c : ascii) :
  In c (list_ascii_of_string (Py.rstrip s)) -> In c (list_ascii_of_string s).
Proof.
  induction s as [|d s IH]; cbn [Py.rstrip]; [tauto|].
  destruct (Py.rstrip s) as [|e r].
  - destruct (Py.isspace d); simpl; tauto.
  - simpl in *. tauto.
Qed.

Lemma append_chars (s t : string) :
  list_ascii_of_string (String.append s t)
  = list_ascii_of_string s ++ list_ascii_of_string t.
Proof. induction s as [|c s IH]; simpl; [reflexivity|]. rewrite IH. reflexivity. Qed.

Lemma split_on_pieces (sep : ascii) (s : string) : forall w,
  ~ In sep (list_ascii_of_string w) ->
  Forall (fun piece => ~ In sep (list_ascii_of_string piece))
         (Py.split_on_from sep w s).
Proof.
  induction s as [|c s IH]; intros w Hw; cbn [Py.split_on_from].
  - constructor; [exact Hw|constructor].
  - destruct (Ascii.eqb_spec c sep) as [->|N].
    + constructor; [exact Hw|]. apply IH. simpl. tauto.
    + apply IH. rewrite append_chars, in_app_iff. simpl. intuition congruence.
Qed.

(** X6: every line [fetch_lyrics] keeps is non-empty, has no white
    space at either end (stripping it again changes nothing) and holds no
    newline. *)
Theorem X6_lyric_lines_clean (lyrics_text : string) :
  Forall (fun line =>
            line <> EmptyString
            /\ Py.strip line = line
            /\ ~ In (ascii_of_N 10) (list_ascii_of_string line))
         (BuildRapDb.lyric_lines lyrics_text).
Proof.
  unfold BuildRapDb.lyric_lines. apply List.Forall_forall. intros line Hin.
  apply in_map_iff in Hin as (piece & <- & Hin).
  apply filter_In in Hin as [Hin Hne].
  split; [|split].
  - destruct (Py.strip piece); [discriminate|]. discriminate.
  - apply strip_strip.
  - intros Hc. unfold Py.strip in Hc. apply rstrip_chars, lstrip_chars in Hc.
    pose proof (split_on_pieces (ascii_of_N 10) lyrics_text EmptyString) as P.
    rewrite List.Forall_forall in P. apply (P (fun H => H) piece Hin Hc).
Qed.

(** ** Lines to phrases *)

Lemma estimate_returns (duration : Q) (onset_times : list Q) (num_lines : nat) :
  (1 <= num_lines)%nat ->
  exists timestamps,
    BuildRapDb.estimate_line_timestamps duration onset_times num_lines
    = Some timestamps
    /\ length timestamps = num_lines.
Proof.
  intros Hn. unfold BuildRapDb.estimate_line_timestamps.
  destruct (Nat.ltb_spec (length onset_times) 2) as [Hd|Hd].
  - destruct (Nat.eqb_spec num_lines 0) as [->|_]; [lia|].
    eexists. split; [reflexivity|]. unfold Py.range. rewrite Nat2Z.id.
    rewrite length_map, length_seq; reflexivity.
  - eexists. split; [reflexivity|].
    pose proof (final_segments_length onset_times num_lines Hd Hn) as L.
    cbn zeta in L.
    rewrite length_map, enumerate_length, length_take, L. lia.
Qed.

Lemma lines_loop (timestamps : list (Q * Q)) (l : list (nat * string))
    (acc : list phrase) :
  fold_left (BuildRapDb.line_to_phrase timestamps) l acc
  = acc ++ omap (phrase_of_line timestamps) l.
Proof.
  revert acc. induction l as [|[i line] l IH]; intros acc; simpl.
  - rewrite app_nil_r. reflexivity.
  - rewrite IH. unfold phrase_of_line. cbn [fst snd].
    destruct (Py.len (Py.split line) <? 3)%Z; [reflexivity|].
    destruct (timestamps !! i) as [[s e]|]; [|reflexivity].
    rewrite <- app_assoc. reflexivity.
Qed.

Lemma lines_to_phrases_eq lines timestamps :
  BuildRapDb._lines_to_phrases lines timestamps
  = take BuildRapDb.MAX_CLIPS_PER_SONG
         (omap (phrase_of_line timestamps) (Py.enumerate lines)).
Proof. unfold BuildRapDb._lines_to_phrases. rewrite lines_loop. reflexivity. Qed.


Lemma StronglySorted_take {A} (R : A -> A -> Prop) (n : nat) (l : list A) :
  StronglySorted R l -> StronglySorted R (take n l).
Proof.
  revert n. induction l as [|x l IH]; intros [|n] H; simpl; try constructor.
  - apply IH. inversion H; assumption.
  - inversion H as [|? ? _ F]; subst. apply List.Forall_forall. intros z Hz.
    rewrite List.Forall_forall in F. apply F.
    apply list_elem_of_In. apply list_elem_of_In in Hz.
    eapply elem_of_take in Hz. destruct Hz as (i & Hz & _).
    eapply list_elem_of_lookup_2; eassumption.
Qed.

Lemma StronglySorted_seq (start len : nat) :
  StronglySorted lt (seq start len).
Proof.
  revert start. induction len as [|len IH]; intros start; simpl; constructor.
  - apply IH.
  - apply List.Forall_forall. intros z Hz. apply in_seq in Hz. lia.
Qed.

Lemma phrase_of_line_index timestamps il p :
  phrase_of_line timestamps il = Some p ->
  ph_line_index p = Z.of_nat (fst il) /\ ph_lyric p = snd il
  /\ timestamps !! fst il = Some (ph_start p, ph_end p)
  /\ (3 <= Py.len (Py.split (snd il)))%Z /\ ph_confidence p = 0.
Proof.
  unfold phrase_of_line. destruct (Z.ltb_spec (Py.len (Py.split (snd il))) 3);
    [discriminate|].
  destruct (timestamps !! fst il) as [[s e]|]; [|discriminate].
  intros [= <-]. cbn. repeat split; try reflexivity. assumption.
Qed.

Lemma omap_sorted timestamps (l : list (nat * string)) :
  StronglySorted lt (List.map fst l) ->
  StronglySorted Z.lt
    (List.map ph_line_index (omap (phrase_of_line timestamps) l)).
Proof.
  induction l as [|il l IH]; simpl; intros H; [constructor|].
  inversion H as [|? ? S F]; subst.
  destruct (phrase_of_line timestamps il) as [p|] eqn:E; [|apply IH, S].
  simpl. constructor; [apply IH, S|].
  apply phrase_of_line_index in E as (E & _).
  apply List.Forall_forall. intros z Hz.
  apply in_map_iff in Hz as (q & <- & Hq).
  apply list_elem_of_In, list_elem_of_omap in Hq as (jl & Hj & Eq).
  apply phrase_of_line_index in Eq as (Eq & _).
  rewrite List.Forall_forall in F.
  assert (fst il < fst jl)%nat.
  { apply F. apply in_map. apply list_elem_of_In, Hj. }
  lia.
Qed.

Lemma enumerate_lookup {A} (l : list A) (i : nat) (x : A) :
  In (i, x) (Py.enumerate l) -> l !! i = Some x.
Proof.
  unfold Py.enumerate. intros H. apply list_elem_of_In in H.
  apply list_elem_of_lookup_1 in H as (k & H).
  apply lookup_zip_Some in H as (Ha & Hb).
  apply lookup_seq in Ha as [-> _]. exact Hb.
Qed.

(** X7: [_lines_to_phrases] returns at most [MAX_CLIPS_PER_SONG]
    phrases; each one is a line of at least three words with the
    timestamps found at the index of the line; the line indices are
    strictly increasing. *)
Theorem X7_lines_to_phrases_sound (lines : list string) (timestamps : list (Q * Q)) :
  let phrases := BuildRapDb._lines_to_phrases lines timestamps in
  (length phrases <= BuildRapDb.MAX_CLIPS_PER_SONG)%nat
  /\ Forall (fun p =>
               exists i : nat,
                 ph_line_index p = Z.of_nat i
                 /\ lines !! i = Some (ph_lyric p)
                 /\ timestamps !! i = Some (ph_start p, ph_end p)
                 /\ (3 <= Py.len (Py.split (ph_lyric p)))%Z) phrases
  /\ StronglySorted Z.lt (List.map ph_line_index phrases).
Proof.
  cbv zeta. rewrite lines_to_phrases_eq. split; [|split].
  - rewrite length_take. lia.
  - apply List.Forall_forall. intros p Hp.
    apply list_elem_of_In, elem_of_take in Hp as (k & Hp & _).
    apply list_elem_of_lookup_2, list_elem_of_omap in Hp as ([i line] & Hil & Hp).
    apply phrase_of_line_index in Hp as (E1 & E2 & E3 & E4 & _).
    cbn [fst snd] in *. exists i. rewrite E2.
    repeat split; try assumption.
    apply enumerate_lookup, list_elem_of_In, Hil.
  - rewrite <- firstn_map. apply StronglySorted_take, omap_sorted.
    rewrite enumerate_fst. apply StronglySorted_seq.
Qed.

Lemma omap_lyrics timestamps (lines : list string) : forall k : nat,
  (k + length lines <= length timestamps)%nat ->
  List.map ph_lyric
    (omap (phrase_of_line timestamps) (zip (seq k (length lines)) lines))
  = List.filter (fun line => negb (Py.len (Py.split line) <? 3)%Z) lines.
Proof.
  induction lines as [|line lines IH]; intros k Hk; [reflexivity|].
  simpl in Hk. cbn [length seq zip zip_with omap list_omap List.filter].
  unfold phrase_of_line at 1. cbn [fst snd].
  destruct (Py.len (Py.split line) <? 3)%Z; cbn [negb].
  - apply IH. lia.
  - destruct (lookup_lt_is_Some_2 timestamps k) as [[s e] E]; [lia|].
    rewrite E. cbn [List.map ph_lyric]. f_equal. apply IH. lia.
Qed.

(** X8: without the API, a song with at least one line gets phrases
    ([estimate_line_timestamps] does not raise), and their lyrics are, in
    order, the first [MAX_CLIPS_PER_SONG] lines of three words or more:
    no such line is lost for want of a timestamp. *)
Theorem X8_heuristic_phrases_keep_lines (duration : Q) (onset_times : list Q)
    (lines : list string) :
  (1 <= length lines)%nat ->
  exists phrases,
    BuildRapDb.heuristic_phrases duration onset_times lines = Some phrases
    /\ List.map ph_lyric phrases
       = take BuildRapDb.MAX_CLIPS_PER_SONG
              (List.filter (fun line => negb (Py.len (Py.split line) <? 3)%Z) lines).
Proof.
  intros Hn. unfold BuildRapDb.heuristic_phrases.
  destruct (estimate_returns duration onset_times (length lines) Hn)
    as (timestamps & -> & L).
  eexists. split; [reflexivity|].
  rewrite lines_to_phrases_eq, <- firstn_map. f_equal.
  unfold Py.enumerate. apply omap_lyrics. lia.
Qed.

Lemma X8_heuristic_phrases_keep_lines_witness :
  exists phrases,
    BuildRapDb.heuristic_phrases 10 [3.2]
      ["one two three"; "yeah"; "four five six seven"]%string = Some phrases
    /\ List.map ph_lyric phrases
       = take BuildRapDb.MAX_CLIPS_PER_SONG
              (List.filter (fun line => negb (Py.len (Py.split line) <? 3)%Z)
                 ["one two three"; "yeah"; "four five six seven"]%string).
Proof.
  apply (X8_heuristic_phrases_keep_lines 10 [3.2]
           ["one two three"; "yeah"; "four five six seven"]%string).
  simpl. lia.
Defined.

(** ** The line selection *)

Lemma kept_index_lt (num_lines : nat) (v : BuildRapDb.json) (i : nat) :
  BuildRapDb.kept_index num_lines v = Some i -> (i < num_lines)%nat.
Proof.
  assert (R : forall z, (if (0 <=? z)%Z && (z <? Z.of_nat num_lines)%Z
                         then Some (Z.to_nat z) else None) = Some i ->
                        (i < num_lines)%nat).
  { intros z H. destruct (Z.leb_spec 0 z), (Z.ltb_spec z (Z.of_nat num_lines));
      try discriminate. injection H as <-. lia. }
  destruct v; simpl; try discriminate; apply R.
Qed.

Lemma selected_indices_lt (num_lines : nat) (reply : option BuildRapDb.json)
    (selected : list nat) :
  BuildRapDb.selected_indices num_lines reply = Some selected ->
  Forall (fun idx => (idx < num_lines)%nat) selected.
Proof.
  unfold BuildRapDb.selected_indices. intros H. apply List.Forall_forall.
  intros idx Hin.
  destruct reply as [v|].
  - destruct v; try discriminate; injection H as <-; try contradiction.
    apply list_elem_of_In, list_elem_of_omap in Hin as (v & _ & Hv).
    eapply kept_index_lt, Hv.
  - injection H as <-. apply in_seq in Hin. lia.
Qed.

Lemma omap_all (g : nat -> option phrase) (lines : list string)
    (selected : list nat) :
  Forall (fun idx => exists p, g idx = Some p
                               /\ ph_line_index p = Z.of_nat idx
                               /\ lines !! idx = Some (ph_lyric p)) selected ->
  List.map ph_line_index (omap g selected) = List.map Z.of_nat selected
  /\ Forall (fun p => lines !! Z.to_nat (ph_line_index p) = Some (ph_lyric p))
            (omap g selected).
Proof.
  induction 1 as [|idx selected (p & E & I & L) _ [IH1 IH2]].
  - split; [reflexivity|constructor].
  - change (omap g (idx :: selected))
      with (match g idx with
            | Some p => p :: omap g selected
            | None => omap g selected
            end).
    rewrite E. cbn [List.map]. rewrite IH1, I. split; [reflexivity|].
    constructor; [|exact IH2]. rewrite I, Nat2Z.id. exact L.
Qed.

Lemma nth_lookup_lines (lines : list string) (idx : nat) :
  (idx < length lines)%nat -> lines !! idx = Some (nth idx lines EmptyString).
Proof.
  intros H. destruct (lookup_lt_is_Some_2 lines idx H) as [x E].
  rewrite E. f_equal. symmetry. apply nth_lookup_Some with (d := EmptyString) in E.
  exact E.
Qed.

Lemma grok_select_phrases_lines ratio reply grok_segments info_duration
    duration onset_times lines :
  (1 <= length lines)%nat ->
  BuildRapDb.grok_select_phrases ratio reply grok_segments info_duration
    duration onset_times lines
  = match BuildRapDb.selected_indices (length lines) reply,
          BuildRapDb.estimate_line_timestamps duration onset_times (length lines)
    with
    | Some selected, Some timestamps =>
        Some (match grok_segments with
              | [] => omap (BuildRapDb.fallback_line lines timestamps) selected
              | _ =>
                  omap (fun idx =>
                          BuildRapDb.align_selected_line ratio grok_segments
                            info_duration timestamps idx
                            (nth idx lines EmptyString))
                       selected
              end)
    | _, _ => None
    end.
Proof. destruct lines; simpl; [lia|reflexivity]. Qed.

(** X9: when the selection can be iterated, [grok_select_phrases]
    returns one phrase for each selected index, in the order of the
    reply and with repetitions kept, whether the song was transcribed or
    not; the lyric of a phrase is the line at its index. *)
Theorem X9_grok_select_phrases_selected (ratio : string -> string -> Q)
    (reply : option BuildRapDb.json) (grok_segments : list segment)
    (info_duration duration : Q) (onset_times : list Q) (lines : list string)
    (selected : list nat) :
  BuildRapDb.selected_indices (length lines) reply = Some selected ->
  exists phrases,
    BuildRapDb.grok_select_phrases ratio reply grok_segments info_duration
      duration onset_times lines = Some phrases
    /\ List.map ph_line_index phrases = List.map Z.of_nat selected
    /\ Forall (fun p => lines !! Z.to_nat (ph_line_index p) = Some (ph_lyric p))
              phrases.
Proof.
  intros Hs. pose proof (selected_indices_lt _ _ _ Hs) as Hlt.
  destruct (Nat.eq_dec (length lines) 0%nat) as [Z0|NZ].
  - destruct lines; [|discriminate]. exists [].
    destruct selected as [|idx ?].
    + repeat split; constructor.
    + inversion Hlt; subst. simpl in *. lia.
  - rewrite grok_select_phrases_lines by lia. rewrite Hs.
    destruct (estimate_returns duration onset_times (length lines))
      as (timestamps & -> & L); [lia|].
    eexists. split; [reflexivity|].
    destruct grok_segments as [|seg segs]; apply omap_all.
    + eapply Forall_impl; [exact Hlt|]. cbv beta.
      intros idx Hidx. unfold BuildRapDb.fallback_line.
      destruct (lookup_lt_is_Some_2 timestamps idx) as [[s e] E]; [lia|].
      rewrite E. eexists. split; [reflexivity|]. cbn.
      split; [reflexivity|]. apply nth_lookup_lines, Hidx.
    + eapply Forall_impl; [exact Hlt|]. cbv beta.
      intros idx Hidx. unfold BuildRapDb.align_selected_line.
      destruct (BuildRapDb.grok_align_line _ _ _ _) as [[s e] c].
      destruct (lookup_lt_is_Some_2 timestamps idx) as [[s' e'] E]; [lia|].
      rewrite E.
      destruct (Py.geb c 0.25); eexists; (split; [reflexivity|]); cbn;
        (split; [reflexivity|]); apply nth_lookup_lines, Hidx.
Qed.

(** X10: [grok_select_phrases] raises exactly when the lyrics have a
    line and the reply parses as JSON that cannot be iterated ([null], a
    boolean or a number): the handler of the [try] block leaves that
    value in [selected_indices].  A reply that does not parse falls back
    to all the lines. *)
Theorem X10_grok_select_phrases_raises (ratio : string -> string -> Q)
    (reply : option BuildRapDb.json) (grok_segments : list segment)
    (info_duration duration : Q) (onset_times : list Q) (lines : list string) :
  BuildRapDb.grok_select_phrases ratio reply grok_segments info_duration
    duration onset_times lines = None
  <-> (1 <= length lines)%nat
      /\ exists v, reply = Some v
                   /\ match v with
                      | BuildRapDb.JList _ | BuildRapDb.JStr _
                      | BuildRapDb.JDict _ => False
                      | _ => True
                      end.
Proof.
  destruct (Nat.eq_dec (length lines) 0%nat) as [Z0|NZ].
  - destruct lines; [|discriminate]. simpl. split; [discriminate|]. lia.
  - rewrite grok_select_phrases_lines by lia.
    destruct (estimate_returns duration onset_times (length lines))
      as (timestamps & -> & L); [lia|].
    unfold BuildRapDb.selected_indices.
    destruct reply as [v|].
    + destruct v; split; try discriminate; try reflexivity;
        try (intros _; split; [lia|]; eexists; split; [reflexivity|exact I]);
        intros (_ & v & [= <-] & F); contradiction.
    + split; [discriminate|]. intros (_ & v & F & _). discriminate.
Qed.

Lemma X9_grok_select_phrases_selected_witness :
  let lines := ["sit down be humble"; "yeah"; "money trees is the perfect place"]%string in
  let reply := Some (BuildRapDb.JList
                       [BuildRapDb.JInt 2; BuildRapDb.JStr "0"; BuildRapDb.JInt 7;
                        BuildRapDb.JBool true; BuildRapDb.JInt 2]) in
  exists phrases,
    BuildRapDb.grok_select_phrases Difflib.ratio reply [] 10 10 [3.2] lines
    = Some phrases
    /\ List.map ph_line_index phrases = List.map Z.of_nat [2; 1; 2]%nat
    /\ Forall (fun p => lines !! Z.to_nat (ph_line_index p) = Some (ph_lyric p))
              phrases.
Proof.
  intros lines reply.
  apply (X9_grok_select_phrases_selected Difflib.ratio reply [] 10 10 [3.2] lines
           [2; 1; 2]%nat).
  reflexivity.
Defined.

(** ** Onset timestamps *)

(** X11: with two onsets or more, every pair [(start, end)] of
    [estimate_line_timestamps] spans between [MIN_PHRASE_DURATION] and
    [MAX_PHRASE_DURATION + 1.0] seconds. *)
Theorem X11_onset_timestamps_span (duration : Q) (onset_times : list Q)
    (num_lines : nat) (timestamps : list (Q * Q)) :
  (2 <= length onset_times)%nat ->
  BuildRapDb.estimate_line_timestamps duration onset_times num_lines
  = Some timestamps ->
  Forall (fun se => BuildRapDb.MIN_PHRASE_DURATION <= snd se - fst se
                    /\ snd se - fst se <= BuildRapDb.MAX_PHRASE_DURATION + 1.0)
         timestamps.
Proof.
  intros Ho. unfold BuildRapDb.estimate_line_timestamps.
  destruct (Nat.ltb_spec (length onset_times) 2) as [Hd|_]; [lia|].
  intros [= <-]. apply List.Forall_forall. intros se Hin.
  apply in_map_iff in Hin as ([i [s e]] & <- & _).
  pose proof (timestamp_of_floor duration
                (BuildRapDb.merge_loop
                   (length (BuildRapDb.split_loop num_lines num_lines
                              (BuildRapDb.raw_segments onset_times)))
                   num_lines
                   (BuildRapDb.split_loop num_lines num_lines
                      (BuildRapDb.raw_segments onset_times)))
                (i, (s, e))) as F.
  split; [unfold BuildRapDb.MIN_PHRASE_DURATION in *; lra|].
  unfold BuildRapDb.timestamp_of. cbn [fst snd].
  unfold BuildRapDb.MAX_PHRASE_DURATION, BuildRapDb.MIN_PHRASE_DURATION.
  match goal with
  | |- Py.round3 (Py.max ?x _) - _ <= _ =>
      assert (Py.max x (s + 0.6) <= s + 5.0) as U
  end.
  { destruct (_ <? _)%nat; minmax; lra. }
  apply round3_mono in U. rewrite (round3_shift s 5.0 2500) in U by reflexivity.
  lra.
Qed.

Lemma X11_onset_timestamps_span_witness :
  Forall (fun se => BuildRapDb.MIN_PHRASE_DURATION <= snd se - fst se
                    /\ snd se - fst se <= BuildRapDb.MAX_PHRASE_DURATION + 1.0)
         [(1.000, 6.000); (12.000, 17.000)].
Proof.
  apply (X11_onset_timestamps_span 20 [1.0; 2.5; 12.0] 2%nat).
  - simpl. lia.
  - vm_compute. reflexivity.
Defined.


(** ** The transcription windows *)

Lemma int_of_Z (x : Q) (m : Z) : x == inject_Z m -> (0 <= m)%Z -> Py.int x = m.
Proof.
  intros E H. rewrite int_nonneg.
  - rewrite E. apply Qfloor_Z.
  - rewrite E. change 0 with (inject_Z 0). rewrite <- Zle_Qle. exact H.
Qed.


Lemma window_start_sample (t : Q) (k : nat) :
  t == inject_Z (5 * Z.of_nat k) ->
  Py.int (t * Py.of_int RealignLyrics.SAMPLE_RATE) = (220500 * Z.of_nat k)%Z.
Proof.
  intros E. apply int_of_Z; [|lia].
  rewrite E, !inject_Z_mult. unfold Py.of_int, RealignLyrics.SAMPLE_RATE.
  change (inject_Z 220500) with 220500. change (inject_Z 5) with 5.
  change (inject_Z 44100) with 44100. lra.
Qed.

Lemma window_end_sample (t : Q) (k n : nat) :
  t == inject_Z (5 * Z.of_nat k) ->
  let sr := Py.of_int RealignLyrics.SAMPLE_RATE in
  Py.int (Py.min (t + RealignLyrics.SEG_DURATION)
                 (Py.of_int (Z.of_nat n) / sr) * sr)
  = Z.min (220500 * Z.of_nat k + 441000) (Z.of_nat n).
Proof.
  intros E sr. apply int_of_Z; [|lia].
  unfold sr, Py.of_int, RealignLyrics.SAMPLE_RATE, RealignLyrics.SEG_DURATION, Qdiv.
  change (/ inject_Z 44100) with (1 # 44100). change (inject_Z 44100) with 44100.
  rewrite E.
  destruct (Z.min_spec (220500 * Z.of_nat k + 441000) (Z.of_nat n)) as [[L ->]|[L ->]].
  - assert (inject_Z (220500 * Z.of_nat k + 441000) < inject_Z (Z.of_nat n))
      as L' by (rewrite <- Zlt_Qlt; exact L).
    rewrite ?inject_Z_plus, ?inject_Z_mult in *.
    change (inject_Z 220500) with 220500 in *. change (inject_Z 441000) with 441000 in *.
    change (inject_Z 5) with 5. minmax; lra.
  - assert (inject_Z (Z.of_nat n) <= inject_Z (220500 * Z.of_nat k + 441000))
      as L' by (rewrite <- Zle_Qle; exact L).
    rewrite ?inject_Z_plus, ?inject_Z_mult in *.
    change (inject_Z 220500) with 220500 in *. change (inject_Z 441000) with 441000 in *.
    change (inject_Z 5) with 5. minmax; lra.
Qed.

Lemma slice_window {A} (y : list A) (a c : nat) :
  Py.slice y a (Nat.min (a + c) (length y)) = take c (drop a y).
Proof.
  unfold Py.slice.
  destruct (Nat.le_gt_cases (a + c) (length y)) as [H|H].
  - rewrite Nat.min_l by exact H. f_equal. lia.
  - rewrite Nat.min_r by lia.
    rewrite !take_ge; [reflexivity| |]; rewrite length_drop; lia.
Qed.

Lemma round3_eq (x y : Q) : x == y -> Py.round3 x == Py.round3 y.
Proof.
  intros E. apply Qle_antisym; apply round3_mono; rewrite E; apply Qle_refl.
Qed.

Lemma round3_int (m : Z) : Py.round3 (inject_Z m) == inject_Z m.
Proof.
  assert (E : inject_Z m == inject_Z (1000 * m) / 1000).
  { rewrite inject_Z_mult. change (inject_Z 1000) with 1000. field. }
  rewrite (round3_eq _ _ E), round3_Z, <- E. reflexivity.
Qed.

Lemma windows_from_ok (song_name : string) (y : list Q) (rounds : nat) :
  forall (t : Q) (k : nat),
    t == inject_Z (5 * Z.of_nat k) ->
    forall (i : nat) (w : RealignLyrics.window),
      RealignLyrics.windows_from rounds song_name y t k !! i = Some w ->
      window_ok song_name y (k + i) w.
Proof.
  induction rounds as [|rounds IH]; intros t k E i w H; [discriminate|].
  cbn [RealignLyrics.windows_from] in H. cbv zeta in H.
  destruct (Py.ltb t _) eqn:C; [|discriminate].
  destruct i as [|i].
  - injection H as <-. rewrite Nat.add_0_r. unfold window_ok.
    cbn [RealignLyrics.w_idx RealignLyrics.w_seg_id RealignLyrics.w_start
         RealignLyrics.w_end RealignLyrics.w_audio]. cbv zeta.
    split; [reflexivity|]. split; [reflexivity|].
    split; [rewrite (round3_eq _ _ E); apply round3_int|].
    split.
    + apply round3_eq. unfold Py.min, RealignLyrics.SEG_DURATION, Py.of_int,
        Py.len, RealignLyrics.SAMPLE_RATE.
      change (inject_Z 44100) with 44100.
      assert (t + 10.0 == inject_Z (5 * Z.of_nat k) + 10) as -> by (rewrite E; lra).
      reflexivity.
    + unfold Py.len. rewrite (window_start_sample t k E).
      rewrite (window_end_sample t k (length y) E).
      replace (Z.to_nat (Z.min (220500 * Z.of_nat k + 441000) (Z.of_nat (length y))))
        with (Nat.min (Z.to_nat (220500 * Z.of_nat k) + Z.to_nat 441000) (length y))
        by lia.
      rewrite slice_window. f_equal. f_equal. lia.
  - cbn [lookup list_lookup] in H.
    replace (k + S i)%nat with ((k + 1) + i)%nat by lia.
    eapply IH; [|exact H].
    rewrite E. unfold RealignLyrics.SEG_STEP.
    replace (Z.of_nat (k + 1)) with (Z.of_nat k + 1)%Z by lia.
    rewrite !inject_Z_mult, inject_Z_plus. change (inject_Z 5) with 5.
    change (inject_Z 1) with 1. lra.
Qed.









(** ** Filling the transcription in batches *)

Lemma fill_batch_app (batch : list RealignLyrics.window) :
  forall (results : list (option string)) (pre rest : list (option segment)),
    (forall p w, batch !! p = Some w ->
                 RealignLyrics.w_idx w = (length pre + p)%nat) ->
    length results = length batch ->
    (length batch <= length rest)%nat ->
    RealignLyrics.fill_batch (pre ++ rest) batch results
    = pre ++ zip_with (fun w t => Some (segment_of_window w t)) batch
                      (List.map text_of results)
          ++ drop (length batch) rest.
Proof.
  unfold RealignLyrics.fill_batch.
  induction batch as [|w batch IH]; intros results pre rest Hidx Hr Hl.
  - destruct results; [|discriminate]. reflexivity.
  - destruct results as [|r results]; [discriminate|].
    destruct rest as [|x rest]; [simpl in Hl; lia|].
    cbn [zip zip_with fold_left fst snd List.map length drop].
    rewrite (Hidx 0%nat w eq_refl).
    rewrite insert_app_r. cbn [insert list_insert].
    change (pre ++ ?a :: rest) with (pre ++ [a] ++ rest).
    rewrite app_assoc.
    rewrite (IH results (pre ++ [Some _]) rest).
    + rewrite <- app_assoc. reflexivity.
    + intros p w' Hp. rewrite (Hidx (S p) w' Hp), length_app. simpl. lia.
    + simpl in Hr. lia.
    + simpl in Hl. lia.
Qed.

Section Batches.
Variable run_batch : list RealignLyrics.window -> list (option string).
Variable windows : list RealignLyrics.window.
Hypothesis run_batch_length : forall batch, length (run_batch batch) = length batch.
Hypothesis windows_idx :
  forall i w, windows !! i = Some w -> RealignLyrics.w_idx w = i.

Lemma batches_prefix (m : nat) :
  (5 * m < length windows + 5)%nat ->
  exists texts,
    length texts = Nat.min (5 * m) (length windows)
    /\ fold_left
         (fun (segments : list (option segment)) (batch_start : nat) =>
            let batch := Py.slice windows batch_start
                           (batch_start + RealignLyrics.PARALLEL_WORKERS) in
            RealignLyrics.fill_batch segments batch (run_batch batch))
         (List.map (fun k => k * RealignLyrics.PARALLEL_WORKERS)%nat (seq 0 m))
         (replicate (length windows) None)
       = zip_with (fun w t => Some (segment_of_window w t))
                  (take (5 * m) windows) texts
         ++ replicate (length windows - 5 * m) None.
Proof.
  induction m as [|m IH]; intros Hm.
  - exists []. split; [reflexivity|]. simpl. rewrite Nat.sub_0_r. reflexivity.
  - destruct IH as (texts & Lt & IH); [lia|].
    rewrite seq_S, List.map_app, fold_left_app, IH.
    cbn [List.map fold_left Nat.add]. cbv zeta.
    unfold RealignLyrics.PARALLEL_WORKERS, Py.slice.
    replace (m * 5 + 5 - m * 5)%nat with 5%nat by lia.
    replace (m * 5)%nat with (5 * m)%nat by lia.
    set (batch := take 5 (drop (5 * m) windows)).
    assert (Lb : length batch = Nat.min 5 (length windows - 5 * m)).
    { unfold batch. rewrite length_take, length_drop. reflexivity. }
    assert (Lp : length (zip_with (fun w t => Some (segment_of_window w t))
                           (take (5 * m) windows) texts) = (5 * m)%nat).
    { rewrite length_zip_with, length_take. lia. }
    rewrite fill_batch_app.
    + exists (texts ++ List.map text_of (run_batch batch)). split.
      * rewrite length_app, length_map, run_batch_length, Lb, Lt. lia.
      * replace (5 * S m)%nat with (5 * m + 5)%nat by lia.
        rewrite <- take_take_drop. fold batch.
        rewrite zip_with_app by (rewrite length_take; lia).
        rewrite <- app_assoc. f_equal. f_equal.
        rewrite drop_replicate. f_equal. lia.
    + intros p w Hp. rewrite Lp. apply windows_idx.
      unfold batch in Hp. apply lookup_take_Some in Hp as [Hp _].
      rewrite lookup_drop in Hp. exact Hp.
    + apply run_batch_length.
    + rewrite length_replicate. lia.
Qed.

Lemma batches_fill :
  exists texts,
    length texts = length windows
    /\ fold_left
         (fun (segments : list (option segment)) (batch_start : nat) =>
            let batch := Py.slice windows batch_start
                           (batch_start + RealignLyrics.PARALLEL_WORKERS) in
            RealignLyrics.fill_batch segments batch (run_batch batch))
         (Py.range_step (length windows) RealignLyrics.PARALLEL_WORKERS)
         (replicate (length windows) None)
       = zip_with (fun w t => Some (segment_of_window w t)) windows texts.
Proof.
  unfold Py.range_step, RealignLyrics.PARALLEL_WORKERS.
  change (5 - 1)%nat with 4%nat.
  pose proof (Nat.div_mod_eq (length windows + 4) 5) as D.
  pose proof (Nat.mod_upper_bound (length windows + 4) 5) as U.
  destruct (batches_prefix ((length windows + 4) / 5)) as (texts & Lt & E); [lia|].
  exists texts. split; [lia|].
  unfold RealignLyrics.PARALLEL_WORKERS in E. rewrite E.
  rewrite take_ge by lia.
  replace (length windows - 5 * ((length windows + 4) / 5))%nat with 0%nat by lia.
  apply app_nil_r.
Qed.

End Batches.

(** X14: when each batch returns one result per window,
    [transcribe_song] leaves no [None] in the list it returns: entry
    number [i] carries the start and the end of window number [i],
    whatever the batches returned. *)
Theorem X14_transcribe_song_fills
    (run_batch : list RealignLyrics.window -> list (option string))
    (song_name : string) (y : list Q) :
  (forall batch, length (run_batch batch) = length batch) ->
  exists texts,
    length texts = length (RealignLyrics.windows song_name y)
    /\ RealignLyrics.transcribe_song run_batch song_name y
       = zip_with (fun w t => Some (segment_of_window w t))
                  (RealignLyrics.windows song_name y) texts.
Proof.
  intros H. unfold RealignLyrics.transcribe_song. cbv zeta.
  apply batches_fill; [exact H|].
  intros i w Hi.
  assert (E0 : 0.0 == inject_Z (5 * Z.of_nat 0)) by reflexivity.
  apply (windows_from_ok song_name y (length y) 0.0 0%nat E0 i w Hi).
Qed.

Lemma X14_transcribe_song_fills_witness :
  let run_batch := List.map (fun w : RealignLyrics.window =>
                               if (RealignLyrics.w_idx w =? 0)%nat
                               then Some "sit down be humble"%string else None) in
  let y := [0.1; 0.2; 0.1] in
  exists texts,
    length texts = length (RealignLyrics.windows "000_a_t" y)
    /\ RealignLyrics.transcribe_song run_batch "000_a_t" y
       = zip_with (fun w t => Some (segment_of_window w t))
                  (RealignLyrics.windows "000_a_t" y) texts.
Proof.
  intros run_batch y.
  apply (X14_transcribe_song_fills run_batch "000_a_t" y).
  intros batch. apply length_map.
Defined.

(** ** One song of the realignment *)

Lemma scan_no_vocals ratio lyric lw st seg :
  RealignLyrics.no_vocals (seg_text seg) = true ->
  RealignLyrics.scan ratio lyric lw st seg = st.
Proof. unfold RealignLyrics.scan. intros ->. reflexivity. Qed.

Lemma scan_vocal_segs ratio lyric lw (segments : list segment) :
  forall st,
    fold_left (RealignLyrics.scan ratio lyric lw)
              (RealignLyrics.vocal_segs segments) st
    = fold_left (RealignLyrics.scan ratio lyric lw) segments st.
Proof.
  induction segments as [|seg segments IH]; intros st; [reflexivity|].
  unfold RealignLyrics.vocal_segs in *. cbn [List.filter fold_left].
  destruct (RealignLyrics.no_vocals (seg_text seg)) eqn:E; cbn [negb fold_left].
  - rewrite scan_no_vocals by exact E. apply IH.
  - apply IH.
Qed.

(** X15: [match_lyric_to_segments] gives the same result on the
    windows and on the windows with vocals that [main] counts; with no
    such window it returns [(None, 0.0)] for every lyric, the case in
    which [main] keeps the old timestamps. *)
Theorem X15_matcher_reads_vocal_windows (ratio : string -> string -> Q)
    (lyric : string) (segments : list segment) :
  RealignLyrics.match_lyric_to_segments ratio lyric segments
  = RealignLyrics.match_lyric_to_segments ratio lyric
      (RealignLyrics.vocal_segs segments)
  /\ (RealignLyrics.vocal_segs segments = [] ->
      RealignLyrics.match_lyric_to_segments ratio lyric segments = (None, 0.0)).
Proof.
  assert (E : RealignLyrics.match_lyric_to_segments ratio lyric segments
              = RealignLyrics.match_lyric_to_segments ratio lyric
                  (RealignLyrics.vocal_segs segments)).
  { unfold RealignLyrics.match_lyric_to_segments. cbv zeta.
    destruct (RealignLyrics._words lyric); [reflexivity|].
    symmetry. apply scan_vocal_segs. }
  split; [exact E|]. intros H. rewrite E, H.
  unfold RealignLyrics.match_lyric_to_segments. cbv zeta.
  destruct (RealignLyrics._words lyric); reflexivity.
Qed.

Lemma realign_phrase_keeps ratio min_confidence segments song_dur ph :
  let r := RealignLyrics.realign_phrase ratio min_confidence segments song_dur ph in
  ph_lyric (fst r) = ph_lyric ph /\ ph_line_index (fst r) = ph_line_index ph.
Proof.
  cbv zeta. unfold RealignLyrics.realign_phrase.
  destruct (RealignLyrics.match_lyric_to_segments _ _ _) as [[seg|] c].
  - destruct (Py.geb c min_confidence).
    + destruct (RealignLyrics.refine_timestamp _ _ _ _). split; reflexivity.
    + split; reflexivity.
  - split; reflexivity.
Qed.

Lemma realign_phrase_again ratio min_confidence segments song_dur ph :
  let r := RealignLyrics.realign_phrase ratio min_confidence segments song_dur ph in
  RealignLyrics.realign_phrase ratio min_confidence segments song_dur (fst r) = r.
Proof.
  cbv zeta. unfold RealignLyrics.realign_phrase.
  destruct (RealignLyrics.match_lyric_to_segments ratio (ph_lyric ph) segments)
    as [[seg|] c] eqn:M.
  - destruct (Py.geb c min_confidence) eqn:G.
    + destruct (RealignLyrics.refine_timestamp ratio (ph_lyric ph) seg song_dur)
        as [s e] eqn:R.
      cbn [fst ph_lyric]. rewrite M, G, R. reflexivity.
    + cbn [fst ph_lyric]. rewrite M, G. reflexivity.
  - cbn [fst ph_lyric]. rewrite M. reflexivity.
Qed.

Lemma realign_step_eq ratio min_confidence segments song_dur acc st ph :
  RealignLyrics.realign_step ratio min_confidence segments song_dur (acc, st) ph
  = let r := RealignLyrics.realign_phrase ratio min_confidence segments song_dur ph in
    (acc ++ [fst r],
     if snd r
     then {| RealignLyrics.matched := RealignLyrics.matched st + 1;
             RealignLyrics.unmatched := RealignLyrics.unmatched st;
             RealignLyrics.kept_old := RealignLyrics.kept_old st |}
     else {| RealignLyrics.matched := RealignLyrics.matched st;
             RealignLyrics.unmatched := RealignLyrics.unmatched st + 1;
             RealignLyrics.kept_old := RealignLyrics.kept_old st |}).
Proof.
  unfold RealignLyrics.realign_step.
  destruct (RealignLyrics.realign_phrase _ _ _ _ _). reflexivity.
Qed.

Lemma realign_loop ratio min_confidence segments song_dur (phrases : list phrase) :
  forall (acc : list phrase) (st : RealignLyrics.stats),
    let step := RealignLyrics.realign_phrase ratio min_confidence segments song_dur in
    let r := fold_left (RealignLyrics.realign_step ratio min_confidence segments song_dur)
                       phrases (acc, st) in
    fst r = acc ++ List.map (fun ph => fst (step ph)) phrases
    /\ RealignLyrics.matched (snd r)
       = (RealignLyrics.matched st
          + length (List.filter (fun ph => snd (step ph)) phrases))%nat
    /\ RealignLyrics.unmatched (snd r)
       = (RealignLyrics.unmatched st
          + length (List.filter (fun ph => negb (snd (step ph))) phrases))%nat
    /\ RealignLyrics.kept_old (snd r) = RealignLyrics.kept_old st.
Proof.
  induction phrases as [|ph phrases IH]; intros acc st; cbv zeta.
  - simpl. rewrite app_nil_r. repeat split; lia.
  - cbn [fold_left List.map List.filter].
    rewrite realign_step_eq. cbv zeta.
    match goal with
    | |- context [fold_left _ phrases (?a, ?s)] =>
        destruct (IH a s) as (I1 & I2 & I3 & I4)
    end.
    rewrite I1, I2, I3, I4. rewrite <- app_assoc.
    destruct (snd (RealignLyrics.realign_phrase ratio min_confidence segments
                     song_dur ph));
      cbn [negb length RealignLyrics.matched
           RealignLyrics.unmatched RealignLyrics.kept_old app];
      repeat split; lia.
Qed.

Lemma filter_partition_length {A} (p : A -> bool) (l : list A) :
  (length (List.filter p l) + length (List.filter (fun x => negb (p x)) l)
   = length l)%nat.
Proof.
  induction l as [|x l IH]; [reflexivity|]. simpl.
  destruct (p x); simpl; lia.
Qed.

(** X16: one song of [main] hands [rechop_song] as many phrases as it
    read, with the same lyrics and line indices in the same order, and
    adds one to exactly one counter for each phrase. *)
Theorem X16_realign_song_keeps_phrases (ratio : string -> string -> Q)
    (min_confidence : Q) (segments : list segment) (song_dur : Q)
    (phrases : list phrase) (st : RealignLyrics.stats) :
  let r := RealignLyrics.realign_song ratio min_confidence segments song_dur
             phrases st in
  List.map ph_lyric (fst r) = List.map ph_lyric phrases
  /\ List.map ph_line_index (fst r) = List.map ph_line_index phrases
  /\ (RealignLyrics.matched (snd r) + RealignLyrics.unmatched (snd r)
      + RealignLyrics.kept_old (snd r)
      = RealignLyrics.matched st + RealignLyrics.unmatched st
        + RealignLyrics.kept_old st + length phrases)%nat.
Proof.
  cbv zeta. unfold RealignLyrics.realign_song.
  destruct (RealignLyrics.vocal_segs segments) as [|v vs].
  - cbn. repeat split; lia.
  - destruct (realign_loop ratio min_confidence segments song_dur phrases [] st)
      as (I1 & I2 & I3 & I4).
    rewrite I1, I2, I3, I4. cbn [app]. rewrite !List.map_map.
    pose proof (filter_partition_length
                  (fun ph => snd (RealignLyrics.realign_phrase ratio min_confidence
                                    segments song_dur ph)) phrases).
    repeat split; try lia;
      apply List.map_ext; intros ph; apply realign_phrase_keeps.
Qed.

(** X17: realigning the corrected phrases of a song against the same
    transcription returns them unchanged. *)
Theorem X17_realign_song_idempotent (ratio : string -> string -> Q)
    (min_confidence : Q) (segments : list segment) (song_dur : Q)
    (phrases : list phrase) (st st' : RealignLyrics.stats) :
  let corrected :=
    fst (RealignLyrics.realign_song ratio min_confidence segments song_dur
           phrases st) in
  fst (RealignLyrics.realign_song ratio min_confidence segments song_dur
         corrected st') = corrected.
Proof.
  cbv zeta. unfold RealignLyrics.realign_song.
  destruct (RealignLyrics.vocal_segs segments) as [|v vs]; [reflexivity|].
  destruct (realign_loop ratio min_confidence segments song_dur phrases [] st)
    as (I1 & _).
  rewrite I1. cbn [app].
  match goal with
  | |- fst (fold_left _ ?l (_, _)) = _ =>
      destruct (realign_loop ratio min_confidence segments song_dur l [] st')
        as (J1 & _)
  end.
  rewrite J1. cbn [app]. rewrite List.map_map. apply List.map_ext.
  intros ph. rewrite realign_phrase_again. reflexivity.
Qed.

(** ** From the matcher to the chopper *)

Lemma realign_phrase_accepted ratio min_confidence segments song_dur ph :
  snd (RealignLyrics.realign_phrase ratio min_confidence segments song_dur ph) = true ->
  exists seg c,
    RealignLyrics.match_lyric_to_segments ratio (ph_lyric ph) segments = (Some seg, c)
    /\ min_confidence <= c
    /\ fst (RealignLyrics.realign_phrase ratio min_confidence segments song_dur ph)
       = {| ph_lyric := ph_lyric ph;
            ph_start := fst (RealignLyrics.refine_timestamp ratio (ph_lyric ph) seg song_dur);
            ph_end := snd (RealignLyrics.refine_timestamp ratio (ph_lyric ph) seg song_dur);
            ph_line_index := ph_line_index ph;
            ph_confidence := Py.round3 c |}.
Proof.
  unfold RealignLyrics.realign_phrase.
  destruct (RealignLyrics.match_lyric_to_segments _ _ _) as [[seg|] c];
    [|discriminate].
  destruct (Py.geb c min_confidence) eqn:G; [|discriminate].
  destruct (RealignLyrics.refine_timestamp _ _ _ _) as [s e] eqn:R.
  intros _. exists seg, c. rewrite R. split; [reflexivity|]. split; [|reflexivity].
  apply Qle_bool_iff, G.
Qed.

(** X18: in a song at least [MIN_PHRASE_DURATION] long, a phrase whose
    match [main] accepted always passes the duration test of
    [rechop_song]: only the energy test can still drop its clip. *)
Theorem X18_accepted_phrase_fits_chopper (ratio : string -> string -> Q)
    (min_confidence : Q) (segments : list segment) (song_dur : Q) (y : list Q)
    (ph : phrase) :
  song_dur == RealignLyrics.dur y ->
  RealignLyrics.MIN_PHRASE_DURATION <= song_dur ->
  snd (RealignLyrics.realign_phrase ratio min_confidence segments song_dur ph) = true ->
  let corrected :=
    fst (RealignLyrics.realign_phrase ratio min_confidence segments song_dur ph) in
  let s := Py.max 0 (ph_start corrected - 0.05) in
  let e := Py.min (RealignLyrics.dur y) (ph_end corrected + 0.05) in
  Py.ltb (e - s) RealignLyrics.MIN_PHRASE_DURATION
  || Py.ltb (RealignLyrics.MAX_PHRASE_DURATION + 1.0) (e - s) = false.
Proof.
  intros Hd Hmin Hacc.
  destruct (realign_phrase_accepted _ _ _ _ _ Hacc) as (seg & c & M & _ & ->).
  destruct (match_some _ _ _ _ _ M) as (Hlw & _ & [_ Htw] & _).
  pose proof (refine_timestamp_bounds ratio (ph_lyric ph) seg song_dur Hlw Htw Hmin) as B.
  pose proof (round3_near song_dur) as [_ Hnear].
  destruct (RealignLyrics.refine_timestamp ratio (ph_lyric ph) seg song_dur) as [s' e'].
  destruct B as (B1 & B2 & B3 & B4 & B5).
  cbn [ph_start ph_end fst snd]. cbv zeta.
  unfold RealignLyrics.MIN_PHRASE_DURATION, RealignLyrics.MAX_PHRASE_DURATION in *.
  apply orb_false_iff. split; apply ltb_false; minmax; lra.
Qed.

Lemma X18_accepted_phrase_fits_chopper_witness :
  let y := replicate (Z.to_nat 44100) 0 in
  let segments := [ {| seg_start := 0; seg_end := 1; seg_text := "sit down be humble" |} ] in
  let ph := {| ph_lyric := "be humble"; ph_start := 7; ph_end := 9;
               ph_line_index := 3; ph_confidence := 0 |} in
  let corrected :=
    fst (RealignLyrics.realign_phrase Difflib.ratio 0.30 segments
           (RealignLyrics.dur y) ph) in
  let s := Py.max 0 (ph_start corrected - 0.05) in
  let e := Py.min (RealignLyrics.dur y) (ph_end corrected + 0.05) in
  Py.ltb (e - s) RealignLyrics.MIN_PHRASE_DURATION
  || Py.ltb (RealignLyrics.MAX_PHRASE_DURATION + 1.0) (e - s) = false.
Proof.
  intros y segments ph.
  apply (X18_accepted_phrase_fits_chopper Difflib.ratio 0.30 segments
           (RealignLyrics.dur y) y ph).
  - reflexivity.
  - vm_compute. discriminate.
  - vm_compute. reflexivity.
Defined.

Lemma filter_map_le {A B} (p : A -> bool) (q : B -> bool) (f : A -> B) (l : list A) :
  (forall x, p x = true -> q (f x) = true) ->
  (length (List.filter p l) <= length (List.filter q (List.map f l)))%nat.
Proof.
  intros H. induction l as [|x l IH]; [reflexivity|]. simpl.
  destruct (p x) eqn:P.
  - rewrite (H x P). simpl. lia.
  - destruct (q (f x)); simpl; lia.
Qed.

(** X19: for a threshold given to the millisecond, the phrases [main]
    counts as matched are among those it prints as "Aligned" (whose
    rounded confidence reaches the threshold). *)
Theorem X19_aligned_count_covers_matched (ratio : string -> string -> Q)
    (min_confidence : Q) (segments : list segment) (song_dur : Q)
    (phrases : list phrase) (st : RealignLyrics.stats) :
  Py.round3 min_confidence == min_confidence ->
  let r := RealignLyrics.realign_song ratio min_confidence segments song_dur
             phrases st in
  (RealignLyrics.matched (snd r)
   <= RealignLyrics.matched st
      + RealignLyrics.aligned_count min_confidence (fst r))%nat.
Proof.
  intros Hm. cbv zeta. unfold RealignLyrics.realign_song.
  destruct (RealignLyrics.vocal_segs segments) as [|v vs]; [cbn; lia|].
  destruct (realign_loop ratio min_confidence segments song_dur phrases [] st)
    as (I1 & I2 & _).
  rewrite I1, I2. cbn [app]. unfold RealignLyrics.aligned_count.
  apply Nat.add_le_mono_l. apply filter_map_le.
  intros ph Hacc.
  destruct (realign_phrase_accepted _ _ _ _ _ Hacc) as (seg & c & _ & Hc & ->).
  cbn [ph_confidence]. apply Qle_bool_iff.
  rewrite <- Hm. apply round3_mono, Hc.
Qed.

Lemma X19_aligned_count_covers_matched_witness :
  let segments := [ {| seg_start := 0; seg_end := 10; seg_text := "sit down be humble" |} ] in
  let phrases := [ {| ph_lyric := "be humble"; ph_start := 7; ph_end := 9;
                      ph_line_index := 3; ph_confidence := 0 |};
                   {| ph_lyric := "money trees"; ph_start := 11; ph_end := 13;
                      ph_line_index := 4; ph_confidence := 0 |} ] in
  let st := {| RealignLyrics.matched := 0; RealignLyrics.unmatched := 0;
               RealignLyrics.kept_old := 0 |} in
  let r := RealignLyrics.realign_song Difflib.ratio 0.30 segments 10 phrases st in
  (RealignLyrics.matched (snd r)
   <= RealignLyrics.matched st
      + RealignLyrics.aligned_count 0.30 (fst r))%nat.
Proof.
  intros segments phrases st.
  apply (X19_aligned_count_covers_matched Difflib.ratio 0.30 segments 10 phrases st).
  vm_compute. reflexivity.
Defined.

(** ** Songs too short for a clip *)

Lemma emitted_short_song rms y tolerance phrases :
  inject_Z (Z.of_nat (length y)) / 44100 < 0.6 ->
  ClipSpec.emitted rms y tolerance phrases = [].
Proof.
  intros H. unfold ClipSpec.emitted.
  induction (Py.enumerate (take 50 phrases)) as [|cp l IH]; [reflexivity|].
  cbn [List.filter]. rewrite IH.
  unfold ClipSpec.clip_emitted, ClipSpec.padded.
  set (d := inject_Z (Z.of_nat (length y)) / 44100) in *.
  assert (Qle_bool 0.6 (Qmin d (ph_end (snd cp) + 0.05)
                        - Qmax 0 (ph_start (snd cp) - 0.05)) = false) as ->.
  { rewrite le_bool_ltb. apply negb_false_iff, ltb_true.
    pose proof (Q.le_min_l d (ph_end (snd cp) + 0.05)).
    pose proof (Q.le_max_l 0 (ph_start (snd cp) - 0.05)). lra. }
  reflexivity.
Qed.

(** X20: a song shorter than [MIN_PHRASE_DURATION] yields no clip,
    whatever its phrases, in [chop_song_by_phrases] and in
    [rechop_song]. *)
Theorem X20_short_song_has_no_clips (rms : list Q -> Q) (y : list Q)
    (phrases : list phrase) (artist title : string) (song_idx : Z) :
  BuildRapDb.duration y < BuildRapDb.MIN_PHRASE_DURATION ->
  BuildRapDb.chop_song_by_phrases rms y phrases artist title song_idx = []
  /\ RealignLyrics.rechop_song rms y phrases artist title song_idx = [].
Proof.
  intros H. rewrite chop_song_emitted, rechop_song_emitted.
  rewrite !emitted_short_song by exact H. split; reflexivity.
Qed.

Lemma X20_short_song_has_no_clips_witness :
  let y := [0.5; 0.5; 0.5] in
  let phrases := [ {| ph_lyric := "be humble"; ph_start := 0; ph_end := 2;
                      ph_line_index := 0; ph_confidence := 0 |} ] in
  BuildRapDb.chop_song_by_phrases (fun _ => 0.5) y phrases "a" "t" 7 = []
  /\ RealignLyrics.rechop_song (fun _ => 0.5) y phrases "a" "t" 7 = [].
Proof.
  intros y phrases.
  apply (X20_short_song_has_no_clips (fun _ => 0.5) y phrases "a" "t" 7).
  vm_compute. reflexivity.
Defined.

(** ** The matching blocks lie in both strings *)

Section BlocksB.
Variables a b : list ascii.
Variables alo blo bhi : nat.

Lemma row_inv_b (i : nat) (st : gmap nat nat * (nat * nat * nat)) :
  rows_inv_b blo bhi st ->
  rows_inv_b blo bhi (Difflib.row a b blo bhi i st.1 st.2).
Proof.
  intros (Hlen & Hlo & Hhi). unfold Difflib.row.
  destruct (a !! i) as [c|];
    [|split; [intros j k H; inversion H|cbn [fst snd]; lia]].
  assert (G : forall (l : list nat) (acc : gmap nat nat * (nat * nat * nat)),
             rows_inv_b blo bhi acc ->
             rows_inv_b blo bhi
               (fold_left
                  (fun (st0 : gmap nat nat * (nat * nat * nat)) (j : nat) =>
                     let '(newj2len, (besti, bestj, bestsize)) := st0 in
                     if (j <? blo)%nat then st0
                     else if (bhi <=? j)%nat then st0
                     else
                       let k := (match j with
                                 | O => 0
                                 | S j' => default 0 (st.1 !! j')
                                 end + 1)%nat in
                       (<[j := k]> newj2len,
                        if (bestsize <? k)%nat
                        then ((i + 1 - k)%nat, (j + 1 - k)%nat, k)
                        else (besti, bestj, bestsize))) l acc)).
  { induction l as [|j l IH]; intros acc Hacc; [exact Hacc|].
    cbn [fold_left]. apply IH.
    destruct acc as [new [[bi bj] bk]]. destruct Hacc as (A1 & A2 & A3).
    cbn [fst snd] in *.
    destruct (Nat.ltb_spec j blo) as [J1|J1]; [exact (conj A1 (conj A2 A3))|].
    destruct (Nat.leb_spec bhi j) as [J2|J2]; [exact (conj A1 (conj A2 A3))|].
    set (k := (_ + 1)%nat).
    assert (Hk : (blo + k <= j + 1)%nat).
    { unfold k. destruct j as [|j']; [lia|].
      destruct (st.1 !! j') as [k'|] eqn:E; simpl; [|lia].
      destruct (Hlen _ _ E). lia. }
    split; [|destruct (bk <? k)%nat eqn:B; cbn [fst snd]; lia].
    intros j0 k0. cbn [fst]. rewrite lookup_insert_Some.
    intros [[<- <-]|[_ H]]; [split; [exact Hk|exact J2]|apply (A1 _ _ H)]. }
  apply G. split; [intros j k H; inversion H|].
  destruct st as [m [[bi bj] bk]]. cbn [fst snd] in *. lia.
Qed.

Lemma rows_inv_b_fold (l : list nat) (st : gmap nat nat * (nat * nat * nat)) :
  rows_inv_b blo bhi st ->
  rows_inv_b blo bhi
    (fold_left (fun st i => Difflib.row a b blo bhi i st.1 st.2) l st).
Proof.
  revert st. induction l as [|i l IH]; intros st Hst; cbn [fold_left].
  - exact Hst.
  - apply IH. apply row_inv_b. exact Hst.
Qed.

Lemma extend_left_inv_b (besti bestj bestsize : nat) :
  (blo <= bestj)%nat ->
  let r := Difflib.extend_left a b alo blo besti bestj bestsize in
  (blo <= r.1.2)%nat /\ (r.1.2 + r.2 = bestj + bestsize)%nat.
Proof.
  revert bestj bestsize. induction besti as [|i IH]; intros bestj bestsize Hlo;
    cbn [Difflib.extend_left].
  - simpl. lia.
  - destruct bestj as [|j]; [simpl; lia|].
    destruct (Nat.leb_spec alo i) as [L|L]; cbn [andb]; [|simpl; lia].
    destruct (Nat.leb_spec blo j) as [L'|L']; cbn [andb]; [|simpl; lia].
    destruct (Difflib.same_at a b i j); [|simpl; lia].
    destruct (IH j (S bestsize) L') as [H1 H2]. cbn zeta. lia.
Qed.

Lemma extend_right_inv_b (rounds ahi besti bestj bestsize : nat) :
  (bestj + bestsize <= bhi)%nat ->
  let r := Difflib.extend_right a b rounds ahi bhi besti bestj bestsize in
  r.1.2 = bestj /\ (bestj + r.2 <= bhi)%nat.
Proof.
  revert bestsize. induction rounds as [|rounds IH]; intros bestsize Hhi;
    cbn [Difflib.extend_right]; [simpl; lia|].
  destruct (besti + bestsize <? ahi)%nat; cbn [andb]; [|simpl; lia].
  destruct (Nat.ltb_spec (bestj + bestsize) bhi) as [L|L]; cbn [andb]; [|simpl; lia].
  destruct (Difflib.same_at a b _ _); [|simpl; lia].
  apply IH. lia.
Qed.

(** The longest match lies inside the region of [b] it was looked for in. *)
Lemma find_longest_match_bounds_b (ahi : nat) :
  (blo <= bhi)%nat ->
  let r := Difflib.find_longest_match a b alo ahi blo bhi in
  (blo <= r.1.2)%nat /\ (r.1.2 + r.2 <= bhi)%nat.
Proof.
  intros Hr. unfold Difflib.find_longest_match.
  pose proof (rows_inv_b_fold (seq alo (ahi - alo)) (∅, (alo, blo, 0%nat))) as R.
  destruct R as (_ & R1 & R2).
  { split; [intros j k H; inversion H|cbn [fst snd]; lia]. }
  change (fun (st : gmap nat nat * (nat * nat * nat)) (i : nat) =>
            Difflib.row a b blo bhi i st.1 st.2)
    with (fun (st : gmap nat nat * (nat * nat * nat)) (i : nat) =>
            Difflib.row a b blo bhi i (fst st) (snd st)) in *.
  destruct (fold_left _ (seq alo (ahi - alo)) _) as [m [[bi bj] bk]].
  cbn [fst snd] in *.
  pose proof (extend_left_inv_b bi bj bk R1) as [L1 L2].
  destruct (Difflib.extend_left a b alo blo bi bj bk) as [[bi' bj'] bk'].
  cbn [fst snd] in *.
  pose proof (extend_right_inv_b ahi ahi bi' bj' bk' ltac:(lia)) as [E1 E2].
  cbn zeta in *. rewrite E1. lia.
Qed.

End BlocksB.

Lemma matched_total_app (blocks : list (nat * nat * nat)) (x : nat * nat * nat) :
  matched_total (blocks ++ [x]) = (matched_total blocks + snd x)%nat.
Proof. unfold matched_total. rewrite fold_left_app. reflexivity. Qed.

Lemma span_a_cons (alo ahi blo bhi : nat) (queue : list (nat * nat * nat * nat)) :
  span_a ((alo, ahi, blo, bhi) :: queue) = (ahi - alo + span_a queue)%nat.
Proof. reflexivity. Qed.

Lemma span_b_cons (alo ahi blo bhi : nat) (queue : list (nat * nat * nat * nat)) :
  span_b ((alo, ahi, blo, bhi) :: queue) = (bhi - blo + span_b queue)%nat.
Proof. reflexivity. Qed.

Lemma matching_blocks_within (a b : list ascii) (rounds : nat) :
  forall (queue : list (nat * nat * nat * nat)) (blocks res : list (nat * nat * nat)),
    Forall region_ok_ab queue ->
    Difflib.matching_blocks a b rounds queue blocks = Some res ->
    (matched_total res <= matched_total blocks + span_a queue)%nat
    /\ (matched_total res <= matched_total blocks + span_b queue)%nat.
Proof.
  induction rounds as [|rounds IH]; intros queue blocks res Hok H.
  - destruct queue as [|[[[alo ahi] blo] bhi] queue]; [|discriminate].
    injection H as <-. lia.
  - destruct queue as [|[[[alo ahi] blo] bhi] queue].
    { injection H as <-. lia. }
    cbn [Difflib.matching_blocks] in H.
    inversion Hok as [|r q [Ha Hb] Hq]; subst. cbn [fst snd] in Ha, Hb.
    pose proof (find_longest_match_bounds a b alo blo bhi ahi Ha) as [A1 A2].
    pose proof (find_longest_match_bounds_b a b alo blo bhi ahi Hb) as [B1 B2].
    destruct (Difflib.find_longest_match a b alo ahi blo bhi) as [[i j] k].
    cbn [fst snd] in *. rewrite span_a_cons, span_b_cons.
    destruct (k =? 0)%nat eqn:K0.
    + destruct (IH _ _ _ Hq H). lia.
    + apply Nat.eqb_neq in K0. apply IH in H.
      * rewrite matched_total_app in H. cbn [snd] in H.
        destruct ((alo <? i)%nat && (blo <? j)%nat),
                 ((i + k <? ahi)%nat && (j + k <? bhi)%nat);
          rewrite ?span_a_cons, ?span_b_cons in H; lia.
      * destruct ((alo <? i)%nat && (blo <? j)%nat),
                 ((i + k <? ahi)%nat && (j + k <? bhi)%nat);
          repeat (apply Forall_cons; split);
          try exact Hq; unfold region_ok_ab; cbn [fst snd]; lia.
Qed.

Lemma difflib_ratio_range (a b : string) :
  0 <= Difflib.ratio a b /\ Difflib.ratio a b <= 1.
Proof.
  destruct (ratio_blocks a b) as (blocks & E & ->).
  set (la := list_ascii_of_string a) in *. set (lb := list_ascii_of_string b) in *.
  unfold Difflib.get_matching_blocks in E.
  apply matching_blocks_within in E as [Ea Eb].
  2:{ repeat constructor; cbn [fst snd]; lia. }
  unfold span_a, span_b, matched_total in Ea, Eb. cbn in Ea, Eb.
  unfold Difflib.ratio_of_blocks, Difflib.calculate_ratio.
  fold (matched_total blocks) in *.
  destruct (Nat.eqb_spec (length la + length lb) 0) as [Z0|NZ]; [split; lra|].
  unfold Py.of_int. split.
  - apply Qle_shift_div_l.
    + change 0 with (inject_Z 0). rewrite <- Zlt_Qlt. lia.
    + rewrite Qmult_0_l. change 2 with (inject_Z 2). rewrite <- inject_Z_mult.
      change 0 with (inject_Z 0). rewrite <- Zle_Qle. lia.
  - apply Qle_shift_div_r.
    + change 0 with (inject_Z 0). rewrite <- Zlt_Qlt. lia.
    + rewrite Qmult_1_l. change 2 with (inject_Z 2). rewrite <- inject_Z_mult.
      rewrite <- Zle_Qle. lia.
Qed.

(** ** The range of the confidence *)

Lemma overlap_le_1 (lw tw : list string) : RealignLyrics.overlap lw tw <= 1.
Proof.
  unfold RealignLyrics.overlap.
  set (lset := list_to_set lw : gset string).
  set (tset := list_to_set tw : gset string).
  destruct (Nat.eqb_spec (size lset) 0) as [E|N]; [lra|].
  assert (size (lset ∩ tset) <= size lset)%nat
    by (apply subseteq_size, intersection_subseteq_l).
  unfold Py.of_int. apply Qle_shift_div_r.
  - change 0 with (inject_Z 0). rewrite <- Zlt_Qlt. lia.
  - rewrite Qmult_1_l, <- Zle_Qle. lia.
Qed.

Lemma matches_at_bounds ratio thr (lw tw : list string) (i : nat) :
  (0 <= RealignLyrics.matches_at ratio thr lw tw i <= Py.len lw)%Z.
Proof.
  unfold RealignLyrics.matches_at, Py.len.
  match goal with |- context [List.filter ?p ?l] =>
    pose proof (filter_length_le p l) as F;
    assert (length l <= length lw)%nat as Z_
  end.
  { rewrite length_zip_with. lia. }
  lia.
Qed.

Lemma consec_bounds ratio (lw tw : list string) :
  0 <= RealignLyrics.consec ratio lw tw /\ RealignLyrics.consec ratio lw tw <= 1.
Proof.
  unfold RealignLyrics.consec.
  destruct (Z.leb_spec 2 (Py.len lw)) as [H|H]; [|split; lra].
  assert (G : forall l acc, 0 <= acc /\ acc <= 1 ->
            let r := fold_left
                       (fun (consec : Q) (i : nat) =>
                          Py.max consec
                            (Py.of_int (RealignLyrics.matches_at ratio 0.75 lw tw i)
                             / Py.of_int (Py.len lw))) l acc in
            0 <= r /\ r <= 1).
  { induction l as [|i l IH]; intros acc Hacc; [exact Hacc|].
    cbn [fold_left]. apply IH.
    pose proof (matches_at_bounds ratio 0.75 lw tw i) as [M0 M1].
    assert (Py.of_int (RealignLyrics.matches_at ratio 0.75 lw tw i)
            / Py.of_int (Py.len lw) <= 1).
    { unfold Py.of_int. apply Qle_shift_div_r.
      - change 0 with (inject_Z 0). rewrite <- Zlt_Qlt. lia.
      - rewrite Qmult_1_l, <- Zle_Qle. lia. }
    minmax; lra. }
  apply G. split; lra.
Qed.

Lemma score_bounds ratio lyric lw text tw :
  (forall a b, ratio a b <= 1) ->
  RealignLyrics.score ratio lyric lw text tw <= 1.
Proof.
  intros Hr. unfold RealignLyrics.score, Py.max3, RealignLyrics.seq_ratio.
  pose proof (overlap_le_1 lw tw). pose proof (overlap_nonneg lw tw).
  pose proof (consec_bounds ratio lw tw) as [? ?].
  pose proof (Hr (RealignLyrics._clean lyric) (RealignLyrics._clean text)).
  apply Q.max_lub; [apply Q.max_lub|]; lra.
Qed.

Lemma match_confidence_range ratio lyric segments :
  (forall a b, ratio a b <= 1) ->
  let c := snd (RealignLyrics.match_lyric_to_segments ratio lyric segments) in
  0 <= c /\ c <= 1.
Proof.
  intros Hr. cbv zeta. pose proof (match_inv ratio lyric segments) as I.
  unfold scan_inv in I.
  destruct (RealignLyrics.match_lyric_to_segments ratio lyric segments)
    as [[seg|] c]; cbn [fst snd] in *.
  - destruct I as (_ & _ & -> & P). split; [lra|].
    unfold score_of. apply score_bounds, Hr.
  - rewrite I. split; lra.
Qed.

(** X21: with a string similarity that never exceeds 1, the confidence
    [main] records in a phrase and the confidence [grok_align_line]
    returns lie between 0 and 1. *)
Theorem X21_recorded_confidence_range (ratio : string -> string -> Q)
    (min_confidence : Q) (segments : list segment) (song_dur : Q) (ph : phrase)
    (duration : Q) :
  (forall a b, ratio a b <= 1) ->
  let corrected :=
    fst (RealignLyrics.realign_phrase ratio min_confidence segments song_dur ph) in
  let confidence :=
    snd (BuildRapDb.grok_align_line ratio (ph_lyric ph) segments duration) in
  (0 <= ph_confidence corrected /\ ph_confidence corrected <= 1)
  /\ (0 <= confidence /\ confidence <= 1).
Proof.
  intros Hr. cbv zeta.
  pose proof (match_confidence_range ratio (ph_lyric ph) segments Hr) as [C0 C1].
  cbv zeta in C0, C1.
  assert (R : 0 <= Py.round3 (snd (RealignLyrics.match_lyric_to_segments ratio
                                     (ph_lyric ph) segments))
              /\ Py.round3 (snd (RealignLyrics.match_lyric_to_segments ratio
                                   (ph_lyric ph) segments)) <= 1).
  { apply round3_mono in C0, C1.
    rewrite (round3_Z 0) in C0. rewrite (round3_Z 1000) in C1.
    assert (inject_Z 0 / 1000 == 0) as E0 by reflexivity.
    assert (inject_Z 1000 / 1000 == 1) as E1 by reflexivity.
    rewrite E0 in C0. rewrite E1 in C1. split; [exact C0|exact C1]. }
  split.
  - destruct (realign_phrase_accepts ratio min_confidence segments song_dur ph)
      as (_ & _ & ->). exact R.
  - rewrite grok_align_line_eq.
    destruct (RealignLyrics.match_lyric_to_segments ratio (ph_lyric ph) segments)
      as [[seg|] c]; cbn [fst snd] in *; [|split; lra].
    destruct (Py.ltb c 0.15); [cbn; split; lra|].
    destruct (RealignLyrics.refine_timestamp _ _ _ _). exact R.
Qed.

Lemma X21_recorded_confidence_range_witness :
  let segments := [ {| seg_start := 0; seg_end := 10; seg_text := "sit down be humble" |} ] in
  let ph := {| ph_lyric := "be humble"; ph_start := 7; ph_end := 9;
               ph_line_index := 3; ph_confidence := 0 |} in
  let corrected :=
    fst (RealignLyrics.realign_phrase Difflib.ratio 0.30 segments 10 ph) in
  let confidence :=
    snd (BuildRapDb.grok_align_line Difflib.ratio (ph_lyric ph) segments 10) in
  (0 <= ph_confidence corrected /\ ph_confidence corrected <= 1)
  /\ (0 <= confidence /\ confidence <= 1).
Proof.
  intros segments ph.
  apply (X21_recorded_confidence_range Difflib.ratio 0.30 segments 10 ph 10).
  intros a b. apply difflib_ratio_range.
Defined.

(** ** The words of the matcher *)

Lemma re_sub_not_chars (keep : ascii -> bool) (s : string) (c : ascii) :
  In c (list_ascii_of_string (Py.re_sub_not keep s)) -> keep c = true.
Proof.
  induction s as [|d s IH]; simpl; [tauto|].
  destruct (keep d) eqn:E; simpl; [|exact IH].
  intros [<-|H]; [exact E|exact (IH H)].
Qed.

Lemma split_from_pieces (s : string) : forall w,
  (forall c, In c (list_ascii_of_string w) -> Py.isspace c = false) ->
  Forall (fun piece =>
            piece <> EmptyString
            /\ forall c, In c (list_ascii_of_string piece) ->
                         Py.isspace c = false
                         /\ (In c (list_ascii_of_string w)
                             \/ In c (list_ascii_of_string s)))
         (Py.split_from w s).
Proof.
  induction s as [|d s IH]; intros w Hw; cbn [Py.split_from].
  - destruct w as [|e w]; constructor; [|constructor].
    split; [discriminate|]. intros c Hc. split; [apply Hw, Hc|left; exact Hc].
  - destruct (Py.isspace d) eqn:E.
    + assert (T : Forall (fun piece =>
                piece <> EmptyString
                /\ forall c, In c (list_ascii_of_string piece) ->
                             Py.isspace c = false
                             /\ (In c (list_ascii_of_string w)
                                 \/ In c (list_ascii_of_string (String d s))))
                (Py.split_from EmptyString s)).
      { eapply Forall_impl; [apply (IH EmptyString); intros c []|].
        cbv beta. intros piece [P1 P2]. split; [exact P1|].
        intros c Hc. destruct (P2 c Hc) as [S [[]|R]].
        split; [exact S|]. right. simpl. tauto. }
      destruct w as [|e w]; [exact T|].
      constructor; [|exact T].
      split; [discriminate|]. intros c Hc. split; [apply Hw, Hc|left; exact Hc].
    + eapply Forall_impl; [apply IH|].
      * intros c. rewrite append_chars, in_app_iff. simpl.
        intros [H|[<-|[]]]; [apply Hw, H|exact E].
      * cbv beta. intros piece [P1 P2]. split; [exact P1|].
        intros c Hc. destruct (P2 c Hc) as [S R]. split; [exact S|].
        rewrite append_chars, in_app_iff in R. simpl in *. tauto.
Qed.

(** X22: every word the matcher compares is non-empty and made of
    lower-case letters, digits and apostrophes only; both scripts split a
    text into the same words. *)
Theorem X22_words_are_clean (s : string) :
  Forall (fun w => w <> EmptyString
                   /\ forallb word_char (list_ascii_of_string w) = true)
         (RealignLyrics._words s)
  /\ BuildRapDb._words s = RealignLyrics._words s.
Proof.
  split; [|reflexivity].
  unfold RealignLyrics._words, Py.split.
  eapply Forall_impl; [apply split_from_pieces; intros c []|].
  cbv beta. intros w [P1 P2]. split; [exact P1|].
  apply forallb_forall. intros c Hc. destruct (P2 c Hc) as [S [[]|R]].
  unfold RealignLyrics._clean, Py.strip in R.
  apply rstrip_chars, lstrip_chars, re_sub_not_chars in R.
  unfold RealignLyrics.clean_keeps in R. unfold word_char.
  rewrite S, orb_false_r in R. exact R.
Qed.

(** ** The clean lists *)

Lemma filter_sublist {A} (p q : A -> bool) (l : list A) :
  (forall x, p x = true -> q x = true) ->
  sublist (List.filter p l) (List.filter q l).
Proof.
  intros H. induction l as [|x l IH]; simpl; [constructor|].
  destruct (p x) eqn:P.
  - rewrite (H x P). constructor. exact IH.
  - destruct (q x); [constructor|]; exact IH.
Qed.

(** X23: on the same clips, [generate_outputs] of the two scripts write
    the same full lists, and the clean lists of [build_rap_db.py] are
    sublists of those of [realign_lyrics.py]: regenerating the outputs
    after a realignment removes no clip from the clean lists. *)
Theorem X23_clean_lists_grow (all_clips : list (string * clip)) :
  let '(all_b, clean_b, lyrics_clean_b, lyrics_b) :=
    BuildRapDb.generate_outputs all_clips in
  let '(all_r, clean_r, lyrics_r, lyrics_clean_r) :=
    RealignLyrics.generate_outputs all_clips in
  all_b = all_r /\ lyrics_b = lyrics_r
  /\ sublist clean_b clean_r /\ sublist lyrics_clean_b lyrics_clean_r.
Proof.
  unfold BuildRapDb.generate_outputs, RealignLyrics.generate_outputs.
  assert (S : sublist (BuildRapDb.clean_clips all_clips)
                      (RealignLyrics.clean all_clips)).
  { apply filter_sublist. intros fc H.
    rewrite explicit_words_extended in H.
    destruct (RealignLyrics.is_explicit _); [discriminate|reflexivity]. }
  repeat split; try reflexivity; apply fmap_sublist, S.
Qed.

(** ** The onset segments stay in time order *)

Lemma ordered_from_weaken (lo lo' : Q) (segments : list (Q * Q)) :
  lo' <= lo -> ordered_from lo segments -> ordered_from lo' segments.
Proof.
  destruct segments as [|[s e] rest]; simpl; [tauto|].
  intros H (H1 & H2 & H3). repeat split; try assumption. lra.
Qed.

Lemma last_end_app (lo : Q) (l1 l2 : list (Q * Q)) :
  last_end lo (l1 ++ l2) = last_end (last_end lo l1) l2.
Proof.
  revert lo. induction l1 as [|[s e] l1 IH]; intros lo; simpl; [reflexivity|].
  apply IH.
Qed.

Lemma ordered_from_app (lo : Q) (l1 l2 : list (Q * Q)) :
  ordered_from lo (l1 ++ l2)
  <-> ordered_from lo l1 /\ ordered_from (last_end lo l1) l2.
Proof.
  revert lo. induction l1 as [|[s e] l1 IH]; intros lo; simpl; [tauto|].
  rewrite IH. tauto.
Qed.

Lemma ordered_last_end (lo : Q) (segments : list (Q * Q)) :
  ordered_from lo segments -> lo <= last_end lo segments.
Proof.
  revert lo. induction segments as [|[s e] rest IH]; intros lo; simpl.
  - intros _. lra.
  - intros (H1 & H2 & H3). specialize (IH e H3). lra.
Qed.

Lemma seg_at_middle (segments : list (Q * Q)) (k : nat) :
  (k < length segments)%nat ->
  segments = take k segments ++ BuildRapDb.seg_at segments k :: drop (S k) segments.
Proof.
  intros H. destruct (lookup_lt_is_Some_2 segments k H) as [x E].
  unfold BuildRapDb.seg_at.
  rewrite (nth_lookup_Some segments k (0, 0) x E).
  symmetry. apply take_drop_middle, E.
Qed.

Lemma bisect_longest_ordered (lo : Q) (segments : list (Q * Q)) :
  (0 < length segments)%nat ->
  ordered_from lo segments -> ordered_from lo (BuildRapDb.bisect_longest segments).
Proof.
  intros Hn H. unfold BuildRapDb.bisect_longest. cbv zeta.
  set (k := BuildRapDb.argmax _ _).
  assert (Hk : (k < length segments)%nat) by (apply argmax_lt, Hn).
  rewrite (seg_at_middle segments k Hk) in H.
  destruct (BuildRapDb.seg_at segments k) as [s e].
  apply ordered_from_app in H as [H1 H2]. simpl in H2.
  destruct H2 as (A & B & C).
  apply ordered_from_app. split; [exact H1|].
  replace (k + 1)%nat with (S k) by lia. simpl.
  assert (s <= (s + e) / 2 /\ (s + e) / 2 <= e) as [M1 M2].
  { assert ((s + e) / 2 == (s + e) * (1 # 2)) as -> by (unfold Qdiv; reflexivity).
    split; lra. }
  repeat split; try assumption; lra.
Qed.

Lemma merge_closest_ordered (lo : Q) (segments : list (Q * Q)) :
  (1 < length segments)%nat ->
  ordered_from lo segments -> ordered_from lo (BuildRapDb.merge_closest segments).
Proof.
  intros Hn H. unfold BuildRapDb.merge_closest. cbv zeta.
  set (k := BuildRapDb.argmin _ _).
  assert (Hk : (k < length segments - 1)%nat) by (apply argmin_lt; lia).
  destruct (lookup_lt_is_Some_2 segments k) as [[s1 e1] E1]; [lia|].
  destruct (lookup_lt_is_Some_2 segments (k + 1)) as [[s2 e2] E2]; [lia|].
  unfold BuildRapDb.seg_at.
  rewrite (nth_lookup_Some segments k (0, 0) _ E1).
  rewrite (nth_lookup_Some segments (k + 1) (0, 0) _ E2). cbn [fst snd].
  rewrite <- (take_drop_middle segments k _ E1) in H.
  replace (k + 1)%nat with (S k) in E2 by lia.
  rewrite (drop_S segments _ (S k) E2) in H.
  apply ordered_from_app in H as [H1 H2]. simpl in H2.
  destruct H2 as (A & B & C & D & F).
  apply ordered_from_app. split; [exact H1|].
  replace (k + 2)%nat with (S (S k)) by lia. simpl.
  repeat split; try assumption; lra.
Qed.

Lemma split_loop_ordered (lo : Q) (rounds num_lines : nat) :
  forall segments : list (Q * Q),
    (0 < length segments)%nat -> ordered_from lo segments ->
    ordered_from lo (BuildRapDb.split_loop rounds num_lines segments).
Proof.
  induction rounds as [|rounds IH]; intros segments Hn H; [exact H|].
  cbn [BuildRapDb.split_loop].
  destruct (length segments <? num_lines)%nat; [|exact H].
  apply IH.
  - rewrite bisect_longest_length by exact Hn. lia.
  - apply bisect_longest_ordered; assumption.
Qed.

Lemma merge_loop_ordered (lo : Q) (rounds num_lines : nat) :
  forall segments : list (Q * Q),
    ordered_from lo segments ->
    ordered_from lo (BuildRapDb.merge_loop rounds num_lines segments).
Proof.
  induction rounds as [|rounds IH]; intros segments H; [exact H|].
  cbn [BuildRapDb.merge_loop].
  destruct (num_lines <? length segments)%nat; cbn [andb]; [|exact H].
  destruct (Nat.ltb_spec 1 (length segments)) as [L|L]; [|exact H].
  apply IH. apply merge_closest_ordered; assumption.
Qed.

Lemma raw_segments_ordered (t0 : Q) (rest : list Q) :
  StronglySorted Qle (t0 :: rest) ->
  ordered_from t0 (BuildRapDb.raw_segments (t0 :: rest)).
Proof.
  intros S. unfold BuildRapDb.raw_segments.
  assert (G : forall (l : list Q) (st : list (Q * Q) * Q * Q),
             StronglySorted Qle l ->
             Forall (Qle st.2) l ->
             ordered_from t0 st.1.1 ->
             last_end t0 st.1.1 <= st.1.2 -> st.1.2 <= st.2 ->
             let r := fold_left
                        (fun (st : list (Q * Q) * Q * Q) (t : Q) =>
                           let '(segments, seg_start, seg_end) := st in
                           if Py.ltb (t - seg_end) 0.3 then (segments, seg_start, t)
                           else (segments ++ [(seg_start, seg_end)], t, t))
                        l st in
             ordered_from t0 (r.1.1 ++ [(r.1.2, r.2)])).
  { induction l as [|t l IH]; intros [[segs ss] se] Sl Fl O L1 L2; cbn [fst snd] in *.
    - cbv zeta. cbn [fold_left fst snd].
      apply ordered_from_app. split; [exact O|]. simpl. tauto.
    - cbv zeta. cbn [fold_left].
      inversion Sl as [|? ? Sl' Ft]; subst.
      inversion Fl as [|? ? Hse Fl']; subst.
      destruct (Py.ltb (t - se) 0.3).
      + apply IH; cbn [fst snd]; try assumption. lra.
      + apply IH; cbn [fst snd]; try assumption.
        * apply ordered_from_app. split; [exact O|]. simpl. tauto.
        * rewrite last_end_app. simpl. exact Hse.
        * lra. }
  inversion S as [|? ? S' F]; subst.
  specialize (G rest ([], t0, t0) S' F). cbn [fst snd] in G.
  destruct (fold_left _ rest _) as [[segs ss] se]. cbn [fst snd] in G.
  apply G; simpl; try tauto; lra.
Qed.

Lemma ordered_lookup (segments : list (Q * Q)) :
  forall (lo : Q) (i : nat) (s e s' e' : Q),
    ordered_from lo segments ->
    segments !! i = Some (s, e) -> segments !! S i = Some (s', e') ->
    s <= e /\ e <= s'.
Proof.
  induction segments as [|[s0 e0] rest IH]; intros lo i s e s' e' H E1 E2;
    [discriminate|].
  destruct H as (H1 & H2 & H3).
  destruct i as [|i].
  - injection E1 as -> ->. destruct rest as [|[s1 e1] rest]; [discriminate|].
    injection E2 as -> ->. destruct H3 as (H3 & _). split; assumption.
  - apply (IH e0 i s e s' e' H3 E1 E2).
Qed.

Lemma in_order_lookup (timestamps : list (Q * Q)) :
  (forall i a b a' b',
      timestamps !! i = Some (a, b) -> timestamps !! S i = Some (a', b') ->
      a <= a' /\ b <= Qmax a' (a + BuildRapDb.MIN_PHRASE_DURATION)) ->
  in_order timestamps.
Proof.
  induction timestamps as [|[a b] rest IH]; intros H; [exact I|].
  cbn [in_order]. split.
  - destruct rest as [|[a' b'] rest]; [exact I|].
    apply (H 0%nat a b a' b'); reflexivity.
  - apply IH. intros i x y x' y' E1 E2. apply (H (S i) x y x' y'); assumption.
Qed.

Lemma round3_max (x y : Q) :
  Py.round3 (Qmax x y) <= Qmax (Py.round3 x) (Py.round3 y).
Proof.
  destruct (Qlt_le_dec x y) as [L|L].
  - assert (E : Qmax x y == y) by (apply Q.max_r; lra).
    apply round3_eq in E. rewrite E. apply Q.le_max_r.
  - assert (E : Qmax x y == x) by (apply Q.max_l; lra).
    apply round3_eq in E. rewrite E. apply Q.le_max_l.
Qed.

(** X24: when the onsets come in time order, so do the pairs of
    [estimate_line_timestamps] on the path with two onsets or more: a
    line starts no earlier than the line before, and the line before ends
    by that start, or at its own start plus [MIN_PHRASE_DURATION] when
    that is later. *)
Theorem X24_onset_timestamps_in_order (duration : Q) (onset_times : list Q)
    (num_lines : nat) (timestamps : list (Q * Q)) :
  StronglySorted Qle onset_times ->
  (2 <= length onset_times)%nat ->
  BuildRapDb.estimate_line_timestamps duration onset_times num_lines
  = Some timestamps ->
  in_order timestamps.
Proof.
  intros Hs Ho. unfold BuildRapDb.estimate_line_timestamps.
  destruct (Nat.ltb_spec (length onset_times) 2) as [Hd|_]; [lia|].
  intros [= <-].
  set (segments := BuildRapDb.merge_loop _ _ _).
  destruct onset_times as [|t0 rest]; [simpl in Ho; lia|].
  assert (O : ordered_from t0 segments).
  { apply merge_loop_ordered, split_loop_ordered.
    - apply raw_segments_length.
    - apply raw_segments_ordered, Hs. }
  apply in_order_lookup. intros i a b a' b' E1 E2.
  rewrite list_lookup_fmap in E1, E2.
  destruct (Py.enumerate (take num_lines segments) !! i) as [[i1 [s e]]|] eqn:L1;
    [|discriminate].
  destruct (Py.enumerate (take num_lines segments) !! S i) as [[i2 [s' e']]|] eqn:L2;
    [|discriminate].
  unfold Py.enumerate in L1, L2.
  apply lookup_zip_Some in L1 as [N1 T1]. apply lookup_zip_Some in L2 as [N2 T2].
  apply lookup_seq in N1 as [-> _]. apply lookup_seq in N2 as [-> _].
  apply lookup_take_Some in T1 as [T1 _]. apply lookup_take_Some in T2 as [T2 _].
  destruct (ordered_lookup segments t0 i s e s' e' O T1 T2) as [O1 O2].
  cbn [Nat.add] in *.
  unfold BuildRapDb.timestamp_of in E1, E2. cbn [fmap option_fmap option_map] in E1, E2.
  injection E2 as <- _. injection E1 as <- <-.
  assert (Hn : (i + 1 <? length segments)%nat = true).
  { apply Nat.ltb_lt. apply lookup_lt_Some in T2. lia. }
  rewrite Hn.
  replace (BuildRapDb.seg_at segments (i + 1)) with (s', e').
  2:{ unfold BuildRapDb.seg_at. replace (i + 1)%nat with (S i) by lia.
      symmetry. apply nth_lookup_Some, T2. }
  cbn [fst].
  unfold BuildRapDb.MAX_PHRASE_DURATION, BuildRapDb.MIN_PHRASE_DURATION.
  split; [apply round3_mono; lra|].
  assert (Py.max (Py.min s' (s + 4.0 + 1.0)) (s + 0.6) <= Qmax s' (s + 0.6)) as U.
  { unfold Py.max, Py.min. apply Q.max_lub; [|apply Q.le_max_r].
    apply Qle_trans with s'; [apply Q.le_min_l|apply Q.le_max_l]. }
  apply round3_mono in U.
  pose proof (round3_max s' (s + 0.6)) as M.
  rewrite (round3_shift s 0.6 300) in M by reflexivity.
  lra.
Qed.

Lemma X24_onset_timestamps_in_order_witness :
  in_order [(1.000, 2.500); (2.500, 7.500); (12.000, 17.000)].
Proof.
  apply (X24_onset_timestamps_in_order 20 [1.0; 2.5; 12.0] 3%nat).
  - repeat constructor; vm_compute; discriminate.
  - simpl. lia.
  - vm_compute. reflexivity.
Defined.
